(* ===== verification/_CoqProject ===== *)
-Q . S2P
Prelude.v
JsValue.v
Icons.v
Url.v
Async.v
Json.v
JsonSound.v
Weather.v
Response.v
Controller.v
Progress.v
Stored.v
Typing.v
RenderSafety.v
View.v
Refinement.v
SeqGuard.v
