(* ===== verification/Prelude.v ===== *)
(** * A verification development of the weather widget (ar7ab/weather-app)

    ** The program

    The repository is a React single-page widget.  [src/src/App.jsx]
    renders the component [Weather] of [src/src/components/Weather.jsx]
    inside a styled [div]; the component holds all the behaviour:
    - the React states [weatherData] ([useState(null)]) and [error]
      ([useState("")]), and the DOM input field read through [inputRef];
    - the constant object [allIcons] (lines 18-33) mapping OpenWeatherMap
      condition codes to image assets imported at lines 4-11;
    - the [async] function [search(city)] (lines 35-62): it returns at once
      on an empty city, builds the request URL, awaits [fetch], throws on
      a non-ok response, awaits [response.json()], reads the fields of the
      JSON, looks up the icon, and calls [setWeatherData] and [setError];
      a [catch] turns every exception into [weatherData = false] and
      [error = "City not found"];
    - an effect run on mount (lines 65-68) whose body is empty;
    - [clearSearch] (lines 70-74), which empties the input field and resets
      both states;
    - the JSX (lines 76-146): a search bar (the input and two clickable
      images wired to [search] and [clearSearch]), the error paragraph when
      [error] is non-empty, the result block when [weatherData] is truthy,
      and the prompt when neither.
    The handlers interact only through the two React states and the DOM
    input; the network is the environment.  Several searches can be in
    flight at once, and nothing orders or cancels them.

    ** The files

    - [Prelude] (this file): the [res] error type and its notation in
      [wx_scope], string helpers ([has_char], [split_on], [break_at],
      [strip_chars]) with their lemmas, [exactly_one], the tactics
      [invc], [res_inv] and [decide_closed], the hint database [wx] and
      the rewrite database [wx_rw].
    - [JsValue]: the ECMAScript the component relies on: [jsval] (the
      values [JSON.parse] yields, [undefined], and the built-ins a
      prototype lookup reaches), ToBoolean ([truthy]) and [||] ([js_or]),
      property access with the prototype chain ([get_prop]), ToString and
      ToNumber through OrdinaryToPrimitive ([to_string], [to_number]) and
      [Math.floor] ([js_math_floor]).  The engine's number/string
      conversions are the class [JsEngine]; every theorem quantifies over
      it, and the witnesses use [decimal_engine].
    - [Icons]: the imports and [allIcons], and [icon_for], the expression
      [allIcons[code] || clearIcon] of line 47.
    - [Url]: [weather_url], the template literal of line 38, and
      [api_params], the name/value pairs the API server reads from it.
    - [Async]: [async U A], the finite tree of an [async] function
      (return, throw, a React state update, an await on [fetch] or on
      [json()]), with [bind], [try_catch], [run] (one request answered by
      an [oracle]) and [advance] (up to the next await).
    - [Json]: [JSON.parse], which [response.json()] of line 44 applies
      to the body text, from its standard (the ECMA-404 grammar:
      white space, literals, numbers with their exact decimal value,
      strings with escapes and surrogate pairs, arrays and objects), with
      [response_json], the settlement of that await; and [print_json], a
      writer of JSON text used to state the round trip.
    - [JsonSound]: the converse: what [JSON.parse] returns is printable
      ([json_ok]), with the number theory it needs (a divisor of a power
      of ten divides ten to the number of its bits).
    - [Weather]: the React state ([ui_state], [apply_update]),
      [weather_of_json] (lines 47-55), [search] and its pieces
      ([after_fetch], [after_json], [search_catch]), [clearSearch_updates],
      [render] (the dynamic children of the JSX), and the specification's
      scenarios.
    - [Response]: the body contract of the specification
      ([meets_contract], [spec_icon]) and the proof that [search]
      implements it.
    - [Controller]: a [world] (React state, input field, requests in flight
      in a [gmap]) and [step], the handling of one event: typing, the two
      click handlers of lines 93 and 99 ([search], [clearSearch]), and the
      settlement of an awaited promise; [reachable] is the closure from
      the first render.
    - [Progress]: [settle_all], which settles every request in flight,
      one after the other, as an [oracle] answers them.
    - [Stored]: [reachable_under Q], the worlds reached while every body
      delivered satisfies [Q], and the induction showing every stored
      result satisfies [P] when [weather_of_json] builds only such
      results from those bodies; [Typing] and [RenderSafety] are its
      instances.
    - [Typing]: what a stored result is made of ([wd_typed]: an integral
      temperature, an icon of the table or a built-in), preserved by every
      step.
    - [RenderSafety]: when [render] cannot throw ([render_ok_iff]), and
      [reachable_under], the worlds reached while every body the network
      delivers satisfies a condition.
    - [View]: the whole JSX tree ([weather_view], with [search_bar],
      [result_nodes], [error_nodes], [prompt_nodes]), [App] of
      [src/src/App.jsx], the mount effect, and what a tree offers
      ([handlers], [inputs], [srcs]).
    - [Refinement]: the Idle/Success/Failure machine of the specification
      ([spec_step]), the abstraction [abs_ui], and the simulation.
    - [SeqGuard]: not code of the repository: the sequence-number guard
      the specification's design notes propose, as a variant
      [guarded_step] of the controller.

    ** The theorems

    - Invariant and refinement: in every reachable world, under any
      interleaving of events, the state is idle, success or failure and
      the display is in exactly one mode ([Controller.reachable_exactly_one_mode]);
      every event is a step of the specification's machine with the label
      the event determines, or a stutter, and the displayed pair is always
      exactly one of its states, never a result next to an error
      ([Refinement.step_refines]); [render] emits the block of that mode
      ([Weather.render_shows_one_block]).
    - [search]: its complete functional behaviour on every branch
      ([Weather.search_run]), exactly one of result/error after it
      ([Weather.search_exactly_one]), no escaping exception and at most two
      awaits ([Weather.search_total]), the no-op on an empty city, the
      scenarios of the specification, [Math.floor] of the temperature.
    - Liveness: a request started by a click completes once its promises
      settle, leaving the state the sequential run computes
      ([Controller.click_search_completes]); from every reachable world,
      settling the promises every request in flight awaits, as any network
      answers them, leaves nothing pending
      ([Progress.settle_all_completes]).
    - The icon table and [clearSearch].
    - The request: the URL round trip for names free of delimiters
      ([Url.weather_url_roundtrip]); with the city URL-encoded as the
      specification asks, the round trip for every name
      ([Url.spec_url_roundtrip]); and the code's URL equals that request
      exactly when the city has only unreserved bytes
      ([Url.weather_url_meets_spec_iff]).
    - The response: every ok response meeting the specification's
      contract yields exactly its WeatherResult
      ([Response.search_meets_contract]); but any body whose containers
      exist is accepted, missing leaves becoming [undefined]
      ([Response.weather_of_json_accepts_missing]).
    - The body: [await response.json()] reads back every JSON text a
      server prints, for every value JSON carries
      ([Json.response_json_print]), and the values it can fulfil with
      are exactly the printable ones ([JsonSound.response_json_image]);
      a body [JSON.parse] rejects is a lookup failure, and the London
      scenario runs from the text of the response
      ([Response.search_london_text]).
    - Where results come from: every stored result is read off one body
      the network delivered, its humidity, wind speed and location being
      that body's own fields, in every interleaving
      ([Typing.stored_readings]).
    - Types: every stored result has an integral temperature and an icon
      of the table or a built-in ([Typing.reachable_weather_typed]); every
      image the page shows is a bundled one
      ([View.reachable_images_bundled]); under the specification's
      response contract no render throws, in any interleaving
      ([RenderSafety.contract_render_safe]), while one object field
      suffices to make it throw
      ([Weather.render_throws_on_object_humidity]).
    - The page: one input and the two controls in every state
      ([View.weather_view_controls]), the tree throws exactly when the
      flat [render] does ([View.weather_view_render_agree]), and the
      first page shows the prompt with no request started
      ([View.first_page]); end to end, the London scenario driven from a
      click on the rendered control shows the specified texts
      ([View.london_page]).
    - The design note: with the sequence-number guard the later of two
      overlapping searches wins in every interleaving
      ([SeqGuard.guarded_latest_search_wins]) and the invariant still
      holds ([SeqGuard.guarded_exactly_one_mode]); these are checks of a
      design the code does not implement, kept as documentation.
    - What modelling showed: in every world with two bodies awaited, the
      one settling last decides the display, so the stale response of an
      earlier search overwrites a later one
      ([Controller.stale_response_wins]); in every world, a response
      after [clearSearch] brings a result back with the input empty
      ([Controller.late_response_after_clear]); a body with missing fields is a success with
      [undefined]/[NaN]; [&] and [#] in a city change the request; codes
      such as ["constructor"] pick an inherited built-in as the icon;
      ["03n"] shows the clear icon while ["03d"] shows clouds; an object
      field makes the next render throw; and the invariant rests on React
      batching the two setters of the success path: rendered one call at a
      time, they show the new result next to the stale error
      ([Controller.unbatched_render_shows_both], with
      [Controller.intermediate_states]).

    ** Bounds and fuel

    [run] and [advance] recurse on the [async] tree, which is inductive, so
    they need no fuel.  [Controller.drive] settles the promises of one
    request with fuel 2: [Weather.search_total] shows that [search] awaits
    at most twice, which [Controller.drive_run] turns into completion.
    JavaScript numbers are finite doubles abstracted as rationals [Q]
    (with [NaN] and the infinities): the floor of a value is exact, and
    the rounding of decimal literals to doubles is not modelled.  Strings
    are byte strings: a city name is its UTF-8 encoding, which is what
    [encodeURIComponent] percent-encodes.  [SeqGuard.interleavings]
    enumerates the six orders of two two-step requests, a finite check by
    evaluation.  [Progress.settle_all] gives every request the fuel 2 of
    [drive], enough by the same bound.  The JSON parser recurses on fuel,
    [S (length text)]: every value takes at least one character of the
    text ([Json.jsize_print]), so the printed text of a value never runs
    out of it.

    ** Not modelled

    - [className] strings, Tailwind and the fonts (lines 1-3 of both
      files): they only style the page.
    - The console output of lines 45 and 60: developer diagnostics, not
      part of the behaviour the specification describes.
    - The HTTP transport (connections, headers, status lines) and the
      decoding of the body bytes as UTF-8 (with the byte-order mark
      [response.json()] strips): platform code, not the repository's; the
      network's answer to each await is a response, a parsed value or a
      rejection, chosen by an [oracle] or by the events of the
      [Controller].  [JSON.parse] itself is modelled from its standard
      ([Json]); the rounding of its numbers to doubles and their overflow
      to infinity are not (numbers stay exact rationals).
    - The percent-encoding the URL parser applies to spaces and quotes,
      and the server undoes: it cancels out and is left out of both
      directions of [Url.api_params].
    - Text nodes are modelled as React renders them for the values the
      component can hold; React's reconciliation (keys, DOM diffing) is
      not modelled, only the tree each render produces.

    ** Plan for the next sittings

    - [Response]: the converse of [weather_of_json_accepts_missing]: a
      [TypeError] exactly when a container is [undefined] or [null] or a
      converted leaf is an object whose [toString] is shadowed.
    - [Json]: every text [JSON.parse] accepts is the printed text of its
      value up to white space and the spelling of numbers.
    - [Controller]: per-call rendering as a full variant semantics, and
      whether the invariant holds of it with the order of the setters
      reversed.
    - [RenderSafety]: the weakest condition on the bodies under which no
      render throws (the three rendered leaves free of objects), with
      its converse over reachable worlds. *)

From stdpp Require Export base list strings options sets.
From Stdlib Require Export Ascii String.

Declare Scope wx_scope.
Delimit Scope wx_scope with wx.

Create HintDb wx.
Create Rewrite HintDb wx_rw.

(** ** Results: a value or an error *)

Inductive res (E A : Type) : Type :=
| Ok (a : A)
| Err (e : E).
Arguments Ok {E A} a.
Arguments Err {E A} e.

Definition res_bind {E A B} (m : res E A) (f : A -> res E B) : res E B :=
  match m with
  | Ok a => f a
  | Err e => Err e
  end.

Notation "x <-? m ;; k" := (res_bind m (fun x => k))
  (at level 100, m at next level, right associativity) : wx_scope.

Lemma res_bind_Ok {E A B} (a : A) (f : A -> res E B) : res_bind (Ok a) f = f a.
Proof. reflexivity. Qed.

Lemma res_bind_Err {E A B} (e : E) (f : A -> res E B) : res_bind (Err e) f = Err e.
Proof. reflexivity. Qed.

Lemma res_bind_Ok_inv {E A B} (m : res E A) (f : A -> res E B) b :
  res_bind m f = Ok b -> exists a, m = Ok a /\ f a = Ok b.
Proof. destruct m; simpl; [eauto | discriminate]. Qed.

#[export] Hint Rewrite @res_bind_Ok @res_bind_Err : wx_rw.

(** Exactly one of three conditions holds. *)
Definition exactly_one (a b c : bool) : bool :=
  (a && negb b && negb c) || (negb a && b && negb c) || (negb a && negb b && c).

(** ** Strings *)

Local Open Scope string_scope.

(** stdpp declares [String.append] [simpl never]; the models reason about
    URLs and messages built by concatenation, so it reduces again here. *)
#[global] Arguments String.append : simpl nomatch.

(** Whether the character [c] occurs in [s]. *)
Fixpoint has_char (c : ascii) (s : string) : bool :=
  match s with
  | EmptyString => false
  | String d t => if ascii_dec c d then true else has_char c t
  end.

(** [s.split(c)] for a one-character separator. *)
Fixpoint split_on (c : ascii) (s : string) : list string :=
  match s with
  | EmptyString => [EmptyString]
  | String d t =>
      if ascii_dec c d then EmptyString :: split_on c t
      else match split_on c t with
           | [] => [String d EmptyString]
           | w :: ws => String d w :: ws
           end
  end.

(** The part of [s] before the first [c], and what follows it if [c]
    occurs. *)
Fixpoint break_at (c : ascii) (s : string) : string * option string :=
  match s with
  | EmptyString => (EmptyString, None)
  | String d t =>
      if ascii_dec c d then (EmptyString, Some t)
      else let '(a, b) := break_at c t in (String d a, b)
  end.

(** Removal of every occurrence of the characters of [cs]. *)
Fixpoint strip_chars (cs : list ascii) (s : string) : string :=
  match s with
  | EmptyString => EmptyString
  | String d t =>
      if decide (d ∈ cs) then strip_chars cs t else String d (strip_chars cs t)
  end.

Lemma string_app_assoc (s t u : string) : (s ++ t) ++ u = s ++ (t ++ u).
Proof. induction s as [|d s IH]; simpl; [done|]. by rewrite IH. Qed.

Lemma string_app_nil_r (s : string) : s ++ "" = s.
Proof. induction s as [|d s IH]; simpl; [done|]. by rewrite IH. Qed.

#[export] Hint Rewrite string_app_assoc string_app_nil_r : wx_rw.

Lemma string_app_length (s t : string) :
  String.length (s ++ t) = String.length s + String.length t.
Proof. induction s as [|d s IH]; simpl; lia. Qed.

(** Concatenation cancels on the right as [app_inj] of stdpp does on the
    left. *)
Lemma string_app_inj_r (s t u : string) : s ++ u = t ++ u -> s = t.
Proof.
  revert t. induction s as [|c s IH]; intros [|d t] H; simpl in H; try done.
  - apply (f_equal String.length) in H. simpl in H. rewrite string_app_length in H. lia.
  - apply (f_equal String.length) in H. simpl in H. rewrite string_app_length in H. lia.
  - injection H as -> H. by rewrite (IH t H).
Qed.

Lemma has_char_app c s t : has_char c (s ++ t) = has_char c s || has_char c t.
Proof. induction s as [|d s IH]; simpl; [done|]. by destruct (ascii_dec c d). Qed.

Lemma has_char_String c d t :
  has_char c (String d t) = if ascii_dec c d then true else has_char c t.
Proof. reflexivity. Qed.

#[export] Hint Rewrite has_char_app : wx_rw.

Lemma split_on_free c a : has_char c a = false -> split_on c a = [a].
Proof.
  induction a as [|d a IH]; simpl; [done|].
  destruct (ascii_dec c d); [discriminate|]. intros H. by rewrite IH.
Qed.

Lemma split_on_app c a b :
  has_char c a = false -> split_on c (a ++ String c b) = a :: split_on c b.
Proof.
  induction a as [|d a IH]; simpl.
  - intros _. by destruct (ascii_dec c c).
  - destruct (ascii_dec c d); [discriminate|]. intros H. by rewrite IH.
Qed.

Lemma break_at_free c a : has_char c a = false -> break_at c a = (a, None).
Proof.
  induction a as [|d a IH]; simpl; [done|].
  destruct (ascii_dec c d); [discriminate|]. intros H. by rewrite IH.
Qed.

Lemma break_at_app c a b :
  has_char c a = false -> break_at c (a ++ String c b) = (a, Some b).
Proof.
  induction a as [|d a IH]; simpl.
  - intros _. by destruct (ascii_dec c c).
  - destruct (ascii_dec c d); [discriminate|]. intros H. by rewrite IH.
Qed.

Lemma strip_chars_free cs s :
  Forall (fun c => has_char c s = false) cs -> strip_chars cs s = s.
Proof.
  induction s as [|d s IH]; simpl; [done|]. intros Hcs.
  case_decide as Hd.
  - exfalso. rewrite Forall_forall in Hcs. specialize (Hcs d Hd).
    simpl in Hcs. by destruct (ascii_dec d d).
  - f_equal. apply IH. eapply Forall_impl; [exact Hcs|]. simpl.
    intros c Hc. by destruct (ascii_dec c d).
Qed.

Lemma strip_chars_app cs s t : strip_chars cs (s ++ t) = strip_chars cs s ++ strip_chars cs t.
Proof. induction s as [|d s IH]; simpl; [done|]. case_decide; by rewrite IH. Qed.

#[export] Hint Rewrite strip_chars_app : wx_rw.

(** ** Tactics *)

Ltac invc H := inversion H; subst; clear H.

(** Prove a decidable proposition on closed data by evaluation. *)
Ltac decide_closed := apply (bool_decide_unpack _); vm_compute; reflexivity.

(** Split the hypotheses [res_bind m f = Ok b] of the goal. *)
Ltac res_inv :=
  repeat match goal with
  | H : res_bind ?m _ = Ok _ |- _ =>
      let a := fresh "a" in
      let Hm := fresh "Hm" in
      apply res_bind_Ok_inv in H as (a & Hm & H)
  end.
