(* ===== verification/JsValue.v ===== *)
(** * JavaScript values as the component sees them

    The component reads the result of [response.json()] with the
    expressions [data.weather[0].icon], [data.main.humidity],
    [data.wind.speed], [Math.floor(data.main.temp)] and [data.name], looks
    a key up in the object literal [allIcons], and combines with [||].
    This file models the part of ECMAScript those expressions use:
    - [jsval]: the values [JSON.parse] produces (numbers, strings,
      booleans, [null], arrays, objects with their keys in source order),
      plus [undefined] and the built-in objects a prototype lookup reaches
      ([JHost], carrying its string conversion);
    - [truthy] (ToBoolean) and [js_or] ([a || b]);
    - [get_prop] ([v[k]], [v.k]): own property, then the prototype chain,
      and the [TypeError] on [undefined] and [null];
    - [to_string] and [to_number] (ToString, ToNumber through
      OrdinaryToPrimitive), and [js_math_floor] ([Math.floor]).
    Numbers are finite doubles abstracted as rationals ([Q]), with [NaN]
    and the infinities.  The two conversions between numbers and strings
    of the engine (Number::toString and StringToNumber) are the interface
    [JsEngine]: every theorem holds for any engine. *)

From S2P Require Import Prelude.
From Stdlib Require Import QArith Qround DecimalString.

Local Open Scope string_scope.

(** ** Values *)

Inductive jsnum : Type :=
| NaN
| Infinity (negative : bool)
| Fin (q : Q).

(** The exceptions the component can raise or receive. *)
Inductive exn : Type :=
| TypeError (msg : string)
| SyntaxError (msg : string)
| NetworkError
| Error (msg : string).

Set Warnings "-register-all".

Inductive jsval : Type :=
| JUndefined
| JNull
| JBool (b : bool)
| JNum (n : jsnum)
| JStr (s : string)
| JArr (xs : list jsval)
| JObj (props : list (string * jsval))
| JHost (repr : string).

#[export] Instance exn_eq_dec : EqDecision exn.
Proof. solve_decision. Defined.

(** The engine's conversions between numbers and strings. *)
Class JsEngine : Type := {
  number_to_string : jsnum -> string;
  string_to_number : string -> jsnum
}.

(** ** ToBoolean and [||] *)

Definition num_truthy (n : jsnum) : bool :=
  match n with
  | NaN => false
  | Infinity _ => true
  | Fin q => negb (Qeq_bool q 0)
  end.

Definition truthy (v : jsval) : bool :=
  match v with
  | JUndefined | JNull => false
  | JBool b => b
  | JNum n => num_truthy n
  | JStr s => negb (String.eqb s "")
  | JArr _ | JObj _ | JHost _ => true
  end.

(** [a || b] evaluates to [a] when [a] is truthy, to [b] otherwise. *)
Definition js_or (a b : jsval) : jsval := if truthy a then a else b.

(** ** Properties *)

(** Own property of an object created by [JSON.parse] or by a literal:
    with a duplicated key the last one wins. *)
Fixpoint own_prop (ps : list (string * jsval)) (k : string) : option jsval :=
  match ps with
  | [] => None
  | (k', v) :: ps' =>
      match own_prop ps' k with
      | Some w => Some w
      | None => if String.eqb k k' then Some v else None
      end
  end.

Inductive proto : Type :=
| ObjectProto | ArrayProto | StringProto | NumberProto | BooleanProto.

(** The string keys of each prototype object (ES2023).  [length] of
    [Array.prototype] and [String.prototype] is omitted: it is always
    shadowed by the receiver's own [length]. *)
Definition proto_keys (p : proto) : list string :=
  match p with
  | ObjectProto =>
      ["constructor"; "__defineGetter__"; "__defineSetter__"; "hasOwnProperty";
       "__lookupGetter__"; "__lookupSetter__"; "isPrototypeOf";
       "propertyIsEnumerable"; "toString"; "valueOf"; "__proto__"; "toLocaleString"]
  | ArrayProto =>
      ["constructor"; "at"; "concat"; "copyWithin"; "fill"; "find"; "findIndex";
       "findLast"; "findLastIndex"; "lastIndexOf"; "pop"; "push"; "reverse";
       "shift"; "unshift"; "slice"; "sort"; "splice"; "includes"; "indexOf";
       "join"; "keys"; "entries"; "values"; "forEach"; "filter"; "flat";
       "flatMap"; "map"; "every"; "some"; "reduce"; "reduceRight";
       "toLocaleString"; "toString"; "toReversed"; "toSorted"; "toSpliced"; "with"]
  | StringProto =>
      ["constructor"; "anchor"; "at"; "big"; "blink"; "bold"; "charAt";
       "charCodeAt"; "codePointAt"; "concat"; "endsWith"; "fontcolor";
       "fontsize"; "fixed"; "includes"; "indexOf"; "isWellFormed"; "italics";
       "lastIndexOf"; "link"; "localeCompare"; "match"; "matchAll"; "normalize";
       "padEnd"; "padStart"; "repeat"; "replace"; "replaceAll"; "search";
       "slice"; "small"; "split"; "strike"; "sub"; "substr"; "substring"; "sup";
       "startsWith"; "toString"; "toWellFormed"; "trim"; "trimStart";
       "trimLeft"; "trimEnd"; "trimRight"; "toLocaleLowerCase";
       "toLocaleUpperCase"; "toLowerCase"; "toUpperCase"; "valueOf"]
  | NumberProto =>
      ["constructor"; "toExponential"; "toFixed"; "toPrecision"; "toString";
       "valueOf"; "toLocaleString"]
  | BooleanProto => ["constructor"; "toString"; "valueOf"]
  end.

Definition proto_ctor (p : proto) : string :=
  match p with
  | ObjectProto => "Object" | ArrayProto => "Array" | StringProto => "String"
  | NumberProto => "Number" | BooleanProto => "Boolean"
  end.

(** [String(p)] for each prototype object. *)
Definition proto_repr (p : proto) : string :=
  match p with
  | ObjectProto => "[object Object]" | ArrayProto => "" | StringProto => ""
  | NumberProto => "0" | BooleanProto => "false"
  end.

Definition builtin_fn (name : string) : jsval :=
  JHost ("function " ++ name ++ "() { [native code] }").

(** A key found on prototype [p] by a receiver whose own prototype is
    [r]: the [__proto__] accessor answers the receiver's prototype. *)
Definition proto_member (r p : proto) (k : string) : jsval :=
  if String.eqb k "constructor" then builtin_fn (proto_ctor p)
  else if String.eqb k "__proto__" then JHost (proto_repr r)
  else builtin_fn k.

Definition proto_get_own (r p : proto) (k : string) : option jsval :=
  if decide (k ∈ proto_keys p) then Some (proto_member r p k) else None.

(** Lookup along the chain [r], then [Object.prototype]. *)
Definition proto_get (r : proto) (k : string) : jsval :=
  match proto_get_own r r k with
  | Some v => v
  | None =>
      match r with
      | ObjectProto => JUndefined
      | _ => default JUndefined (proto_get_own r ObjectProto k)
      end
  end.

Definition is_digit (c : ascii) : bool :=
  (48 <=? nat_of_ascii c)%nat && (nat_of_ascii c <=? 57)%nat.

Fixpoint digits_value (s : string) (acc : N) : option N :=
  match s with
  | EmptyString => Some acc
  | String c t =>
      if is_digit c then digits_value t (10 * acc + N.of_nat (nat_of_ascii c - 48))%N
      else None
  end.

(** The array index a key denotes: a canonical decimal below [2^32 - 1]. *)
Definition array_index (k : string) : option N :=
  match k with
  | EmptyString => None
  | String "0" EmptyString => Some 0%N
  | String "0" _ => None
  | _ =>
      match digits_value k 0 with
      | Some i => if (i <? 4294967295)%N then Some i else None
      | None => None
      end
  end.

Definition length_value (n : nat) : jsval := JNum (Fin (inject_Z (Z.of_nat n))).

Definition array_own (xs : list jsval) (k : string) : option jsval :=
  if String.eqb k "length" then Some (length_value (List.length xs))
  else match array_index k with
       | Some i => if (i <? N.of_nat (List.length xs))%N then xs !! N.to_nat i else None
       | None => None
       end.

Definition string_own (s : string) (k : string) : option jsval :=
  if String.eqb k "length" then Some (length_value (String.length s))
  else match array_index k with
       | Some i =>
           if (i <? N.of_nat (String.length s))%N then
             option_map (fun c => JStr (String c EmptyString)) (String.get (N.to_nat i) s)
           else None
       | None => None
       end.

(** [v[k]] with [k] already a property key.  Reading a property of
    [undefined] or [null] throws a [TypeError].  The built-in objects
    ([JHost]) are never read by the component; their properties are not
    modelled. *)
Definition get_prop (v : jsval) (k : string) : res exn jsval :=
  match v with
  | JUndefined =>
      Err (TypeError ("Cannot read properties of undefined (reading '" ++ k ++ "')"))
  | JNull =>
      Err (TypeError ("Cannot read properties of null (reading '" ++ k ++ "')"))
  | JBool _ => Ok (proto_get BooleanProto k)
  | JNum _ => Ok (proto_get NumberProto k)
  | JStr s => Ok (match string_own s k with Some x => x | None => proto_get StringProto k end)
  | JArr xs => Ok (match array_own xs k with Some x => x | None => proto_get ArrayProto k end)
  | JObj ps => Ok (match own_prop ps k with Some x => x | None => proto_get ObjectProto k end)
  | JHost _ => Ok JUndefined
  end.

(** ** Conversions *)

Section Conversions.
Context `{JsEngine}.

(** ToString.  An array converts through [Array.prototype.join(",")],
    where [undefined] and [null] elements give the empty string.  A JSON
    object converts through [Object.prototype.toString] unless it has an
    own [toString] key: that value is not callable, [valueOf] answers
    the object itself, and OrdinaryToPrimitive throws. *)
Fixpoint to_string (v : jsval) : res exn string :=
  match v with
  | JUndefined => Ok "undefined"
  | JNull => Ok "null"
  | JBool b => Ok (if b then "true" else "false")
  | JNum n => Ok (number_to_string n)
  | JStr s => Ok s
  | JArr xs =>
      (fix join (xs : list jsval) : res exn string :=
         match xs with
         | [] => Ok ""
         | x :: xs' =>
             sx <-? (match x with
                     | JUndefined | JNull => Ok ""
                     | _ => to_string x
                     end) ;;
             match xs' with
             | [] => Ok sx
             | _ => rest <-? join xs' ;; Ok (sx ++ "," ++ rest)
             end
         end)%wx xs
  | JObj ps =>
      match own_prop ps "toString" with
      | Some _ => Err (TypeError "Cannot convert object to primitive value")
      | None => Ok "[object Object]"
      end
  | JHost r => Ok r
  end.

(** ToNumber.  Objects and arrays convert to a primitive first; for the
    values JSON produces the primitive is the string [to_string] gives. *)
Definition to_number (v : jsval) : res exn jsnum :=
  match v with
  | JUndefined => Ok NaN
  | JNull => Ok (Fin 0)
  | JBool b => Ok (Fin (if b then 1 else 0))
  | JNum n => Ok n
  | JStr s => Ok (string_to_number s)
  | JArr _ | JObj _ | JHost _ => (s <-? to_string v ;; Ok (string_to_number s))%wx
  end.

Definition math_floor (n : jsnum) : jsnum :=
  match n with
  | Fin q => Fin (inject_Z (Qfloor q))
  | _ => n
  end.

(** [Math.floor(v)]. *)
Definition js_math_floor (v : jsval) : res exn jsnum :=
  (n <-? to_number v ;; Ok (math_floor n))%wx.

End Conversions.

(** ** Lemmas on property lookup *)

Lemma own_prop_elem ps k v : own_prop ps k = Some v -> (k, v) ∈ ps.
Proof.
  induction ps as [|[k' w] ps IH]; simpl; [done|].
  destruct (own_prop ps k) as [u|] eqn:E.
  - intros [= <-]. apply elem_of_cons; right. by apply IH.
  - destruct (String.eqb_spec k k') as [->|]; [intros [= <-]; left | done].
Qed.

Lemma own_prop_None ps k : k ∉ ps.*1 -> own_prop ps k = None.
Proof.
  induction ps as [|[k' w] ps IH]; simpl; [done|]. intros Hk.
  rewrite IH; [|set_solver]. destruct (String.eqb_spec k k'); set_solver.
Qed.

Lemma own_prop_NoDup ps k v : NoDup ps.*1 -> (k, v) ∈ ps -> own_prop ps k = Some v.
Proof.
  induction ps as [|[k' w] ps IH]; simpl; [set_solver|].
  intros [Hk' Hnd]%NoDup_cons Hin.
  apply elem_of_cons in Hin as [[= -> ->]|Hin].
  - rewrite own_prop_None; [|done]. by rewrite String.eqb_refl.
  - by rewrite IH.
Qed.

Lemma get_prop_Err v k e :
  get_prop v k = Err e -> v = JUndefined \/ v = JNull.
Proof. destruct v; simpl; by eauto. Qed.

Lemma proto_get_own_ObjectProto r k :
  k ∈ proto_keys ObjectProto -> proto_get_own r ObjectProto k = Some (proto_member r ObjectProto k).
Proof. unfold proto_get_own. by case_decide. Qed.

Lemma proto_get_ObjectProto k :
  proto_get ObjectProto k =
    if decide (k ∈ proto_keys ObjectProto) then proto_member ObjectProto ObjectProto k
    else JUndefined.
Proof. unfold proto_get, proto_get_own. by case_decide. Qed.

Lemma proto_member_host r p k : exists h, proto_member r p k = JHost h.
Proof.
  unfold proto_member, builtin_fn.
  destruct (String.eqb k "constructor"), (String.eqb k "__proto__"); eauto.
Qed.

(** [Math.floor] of a finite number is the integer below it. *)
Lemma Qfloor_bounds q : inject_Z (Qfloor q) <= q < inject_Z (Qfloor q) + 1.
Proof.
  split; [apply Qfloor_le|]. rewrite <-(inject_Z_plus _ 1). apply Qlt_floor.
Qed.

Lemma js_math_floor_Fin `{JsEngine} q : js_math_floor (JNum (Fin q)) = Ok (Fin (inject_Z (Qfloor q))).
Proof. reflexivity. Qed.

(** ** A concrete engine

    Used by the witnesses only: numbers whose denominator divides a power
    of ten print as their exact decimal expansion; strings of an optional
    sign and decimal digits convert to integers, the empty string to [0],
    anything else to [NaN]. *)

Definition decimal_of_Q (q : Q) : string :=
  let n := Qnum q in
  let d := Zpos (Qden q) in
  let fix find (k : nat) (p : Z) : string :=
    match k with
    | O => "NaN"
    | S k' =>
        if Z.eqb (Z.modulo (n * p) d) 0 then
          let m := Z.div (n * p) d in
          let digits := DecimalString.NilZero.string_of_int (Z.to_int (Z.abs m)) in
          let scale := (String.length (DecimalString.NilZero.string_of_int (Z.to_int p)) - 1)%nat in
          let sign := if Z.ltb m 0 then "-" else "" in
          if Nat.eqb scale 0 then sign ++ digits
          else
            let pad := String.length digits in
            let digits := if Nat.leb pad scale then
                            String.concat "" (repeat "0" (S scale - pad)%nat) ++ digits
                          else digits in
            let ip := (String.length digits - scale)%nat in
            sign ++ substring 0 ip digits ++ "." ++ substring ip scale digits
        else find k' (p * 10)%Z
    end in
  find 18%nat 1%Z.

Definition decimal_engine : JsEngine := {|
  number_to_string n :=
    match n with
    | NaN => "NaN"
    | Infinity false => "Infinity"
    | Infinity true => "-Infinity"
    | Fin q => decimal_of_Q q
    end;
  string_to_number s :=
    if String.eqb s "" then Fin 0
    else match DecimalString.NilZero.int_of_string s with
         | Some i => Fin (inject_Z (Z.of_int i))
         | None => NaN
         end
|}.
