(* ===== verification/Icons.v ===== *)
(** * The condition-code icon table

    Models, from [src/src/components/Weather.jsx]:
    - the image imports of lines 4-11 ([asset], [asset_url], [clearIcon]
      and the other icons): Vite resolves each import to the URL string of
      the file;
    - the object literal [allIcons] of lines 18-33;
    - the expression [allIcons[data.weather[0].icon] || clearIcon] of
      line 47, as [icon_for] applied to the value of
      [data.weather[0].icon]: the key goes through ToPropertyKey (ToString),
      the lookup through the prototype chain of a plain object, and [||]
      replaces a falsy result by [clearIcon]. *)

From S2P Require Import Prelude JsValue.

Local Open Scope string_scope.

Inductive asset : Type :=
| SearchPng | ClearPng | CloudsPng | DrizzlePng | RainPng | SnowPng | WindPng | HumidityPng.

#[export] Instance asset_eq_dec : EqDecision asset.
Proof. solve_decision. Defined.

(** The URL an [import x from "../assets/<file>"] evaluates to. *)
Definition asset_url (a : asset) : string :=
  match a with
  | SearchPng => "/src/assets/search.png"
  | ClearPng => "/src/assets/clear.png"
  | CloudsPng => "/src/assets/clouds.png"
  | DrizzlePng => "/src/assets/drizzle.png"
  | RainPng => "/src/assets/rain.png"
  | SnowPng => "/src/assets/snow.png"
  | WindPng => "/src/assets/wind.png"
  | HumidityPng => "/src/assets/humidity.png"
  end.

Definition searchIcon : jsval := JStr (asset_url SearchPng).
Definition clearIcon : jsval := JStr (asset_url ClearPng).
Definition cloudIcon : jsval := JStr (asset_url CloudsPng).
Definition drizzleIcon : jsval := JStr (asset_url DrizzlePng).
Definition rainIcon : jsval := JStr (asset_url RainPng).
Definition snowIcon : jsval := JStr (asset_url SnowPng).
Definition windIcon : jsval := JStr (asset_url WindPng).
Definition humidityIcon : jsval := JStr (asset_url HumidityPng).

Definition allIcons_props : list (string * jsval) :=
  [("01d", clearIcon); ("01n", clearIcon);
   ("02d", cloudIcon); ("02n", cloudIcon);
   ("03d", cloudIcon); ("03n", clearIcon);
   ("04d", drizzleIcon); ("04n", drizzleIcon);
   ("09d", rainIcon); ("09n", rainIcon);
   ("10d", rainIcon); ("10n", rainIcon);
   ("13d", snowIcon); ("13n", snowIcon)].

Definition allIcons : jsval := JObj allIcons_props.

Section IconLookup.
Context `{JsEngine}.

(** [allIcons[code] || clearIcon]. *)
Definition icon_for (code : jsval) : res exn jsval :=
  (key <-? to_string code ;;
   icon <-? get_prop allIcons key ;;
   Ok (js_or icon clearIcon))%wx.

End IconLookup.

(** ** The table and its lookup *)

Lemma allIcons_keys_NoDup : NoDup allIcons_props.*1.
Proof. apply (bool_decide_unpack _). vm_compute. reflexivity. Qed.

Lemma allIcons_values_truthy k v : (k, v) ∈ allIcons_props -> truthy v = true.
Proof.
  intros Hin. assert (Hall : Forall (fun kv => truthy kv.2 = true) allIcons_props)
    by repeat constructor.
  rewrite Forall_forall in Hall. exact (Hall _ Hin).
Qed.

Lemma allIcons_no_proto_key k : k ∈ proto_keys ObjectProto -> k ∉ allIcons_props.*1.
Proof.
  assert (Hall : Forall (fun k => k ∉ allIcons_props.*1) (proto_keys ObjectProto))
    by (apply (bool_decide_unpack _); vm_compute; reflexivity).
  rewrite Forall_forall in Hall. exact (Hall k).
Qed.

Section IconTheorems.
Context `{JsEngine}.

(** A string code is looked up as an own key first, then on
    [Object.prototype]; [|| clearIcon] only applies to the second case
    since every value of the table is a non-empty URL. *)
Lemma icon_for_string c :
  icon_for (JStr c) =
    Ok (match own_prop allIcons_props c with
        | Some v => v
        | None => js_or (proto_get ObjectProto c) clearIcon
        end).
Proof.
  cbn [icon_for to_string res_bind get_prop allIcons].
  destruct (own_prop allIcons_props c) as [v|] eqn:E; [|done].
  apply own_prop_elem, allIcons_values_truthy in E. unfold js_or. by rewrite E.
Qed.

(** C11: A condition code listed in [allIcons] yields the icon the table
    maps it to. *)
Theorem icon_for_known c v :
  (c, v) ∈ allIcons_props -> icon_for (JStr c) = Ok v.
Proof.
  intros Hin. rewrite icon_for_string.
  by rewrite (own_prop_NoDup _ _ _ allIcons_keys_NoDup Hin).
Qed.

(** C12: A condition code that is neither a key of [allIcons] nor a key
    of [Object.prototype] falls back to [clearIcon]. *)
Theorem icon_for_unknown c :
  c ∉ allIcons_props.*1 -> c ∉ proto_keys ObjectProto ->
  icon_for (JStr c) = Ok clearIcon.
Proof.
  intros Hown Hproto. rewrite icon_for_string, own_prop_None by done.
  rewrite proto_get_ObjectProto. by case_decide.
Qed.

(** C19: A condition code that names a property of [Object.prototype]
    (["constructor"], ["toString"], ["__proto__"], ...) does not fall
    back to [clearIcon]: the lookup answers the inherited built-in
    object, which is truthy, and that becomes the icon. *)
Theorem icon_for_inherited c :
  c ∈ proto_keys ObjectProto ->
  exists h, icon_for (JStr c) = Ok (JHost h) /\ JHost h <> clearIcon.
Proof.
  intros Hc. rewrite icon_for_string, own_prop_None by (by apply allIcons_no_proto_key).
  rewrite proto_get_ObjectProto. case_decide; [|done].
  destruct (proto_member_host ObjectProto ObjectProto c) as [h Hh].
  rewrite Hh. exists h. by split.
Qed.

(** The night variant ["03n"] of "scattered clouds" shows the
    clear-sky icon while the day variant ["03d"] shows clouds; every
    other day/night pair of the table shares its icon. *)
Theorem icon_03n_differs_from_03d :
  icon_for (JStr "03n") = Ok clearIcon /\ icon_for (JStr "03d") = Ok cloudIcon /\
  clearIcon <> cloudIcon.
Proof. split; [|split]; [vm_compute; reflexivity..|done]. Qed.

End IconTheorems.

(** ** Witnesses *)

Lemma icon_for_known_witness :
  ("01d", clearIcon) ∈ allIcons_props /\
  @icon_for decimal_engine (JStr "01d") = Ok clearIcon.
Proof.
  assert (Hin : ("01d", clearIcon) ∈ allIcons_props) by apply list_elem_of_here.
  split; [exact Hin|]. exact (@icon_for_known decimal_engine "01d" clearIcon Hin).
Defined.

Lemma icon_for_unknown_witness :
  "99x" ∉ allIcons_props.*1 /\ "99x" ∉ proto_keys ObjectProto /\
  @icon_for decimal_engine (JStr "99x") = Ok clearIcon.
Proof.
  assert (H1 : "99x" ∉ allIcons_props.*1) by decide_closed.
  assert (H2 : "99x" ∉ proto_keys ObjectProto) by decide_closed.
  split; [exact H1|]. split; [exact H2|].
  exact (@icon_for_unknown decimal_engine "99x" H1 H2).
Defined.

Lemma icon_for_inherited_witness :
  "constructor" ∈ proto_keys ObjectProto /\
  exists h, @icon_for decimal_engine (JStr "constructor") = Ok (JHost h) /\ JHost h <> clearIcon.
Proof.
  assert (Hin : "constructor" ∈ proto_keys ObjectProto) by apply list_elem_of_here.
  split; [exact Hin|]. exact (@icon_for_inherited decimal_engine "constructor" Hin).
Defined.
