(* ===== verification/Url.v ===== *)
(** * The request URL

    Models line 38 of [src/src/components/Weather.jsx], the template
    literal
    [`https://api.openweathermap.org/data/2.5/weather?q=${city}&units=metric&appid=${import.meta.env.VITE_APP_ID}`]
    ([weather_url]): [city] is interpolated as it is, without
    [encodeURIComponent]; the API key is the build-time value of
    [VITE_APP_ID], and [undefined] when the variable is not set.

    To state what the request asks for, [api_params] models how the query
    string reaches the server as name/value pairs: the URL parser of
    [fetch] removes tabs and newlines and cuts the fragment at the first
    [#]; the server splits the query at [&], each pair at its first [=],
    and form-decodes both sides ([+] is a space, [%XY] a byte).  The
    percent-encoding the URL parser applies to spaces and quotes in a query,
    which the server decodes back, is left out of both directions. *)

From S2P Require Import Prelude JsValue.

Local Open Scope string_scope.

(** [${import.meta.env.VITE_APP_ID}]: Vite substitutes the string the
    build environment gives, or [undefined]. *)
Definition env_string (v : option string) : string :=
  match v with
  | Some s => s
  | None => "undefined"
  end.

Definition weather_url (city : string) (app_id : option string) : string :=
  "https://api.openweathermap.org/data/2.5/weather?q=" ++ city ++
  "&units=metric&appid=" ++ env_string app_id.

(** ** The query string as the server reads it *)

Definition tab_newline : list ascii := ["009"%char; "010"%char; "013"%char].

(** The query component: after the first [?], before the first [#]. *)
Definition url_query (url : string) : option string :=
  let u := strip_chars tab_newline url in
  (break_at "?" (break_at "#" u).1).2.

Definition hex_value (c : ascii) : option nat :=
  let n := nat_of_ascii c in
  if (48 <=? n)%nat && (n <=? 57)%nat then Some (n - 48)%nat
  else if (65 <=? n)%nat && (n <=? 70)%nat then Some (n - 55)%nat
  else if (97 <=? n)%nat && (n <=? 102)%nat then Some (n - 87)%nat
  else None.

(** application/x-www-form-urlencoded decoding of one name or value. *)
Fixpoint form_decode (s : string) : string :=
  match s with
  | EmptyString => EmptyString
  | String c t =>
      if ascii_dec c "+" then String " " (form_decode t)
      else if ascii_dec c "%" then
        match t with
        | String h1 (String h2 t') =>
            match hex_value h1, hex_value h2 with
            | Some a, Some b => String (ascii_of_nat (16 * a + b)) (form_decode t')
            | _, _ => String "%" (form_decode t)
            end
        | _ => String "%" (form_decode t)
        end
      else String c (form_decode t)
  end.

Definition query_pair (part : string) : string * string :=
  let '(n, v) := break_at "=" part in (form_decode n, form_decode (default "" v)).

Definition parse_query (q : string) : list (string * string) :=
  query_pair <$> filter (fun p => p <> "") (split_on "&" q).

Definition api_params (url : string) : list (string * string) :=
  match url_query url with
  | Some q => parse_query q
  | None => []
  end.

(** The characters a name or value must avoid to reach the server as it
    is written in the query. *)
Definition query_special : list ascii :=
  ["&"%char; "#"%char; "%"%char; "+"%char; "009"%char; "010"%char; "013"%char].

Definition query_safe (s : string) : Prop :=
  Forall (fun c => has_char c s = false) query_special.

#[export] Instance query_safe_dec s : Decision (query_safe s).
Proof. unfold query_safe. apply _. Defined.

(** ** The request the specification describes

    The specification (spec.md, "External Interfaces") asks for the city
    "URL-encoded" in [q].  [encodeURIComponent] (ECMA-262, 19.2.6.5) is
    the encoder a template literal would call: with the string taken as
    its UTF-8 bytes, every byte outside the unreserved set
    [A-Z a-z 0-9 - _ . ! ~ * ' ( )] becomes [%] and two upper-case hex
    digits. *)

Definition uri_unreserved (c : ascii) : bool :=
  let n := nat_of_ascii c in
  ((48 <=? n)%nat && (n <=? 57)%nat) || ((65 <=? n)%nat && (n <=? 90)%nat) ||
  ((97 <=? n)%nat && (n <=? 122)%nat) ||
  bool_decide (c ∈ ["-"; "_"; "."; "!"; "~"; "*"; "'"; "("; ")"]%char).

Definition hex_digit (n : nat) : ascii :=
  ascii_of_nat (if (n <? 10)%nat then 48 + n else 55 + n)%nat.

Fixpoint encodeURIComponent (s : string) : string :=
  match s with
  | EmptyString => EmptyString
  | String c t =>
      if uri_unreserved c then String c (encodeURIComponent t)
      else String "%" (String (hex_digit (nat_of_ascii c / 16))
             (String (hex_digit (nat_of_ascii c mod 16)) (encodeURIComponent t)))
  end.

Definition spec_url (city : string) (app_id : option string) : string :=
  "https://api.openweathermap.org/data/2.5/weather?q=" ++ encodeURIComponent city ++
  "&units=metric&appid=" ++ env_string app_id.

(** ** Lemmas *)

Lemma query_safe_app s t : query_safe (s ++ t) <-> query_safe s /\ query_safe t.
Proof.
  unfold query_safe. rewrite <-Forall_and. apply Forall_iff. intros c.
  rewrite has_char_app. destruct (has_char c s), (has_char c t); naive_solver.
Qed.

Lemma query_safe_chars s :
  query_safe s ->
  has_char "&" s = false /\ has_char "#" s = false /\ has_char "=" s = has_char "=" s /\
  has_char "%" s = false /\ has_char "+" s = false /\ strip_chars tab_newline s = s.
Proof.
  intros Hs. pose proof Hs as Hs'. unfold query_safe, query_special in Hs.
  repeat match goal with H : Forall _ (_ :: _) |- _ => apply Forall_cons in H as [? H] end.
  repeat split; try done. apply strip_chars_free.
  repeat constructor; done.
Qed.

Lemma form_decode_free s :
  has_char "+" s = false -> has_char "%" s = false -> form_decode s = s.
Proof.
  induction s as [|c s IH]; intros H1 H2; [done|].
  rewrite !has_char_String in H1, H2. simpl.
  destruct (ascii_dec "+" c); [done|]. destruct (ascii_dec "%" c); [done|].
  destruct (ascii_dec c "+"); [congruence|]. destruct (ascii_dec c "%"); [congruence|].
  by rewrite IH.
Qed.

(** A query safe for [&], [%], [+] splits at its [&]s, and each piece
    whose name has no [=] decodes to itself. *)
Lemma query_pair_safe n v :
  has_char "=" n = false -> query_safe n -> query_safe v ->
  query_pair (n ++ String "=" v) = (n, v).
Proof.
  intros Hn (_ & _ & _ & Hn1 & Hn2 & _)%query_safe_chars
    (_ & _ & _ & Hv1 & Hv2 & _)%query_safe_chars.
  unfold query_pair. rewrite break_at_app by done. simpl.
  by rewrite !form_decode_free.
Qed.

(** [encodeURIComponent] leaves no character the URL parser or the
    server would treat as a delimiter, and the server's form decoding
    undoes it. *)
Definition uri_delims : list ascii := ["&"; "#"; "+"; "009"; "010"; "013"]%char.

Lemma ascii_hex_bounds c : (nat_of_ascii c / 16 < 16 /\ nat_of_ascii c mod 16 < 16)%nat.
Proof.
  pose proof (nat_ascii_bounded c).
  split; [apply Nat.Div0.div_lt_upper_bound|apply Nat.mod_upper_bound]; lia.
Qed.

Lemma hex_value_digit n : (n < 16)%nat -> hex_value (hex_digit n) = Some n.
Proof. intros Hn. do 16 (destruct n as [|n]; [reflexivity|]). lia. Qed.

Lemma uri_delims_encoded c :
  c ∈ uri_delims ->
  uri_unreserved c = false /\ c <> "%"%char /\ forall k, (k < 16)%nat -> c <> hex_digit k.
Proof.
  intros Hc.
  assert (Hall : Forall (fun c => uri_unreserved c = false /\ c <> "%"%char /\
                          Forall (fun k => c <> hex_digit k) (seq 0 16)) uri_delims)
    by decide_closed.
  rewrite Forall_forall in Hall. destruct (Hall c Hc) as (H1 & H2 & H3).
  split_and!; [done|done|]. intros k Hk. rewrite Forall_forall in H3.
  apply H3, elem_of_seq. lia.
Qed.

Lemma encode_no_delim c s : c ∈ uri_delims -> has_char c (encodeURIComponent s) = false.
Proof.
  intros (Hu & Hp & Hh)%uri_delims_encoded.
  induction s as [|d s IH]; [done|]. simpl. destruct (ascii_hex_bounds d) as [B1 B2].
  destruct (uri_unreserved d) eqn:Hd; rewrite !has_char_String.
  - destruct (ascii_dec c d) as [->|]; congruence.
  - destruct (ascii_dec c "%"); [done|].
    destruct (ascii_dec c (hex_digit _)) as [E|]; [by destruct (Hh _ B1 E)|].
    destruct (ascii_dec c (hex_digit _)) as [E|]; [by destruct (Hh _ B2 E)|]. done.
Qed.

Lemma encode_strip s : strip_chars tab_newline (encodeURIComponent s) = encodeURIComponent s.
Proof. apply strip_chars_free. repeat constructor; apply encode_no_delim; set_solver. Qed.

Lemma form_decode_pct h1 h2 t a b :
  hex_value h1 = Some a -> hex_value h2 = Some b ->
  form_decode (String "%" (String h1 (String h2 t))) = String (ascii_of_nat (16 * a + b)) (form_decode t).
Proof. intros E1 E2. simpl. by rewrite E1, E2. Qed.

Lemma form_decode_encode s : form_decode (encodeURIComponent s) = s.
Proof.
  induction s as [|c s IH]; [done|]. simpl. destruct (uri_unreserved c) eqn:Hc.
  - assert (c <> "+"%char /\ c <> "%"%char) as [H1 H2]
      by (split; intros ->; discriminate Hc).
    cbn [form_decode]. destruct (ascii_dec c "+"); [congruence|]. destruct (ascii_dec c "%"); [congruence|].
    by rewrite IH.
  - destruct (ascii_hex_bounds c) as [B1 B2].
    rewrite (form_decode_pct _ _ _ _ _ (hex_value_digit _ B1) (hex_value_digit _ B2)), IH.
    by rewrite <-(Nat.div_mod_eq (nat_of_ascii c) 16), ascii_nat_embedding.
Qed.

Lemma encode_length s : (String.length s <= String.length (encodeURIComponent s))%nat.
Proof. induction s as [|c s IH]; simpl; [lia|]. destruct (uri_unreserved c); simpl; lia. Qed.

(** [encodeURIComponent] changes exactly the strings with a reserved
    byte. *)
Lemma encode_id_iff s :
  encodeURIComponent s = s <-> Forall (fun c => uri_unreserved c = true) (list_ascii_of_string s).
Proof.
  induction s as [|c s IH]; simpl; [split; auto|].
  rewrite Forall_cons, <-IH. destruct (uri_unreserved c) eqn:Hc.
  - split; [intros [= ->]|intros [_ ->]]; auto.
  - split; [|by intros [? _]]. intros [= _ Hs].
    pose proof (encode_length s). apply (f_equal String.length) in Hs. simpl in Hs. lia.
Qed.

Ltac has_char_simpl :=
  repeat (rewrite ?has_char_app; simpl);
  repeat match goal with H : has_char _ _ = false |- _ => rewrite H end; try done.

(** ** Theorems *)

(** The query of a URL of the template's shape whose value has no [&],
    [#], tab or newline: [q] is the form-decoded value. *)
Lemma api_params_template v app_id :
  has_char "&" v = false -> has_char "#" v = false -> strip_chars tab_newline v = v ->
  query_safe (env_string app_id) ->
  api_params ("https://api.openweathermap.org/data/2.5/weather?q=" ++ v ++
              "&units=metric&appid=" ++ env_string app_id) =
    [("q", form_decode v); ("units", "metric"); ("appid", env_string app_id)].
Proof.
  intros c1 c2 c5 Hk.
  destruct (query_safe_chars _ Hk) as (k1 & k2 & _ & k3 & k4 & k5).
  unfold api_params, url_query.
  rewrite !strip_chars_app, c5, k5. simpl.
  rewrite (break_at_free "#"); [|has_char_simpl]. simpl.
  unfold parse_query. simpl. rewrite split_on_app by done. simpl.
  rewrite (split_on_free "&" (env_string _)) by done.
  simpl. unfold query_pair. simpl. by rewrite (form_decode_free (env_string _)).
Qed.

(** C13: When the city name and the API key contain none of [&], [#], [%],
    [+], tab or newline, the request asks the API for exactly the
    parameters [q] = the city, [units] = [metric] and [appid] = the key
    ([undefined] when [VITE_APP_ID] is not set). *)
Theorem weather_url_roundtrip city app_id :
  query_safe city -> query_safe (env_string app_id) ->
  api_params (weather_url city app_id) =
    [("q", city); ("units", "metric"); ("appid", env_string app_id)].
Proof.
  intros Hc Hk. destruct (query_safe_chars _ Hc) as (c1 & c2 & _ & c3 & c4 & c5).
  unfold weather_url. rewrite api_params_template by done. by rewrite form_decode_free.
Qed.

(** C17: The city is interpolated without encoding: a city name
    containing [&] adds a parameter of its own choosing to the request,
    ahead of [units] and [appid]. *)
Theorem weather_url_injects_params a n v app_id :
  query_safe a -> query_safe n -> query_safe v -> has_char "=" n = false ->
  query_safe (env_string app_id) ->
  api_params (weather_url (a ++ String "&" (n ++ String "=" v)) app_id) =
    [("q", a); (n, v); ("units", "metric"); ("appid", env_string app_id)].
Proof.
  intros Ha Hn Hv Hneq Hk.
  destruct (query_safe_chars _ Ha) as (a1 & a2 & _ & a3 & a4 & a5).
  destruct (query_safe_chars _ Hn) as (n1 & n2 & _ & n3 & n4 & n5).
  destruct (query_safe_chars _ Hv) as (v1 & v2 & _ & v3 & v4 & v5).
  destruct (query_safe_chars _ Hk) as (k1 & k2 & _ & k3 & k4 & k5).
  unfold api_params, url_query, weather_url.
  rewrite !strip_chars_app. simpl. rewrite !strip_chars_app. simpl.
  rewrite a5, n5, v5, k5, !string_app_assoc. simpl.
  rewrite (break_at_free "#"); [|has_char_simpl]. simpl.
  unfold parse_query. simpl. rewrite split_on_app by done. simpl.
  rewrite split_on_app by has_char_simpl. simpl.
  rewrite (split_on_free "&" (env_string _)) by done. simpl.
  rewrite filter_cons_True by (by destruct n). simpl.
  rewrite query_pair_safe by done. unfold query_pair. simpl.
  rewrite !form_decode_free by done. reflexivity.
Qed.

(** C18: A city name containing [#] cuts the query there: the rest of the
    name, [units] and the API key are not sent, whatever the key. *)
Theorem weather_url_fragment_drops_key a b app_id :
  query_safe a ->
  api_params (weather_url (a ++ String "#" b) app_id) = [("q", a)].
Proof.
  intros Ha. destruct (query_safe_chars _ Ha) as (a1 & a2 & _ & a3 & a4 & a5).
  unfold api_params, url_query, weather_url.
  rewrite !strip_chars_app. simpl. rewrite a5, !string_app_assoc. simpl.
  rewrite break_at_app by done. simpl.
  unfold parse_query. simpl. rewrite split_on_free by done. simpl.
  unfold query_pair. simpl. rewrite !form_decode_free by done. reflexivity.
Qed.

(** C20: The URL the code builds is the one the specification asks for
    (the city passed through [encodeURIComponent]) exactly when every
    byte of the city is unreserved: a space, an [&], a [#], a [%] or any
    non-ASCII letter makes the two requests differ. *)
Theorem weather_url_meets_spec_iff city app_id :
  weather_url city app_id = spec_url city app_id <->
  Forall (fun c => uri_unreserved c = true) (list_ascii_of_string city).
Proof.
  rewrite <-encode_id_iff. unfold weather_url, spec_url. split; [|by intros ->].
  intros H. apply (inj (String.append _)) in H. symmetry. by apply string_app_inj_r in H.
Qed.

(** With the city URL-encoded as the specification asks, the server
    reads back exactly [q] = the city, [units] = [metric] and [appid] =
    the key, for every city name, delimiters and non-ASCII bytes
    included. *)
Theorem spec_url_roundtrip city app_id :
  query_safe (env_string app_id) ->
  api_params (spec_url city app_id) =
    [("q", city); ("units", "metric"); ("appid", env_string app_id)].
Proof.
  intros Hk. unfold spec_url.
  rewrite api_params_template
    by first [exact Hk | apply encode_strip | apply encode_no_delim; set_solver].
  by rewrite form_decode_encode.
Qed.

(** ** Witnesses *)

Lemma weather_url_roundtrip_witness :
  query_safe "New York" /\ query_safe (env_string None) /\
  api_params (weather_url "New York" None) =
    [("q", "New York"); ("units", "metric"); ("appid", "undefined")].
Proof.
  assert (H1 : query_safe "New York") by decide_closed.
  assert (H2 : query_safe (env_string None)) by decide_closed.
  split; [exact H1|]. split; [exact H2|].
  exact (weather_url_roundtrip "New York" None H1 H2).
Defined.

Lemma weather_url_injects_params_witness :
  query_safe "London" /\ query_safe "units" /\ query_safe "imperial" /\
  has_char "=" "units" = false /\ query_safe (env_string (Some "KEY")) /\
  api_params (weather_url ("London" ++ String "&" ("units" ++ String "=" "imperial")) (Some "KEY")) =
    [("q", "London"); ("units", "imperial"); ("units", "metric"); ("appid", "KEY")].
Proof.
  assert (H1 : query_safe "London") by decide_closed.
  assert (H2 : query_safe "units") by decide_closed.
  assert (H3 : query_safe "imperial") by decide_closed.
  assert (H4 : has_char "=" "units" = false) by reflexivity.
  assert (H5 : query_safe (env_string (Some "KEY"))) by decide_closed.
  split_and!; try assumption.
  exact (weather_url_injects_params "London" "units" "imperial" (Some "KEY") H1 H2 H3 H4 H5).
Defined.

Lemma weather_url_fragment_drops_key_witness :
  query_safe "Rio" /\
  api_params (weather_url ("Rio" ++ String "#" "x") (Some "KEY")) = [("q", "Rio")].
Proof.
  assert (H1 : query_safe "Rio") by decide_closed.
  split; [exact H1|]. exact (weather_url_fragment_drops_key "Rio" "x" (Some "KEY") H1).
Defined.

Lemma spec_url_roundtrip_witness :
  query_safe (env_string (Some "KEY")) /\
  api_params (spec_url "Bar & Grill #1+2%" (Some "KEY")) =
    [("q", "Bar & Grill #1+2%"); ("units", "metric"); ("appid", "KEY")].
Proof.
  assert (H1 : query_safe (env_string (Some "KEY"))) by decide_closed.
  split; [exact H1|]. exact (spec_url_roundtrip "Bar & Grill #1+2%" (Some "KEY") H1).
Defined.
