(* ===== verification/Async.v ===== *)
(** * Effects of an [async] React handler

    [search] of [src/src/components/Weather.jsx] is an [async] function:
    between its two [await]s ([await fetch(url)], [await response.json()])
    it runs synchronously, calls the React state setters, and may throw;
    a [try]/[catch] surrounds the whole body.  An [async U A] is the
    finite tree of such a computation:
    - [Ret]/[Raise]: the function returns or throws;
    - [Emit u k]: a call of a state setter ([setWeatherData(x)],
      [setError(x)]): React queues the update [u];
    - [AwaitFetch url k], [AwaitJson r k]: the function suspends on the
      promise of [fetch(url)] or of [r.json()], and resumes with its
      settlement, a value or a rejection.
    [bind], [try_catch], [await_fetch], [await_json] and [lift] are the
    statement forms the source uses.  The tree is inductive: the
    component's [search] awaits at most twice, so the effects are
    finite (unlike an interaction tree, no coinduction is needed).

    Two ways to run a tree are given: [run] answers every await with an
    [oracle] (one request run to the end), and [advance] runs the
    synchronous part up to the next await (the interleaving of
    [Controller]). *)

From S2P Require Import Prelude JsValue.



(** The [Response] of [fetch]: [response.ok] is a status in 200-299. *)
Record response : Type := { status : N }.

Definition resp_ok (r : response) : bool := (200 <=? status r)%N && (status r <=? 299)%N.

Inductive settled (A : Type) : Type :=
| Fulfilled (a : A)
| Rejected (e : exn).
Arguments Fulfilled {A} a.
Arguments Rejected {A} e.

Inductive async (U A : Type) : Type :=
| Ret (a : A)
| Raise (e : exn)
| Emit (u : U) (k : async U A)
| AwaitFetch (url : string) (k : settled response -> async U A)
| AwaitJson (r : response) (k : settled jsval -> async U A).
Arguments Ret {U A} a.
Arguments Raise {U A} e.
Arguments Emit {U A} u k.
Arguments AwaitFetch {U A} url k.
Arguments AwaitJson {U A} r k.

Section Combinators.
Context {U : Type}.

Fixpoint bind {A B} (m : async U A) (f : A -> async U B) : async U B :=
  match m with
  | Ret a => f a
  | Raise e => Raise e
  | Emit u k => Emit u (bind k f)
  | AwaitFetch url k => AwaitFetch url (fun s => bind (k s) f)
  | AwaitJson r k => AwaitJson r (fun s => bind (k s) f)
  end.

(** [try { m } catch (e) { h(e) }]: an exception raised by [m], also
    after a resumption, goes to [h]. *)
Fixpoint try_catch {A} (m : async U A) (h : exn -> async U A) : async U A :=
  match m with
  | Ret a => Ret a
  | Raise e => h e
  | Emit u k => Emit u (try_catch k h)
  | AwaitFetch url k => AwaitFetch url (fun s => try_catch (k s) h)
  | AwaitJson r k => AwaitJson r (fun s => try_catch (k s) h)
  end.

(** [await p]: a rejected promise throws its reason at the [await]. *)
Definition of_settled {A} (s : settled A) : async U A :=
  match s with
  | Fulfilled a => Ret a
  | Rejected e => Raise e
  end.

Definition await_fetch (url : string) : async U response :=
  AwaitFetch url of_settled.

Definition await_json (r : response) : async U jsval :=
  AwaitJson r of_settled.

(** A synchronous expression that may throw. *)
Definition lift {A} (r : res exn A) : async U A :=
  match r with
  | Ok a => Ret a
  | Err e => Raise e
  end.

Definition emit (u : U) : async U unit := Emit u (Ret tt).

End Combinators.

Declare Scope async_scope.
Delimit Scope async_scope with async.
Notation "x <- m ;; k" := (bind m (fun x => k))
  (at level 100, m at next level, right associativity) : async_scope.
Notation "m ;; k" := (bind m (fun _ => k))
  (at level 100, right associativity) : async_scope.

(** ** Running a tree *)

(** How the network answers. *)
Record oracle : Type := {
  on_fetch : string -> settled response;
  on_json : response -> settled jsval
}.

Section Run.
Context {U : Type}.

(** The updates a computation queues and how it ends, when every
    [await] is answered by [o]. *)
Fixpoint run {A} (o : oracle) (m : async U A) : list U * res exn A :=
  match m with
  | Ret a => ([], Ok a)
  | Raise e => ([], Err e)
  | Emit u k => let '(us, r) := run o k in (u :: us, r)
  | AwaitFetch url k => run o (k (on_fetch o url))
  | AwaitJson r k => run o (k (on_json o r))
  end.

(** The synchronous part up to the next [await] (or the end): the
    updates queued, and what remains. *)
Fixpoint advance {A} (m : async U A) : list U * async U A :=
  match m with
  | Emit u k => let '(us, m') := advance k in (u :: us, m')
  | _ => ([], m)
  end.

(** At most [n] [await]s on every path. *)
Inductive awaits_at_most {A} : nat -> async U A -> Prop :=
| aam_ret n a : awaits_at_most n (Ret a)
| aam_raise n e : awaits_at_most n (Raise e)
| aam_emit n u k : awaits_at_most n k -> awaits_at_most n (Emit u k)
| aam_fetch n url k :
    (forall s, awaits_at_most n (k s)) -> awaits_at_most (S n) (AwaitFetch url k)
| aam_json n r k :
    (forall s, awaits_at_most n (k s)) -> awaits_at_most (S n) (AwaitJson r k).

(** No exception escapes. *)
Inductive never_raises {A} : async U A -> Prop :=
| nr_ret a : never_raises (Ret a)
| nr_emit u k : never_raises k -> never_raises (Emit u k)
| nr_fetch url k : (forall s, never_raises (k s)) -> never_raises (AwaitFetch url k)
| nr_json r k : (forall s, never_raises (k s)) -> never_raises (AwaitJson r k).

End Run.

#[export] Hint Constructors awaits_at_most never_raises : wx.

(** ** Lemmas *)

Section Lemmas.
Context {U : Type}.

Lemma run_bind {A B} o (m : async U A) (f : A -> async U B) :
  run o (bind m f) =
    let '(us, r) := run o m in
    match r with
    | Ok a => let '(vs, r') := run o (f a) in (us ++ vs, r')
    | Err e => (us, Err e)
    end.
Proof.
  induction m as [a|e|u k IH|url k IH|rsp k IH]; simpl.
  - by destruct (run o (f a)).
  - done.
  - rewrite IH. destruct (run o k) as [us [a|e]]; simpl; [|done].
    by destruct (run o (f a)).
  - apply IH.
  - apply IH.
Qed.

Lemma run_try_catch {A} o (m : async U A) h :
  run o (try_catch m h) =
    let '(us, r) := run o m in
    match r with
    | Ok a => (us, Ok a)
    | Err e => let '(vs, r') := run o (h e) in (us ++ vs, r')
    end.
Proof.
  induction m as [a|e|u k IH|url k IH|rsp k IH]; simpl.
  - done.
  - by destruct (run o (h e)).
  - rewrite IH. destruct (run o k) as [us [a|e]]; simpl; [done|].
    by destruct (run o (h e)).
  - apply IH.
  - apply IH.
Qed.

Lemma run_lift {A} o (r : res exn A) : run (U:=U) o (lift r) = ([], r).
Proof. by destruct r. Qed.

Lemma run_of_settled {A} o (s : settled A) :
  run (U:=U) o (of_settled s) = ([], match s with Fulfilled a => Ok a | Rejected e => Err e end).
Proof. by destruct s. Qed.

Lemma awaits_at_most_mono {A} n n' (m : async U A) :
  awaits_at_most n m -> n <= n' -> awaits_at_most n' m.
Proof.
  intros Hm. revert n'. induction Hm; intros n' Hle; eauto with wx.
  - destruct n' as [|n']; [lia|]. constructor. intros s. apply H0. lia.
  - destruct n' as [|n']; [lia|]. constructor. intros s. apply H0. lia.
Qed.

Lemma awaits_at_most_bind {A B} n p (m : async U A) (f : A -> async U B) :
  awaits_at_most n m -> (forall a, awaits_at_most p (f a)) ->
  awaits_at_most (n + p) (bind m f).
Proof.
  intros Hm Hf. induction Hm; simpl; eauto with wx.
  - eapply awaits_at_most_mono; [apply Hf|lia].
Qed.

Lemma awaits_at_most_try_catch {A} n p (m : async U A) h :
  awaits_at_most n m -> (forall e, awaits_at_most p (h e)) ->
  awaits_at_most (n + p) (try_catch m h).
Proof.
  intros Hm Hh. induction Hm; simpl; eauto with wx.
  eapply awaits_at_most_mono; [apply Hh|lia].
Qed.

Lemma never_raises_try_catch {A} (m : async U A) h :
  (forall e, never_raises (h e)) -> never_raises (try_catch m h).
Proof.
  intros Hh. induction m; simpl; auto with wx.
Qed.

(** A computation that never raises ends in [Ok] whatever the network
    answers. *)
Lemma never_raises_run {A} o (m : async U A) :
  never_raises m -> exists us a, run o m = (us, Ok a).
Proof.
  induction 1 as [a|u k _ IH|url k _ IH|r k _ IH]; simpl; [eauto| |apply IH|apply IH].
  destruct IH as (us & a & ->). eauto.
Qed.

(** [advance] splits off a prefix of the queued updates without
    changing what [run] computes. *)
Lemma run_advance {A} o (m : async U A) :
  run o m = let '(us, m') := advance m in let '(vs, r) := run o m' in (us ++ vs, r).
Proof.
  induction m as [a|e|u k IH|url k IH|rsp k IH]; simpl; [done|done| | |].
  - rewrite IH. destruct (advance k) as [us m']. by destruct (run o m').
  - by destruct (run o (k (on_fetch o url))).
  - by destruct (run o (k (on_json o rsp))).
Qed.

Lemma advance_not_emit {A} (m : async U A) u k : (advance m).2 <> Emit u k.
Proof.
  induction m as [a|e|u' k' IH|url k' IH|rsp k' IH]; simpl; try done.
  destruct (advance k') as [us m']. apply IH.
Qed.

Lemma awaits_at_most_advance {A} n (m : async U A) :
  awaits_at_most n m -> awaits_at_most n (advance m).2.
Proof.
  induction 1 as [| |n u k _ IH| |]; simpl; auto with wx.
  by destruct (advance k).
Qed.

End Lemmas.
