(* ===== verification/Json.v ===== *)
(** * [response.json()]: the body text through [JSON.parse]

    Line 44 of [src/src/components/Weather.jsx] awaits
    [response.json()], which reads the body as UTF-8 text and parses it
    with [JSON.parse] (ECMA-262 25.5.1, the grammar of ECMA-404): the
    promise is fulfilled with the value or rejected with a [SyntaxError].
    [json_parse] models the parser over the body's bytes:
    - white space is space, tab, line feed and carriage return;
    - [true], [false], [null], numbers [-? int frac? exp?] with no leading
      zero, strings with the escapes of JSON (a backslash before a
      quote, a backslash, a slash, [b], [f], [n], [r], [t], or [u] and
      four hex digits, which becomes the UTF-8 bytes of the code unit, or
      of the code point of a surrogate pair) and no raw control character,
      arrays
      and objects; a duplicated key is kept in order, so that [own_prop]
      answers the last one as [JSON.parse] does;
    - anything after the value but white space is an error.
    A number is the exact rational its digits denote, in lowest terms; the
    rounding to a double is not modelled.  The recursion is bounded by a
    fuel of one more than the length of the text, which is enough since
    every nested call consumes a character ([json_parse_print]).
    [response_json] is the settlement of [response.json()];
    [print_json] writes a value as JSON text. *)

From S2P Require Import Prelude JsValue Url Async.
From Stdlib Require Import QArith Qround Decimal DecimalN DecimalString.

Local Open Scope string_scope.

(** ** Lexical pieces *)

Definition is_ws (c : ascii) : bool :=
  if ascii_dec c " " then true else if ascii_dec c "009" then true
  else if ascii_dec c "010" then true else if ascii_dec c "013" then true else false.

Fixpoint skip_ws (s : string) : string :=
  match s with
  | String c t => if is_ws c then skip_ws t else s
  | EmptyString => EmptyString
  end.

(** The decimal digit a character is, as a constructor of [uint]. *)
Definition digit (c : ascii) : option (uint -> uint) :=
  match c with
  | "0"%char => Some D0 | "1"%char => Some D1 | "2"%char => Some D2
  | "3"%char => Some D3 | "4"%char => Some D4 | "5"%char => Some D5
  | "6"%char => Some D6 | "7"%char => Some D7 | "8"%char => Some D8
  | "9"%char => Some D9 | _ => None
  end.

(** The longest run of digits at the head of [s], and the rest. *)
Fixpoint scan_digits (s : string) : uint * string :=
  match s with
  | String c t =>
      match digit c with
      | Some d => let '(u, r) := scan_digits t in (d u, r)
      | None => (Nil, s)
      end
  | EmptyString => (Nil, EmptyString)
  end.

Fixpoint uint_length (u : uint) : nat :=
  match u with
  | Nil => 0
  | D0 u | D1 u | D2 u | D3 u | D4 u | D5 u | D6 u | D7 u | D8 u | D9 u => S (uint_length u)
  end.

(** ** Numbers *)

(** An integer part: at least one digit, and no leading zero. *)
Definition int_part_ok (u : uint) : bool :=
  match u with
  | Nil => false
  | D0 Nil => true
  | D0 _ => false
  | _ => true
  end.

Definition dec_value (neg : bool) (ip fp : uint) (e : Z) : Q :=
  let m := Z.of_N (N.of_uint (Decimal.app ip fp)) in
  let m := if neg then Z.opp m else m in
  let scale := (e - Z.of_nat (uint_length fp))%Z in
  Qred (if Z.leb 0 scale then inject_Z (m * 10 ^ scale) else Qmake m (Z.to_pos (10 ^ (- scale)))).

Definition parse_exp (s : string) : option (Z * string) :=
  match s with
  | String c t =>
      if (Ascii.eqb c "e" || Ascii.eqb c "E")%bool then
        let '(neg, t') := match t with
                          | String "-" t' => (true, t')
                          | String "+" t' => (false, t')
                          | _ => (false, t)
                          end in
        let '(u, r) := scan_digits t' in
        match u with
        | Nil => None
        | _ => let e := Z.of_N (N.of_uint u) in Some (if neg then Z.opp e else e, r)
        end
      else Some (0%Z, s)
  | EmptyString => Some (0%Z, EmptyString)
  end.

Definition parse_number (s : string) : option (Q * string) :=
  let '(neg, s1) := match s with
                    | String "-" t => (true, t)
                    | _ => (false, s)
                    end in
  let '(ip, s2) := scan_digits s1 in
  if negb (int_part_ok ip) then None else
  match (match s2 with
         | String "." t =>
             let '(fp, r) := scan_digits t in
             match fp with Nil => None | _ => Some (fp, r) end
         | _ => Some (Nil, s2)
         end) with
  | None => None
  | Some (fp, s3) =>
      match parse_exp s3 with
      | Some (e, s4) => Some (dec_value neg ip fp e, s4)
      | None => None
      end
  end.

(** ** Strings *)

(** The UTF-8 bytes of a code point; a lone surrogate is encoded as if it
    were a code point (the string keeps it). *)
Definition utf8 (n : N) : string :=
  if (n <? 128)%N then String (ascii_of_N n) EmptyString
  else if (n <? 2048)%N then
    String (ascii_of_N (192 + n / 64)) (String (ascii_of_N (128 + n mod 64)) EmptyString)
  else if (n <? 65536)%N then
    String (ascii_of_N (224 + n / 4096))
      (String (ascii_of_N (128 + (n / 64) mod 64)) (String (ascii_of_N (128 + n mod 64)) EmptyString))
  else
    String (ascii_of_N (240 + n / 262144))
      (String (ascii_of_N (128 + (n / 4096) mod 64))
         (String (ascii_of_N (128 + (n / 64) mod 64)) (String (ascii_of_N (128 + n mod 64)) EmptyString))).

Definition hex4 (a b c d : ascii) : option N :=
  match hex_value a, hex_value b, hex_value c, hex_value d with
  | Some a, Some b, Some c, Some d => Some (N.of_nat (((a * 16 + b) * 16 + c) * 16 + d))
  | _, _, _, _ => None
  end.

(** The character a one-letter escape stands for. *)
Definition simple_escape (c : ascii) : option ascii :=
  match c with
  | "034"%char => Some "034"%char
  | "092"%char => Some "092"%char
  | "/"%char => Some "/"%char
  | "b"%char => Some "008"%char
  | "f"%char => Some "012"%char
  | "n"%char => Some "010"%char
  | "r"%char => Some "013"%char
  | "t"%char => Some "009"%char
  | _ => None
  end.

Definition prepend (p : string) (o : option (string * string)) : option (string * string) :=
  option_map (fun '(r, rest) => (p ++ r, rest)) o.

Definition high_surrogate (n : N) : bool := ((55296 <=? n) && (n <? 56320))%N.
Definition low_surrogate (n : N) : bool := ((56320 <=? n) && (n <? 57344))%N.

(** The contents of a string literal after its opening quote, and what
    follows the closing quote. *)
Fixpoint parse_string (s : string) : option (string * string) :=
  match s with
  | EmptyString => None
  | String c t =>
      if Ascii.eqb c "034" then Some (EmptyString, t)
      else if Ascii.eqb c "092" then
        match t with
        | String "u" (String a (String b (String c' (String d t')))) =>
            match hex4 a b c' d with
            | None => None
            | Some n =>
                if high_surrogate n then
                  match t' with
                  | String "092" (String "u" (String a2 (String b2 (String c2 (String d2 t''))))) =>
                      match hex4 a2 b2 c2 d2 with
                      | Some m =>
                          if low_surrogate m then
                            prepend (utf8 (65536 + (n - 55296) * 1024 + (m - 56320))) (parse_string t'')
                          else prepend (utf8 n) (parse_string t')
                      | None => None
                      end
                  | _ => prepend (utf8 n) (parse_string t')
                  end
                else prepend (utf8 n) (parse_string t')
            end
        | String e t' =>
            match simple_escape e with
            | Some e' => prepend (String e' EmptyString) (parse_string t')
            | None => None
            end
        | EmptyString => None
        end
      else if (nat_of_ascii c <? 32)%nat then None
      else prepend (String c EmptyString) (parse_string t)
  end.

(** ** Values *)

Fixpoint parse_value (fuel : nat) (s : string) : option (jsval * string) :=
  match fuel with
  | O => None
  | S f =>
      match skip_ws s with
      | String "{" t =>
          match skip_ws t with
          | String c r =>
              if Ascii.eqb c "}" then Some (JObj [], r)
              else option_map (fun '(ps, r) => (JObj ps, r)) (parse_members f t)
          | EmptyString => None
          end
      | String "[" t =>
          match skip_ws t with
          | String c r =>
              if Ascii.eqb c "]" then Some (JArr [], r)
              else option_map (fun '(xs, r) => (JArr xs, r)) (parse_elems f t)
          | EmptyString => None
          end
      | String "034" t => option_map (fun '(str, r) => (JStr str, r)) (parse_string t)
      | String "t" (String "r" (String "u" (String "e" r))) => Some (JBool true, r)
      | String "f" (String "a" (String "l" (String "s" (String "e" r)))) => Some (JBool false, r)
      | String "n" (String "u" (String "l" (String "l" r))) => Some (JNull, r)
      | s' => option_map (fun '(q, r) => (JNum (Fin q), r)) (parse_number s')
      end
  end
with parse_elems (fuel : nat) (s : string) : option (list jsval * string) :=
  match fuel with
  | O => None
  | S f =>
      match parse_value f s with
      | Some (v, r) =>
          match skip_ws r with
          | String "," r' => option_map (fun '(vs, r2) => (v :: vs, r2)) (parse_elems f r')
          | String "]" r' => Some ([v], r')
          | _ => None
          end
      | None => None
      end
  end
with parse_members (fuel : nat) (s : string) : option (list (string * jsval) * string) :=
  match fuel with
  | O => None
  | S f =>
      match skip_ws s with
      | String "034" t =>
          match parse_string t with
          | Some (k, r) =>
              match skip_ws r with
              | String ":" r' =>
                  match parse_value f r' with
                  | Some (v, r2) =>
                      match skip_ws r2 with
                      | String "," r3 =>
                          option_map (fun '(ps, r4) => ((k, v) :: ps, r4)) (parse_members f r3)
                      | String "}" r3 => Some ([(k, v)], r3)
                      | _ => None
                      end
                  | None => None
                  end
              | _ => None
              end
          | None => None
          end
      | _ => None
      end
  end.

(** [JSON.parse(text)]. *)
Definition json_parse (text : string) : res exn jsval :=
  match parse_value (S (String.length text)) text with
  | Some (v, r) =>
      if String.eqb (skip_ws r) "" then Ok v
      else Err (SyntaxError "Unexpected non-whitespace character after JSON")
  | None => Err (SyntaxError "Unexpected token in JSON")
  end.

(** The settlement of [await response.json()] for a body text. *)
Definition response_json (body : string) : settled jsval :=
  match json_parse body with
  | Ok v => Fulfilled v
  | Err e => Rejected e
  end.

(** ** Writing a value as JSON text *)

Definition hex2 (n : nat) : string :=
  String (hex_digit (n / 16)) (String (hex_digit (n mod 16)) EmptyString).

Definition escape_char (c : ascii) : string :=
  if Ascii.eqb c "034" then String "092" (String "034" EmptyString)
  else if Ascii.eqb c "092" then String "092" (String "092" EmptyString)
  else if (nat_of_ascii c <? 32)%nat then String "092" (String "u" ("00" ++ hex2 (nat_of_ascii c)))
  else String c EmptyString.

Fixpoint escape (s : string) : string :=
  match s with
  | EmptyString => EmptyString
  | String c t => escape_char c ++ escape t
  end.

Definition quote (s : string) : string := String "034" (escape s ++ String "034" EmptyString).

Definition print_N (n : N) : string := NilEmpty.string_of_uint (N.to_uint n).

(** A number whose denominator divides [10^k], [k] the bit size of the
    denominator (every double is one), as an integer mantissa and a
    negative exponent. *)
Definition dec_scale (q : Q) : nat := Pos.size_nat (Qden q).

Definition dec_mantissa (q : Q) : Z := (Qnum q * (10 ^ Z.of_nat (dec_scale q) / Zpos (Qden q)))%Z.

Definition print_num (q : Q) : string :=
  (if Z.ltb (dec_mantissa q) 0 then "-" else "") ++ print_N (Z.to_N (Z.abs (dec_mantissa q))) ++
  "e-" ++ print_N (N.of_nat (dec_scale q)).

Fixpoint print_json (v : jsval) : string :=
  match v with
  | JNull | JUndefined | JHost _ | JNum NaN | JNum (Infinity _) => "null"
  | JBool b => if b then "true" else "false"
  | JNum (Fin q) => print_num q
  | JStr s => quote s
  | JArr xs => "[" ++ String.concat "," (map print_json xs) ++ "]"
  | JObj ps =>
      "{" ++ String.concat "," (map (fun '(k, x) => quote k ++ ":" ++ print_json x) ps) ++ "}"
  end.

(** The values the printer writes back faithfully: no [undefined], no
    built-in, finite numbers in lowest terms whose denominator divides a
    power of ten. *)
Definition dec_q (q : Q) : bool :=
  (Z.eqb (Qnum (Qred q)) (Qnum q) && Pos.eqb (Qden (Qred q)) (Qden q) &&
   Z.eqb ((10 ^ Z.of_nat (dec_scale q)) mod Zpos (Qden q)) 0)%bool.

Fixpoint json_ok (v : jsval) : bool :=
  match v with
  | JNull | JBool _ | JStr _ => true
  | JNum (Fin q) => dec_q q
  | JNum _ | JUndefined | JHost _ => false
  | JArr xs => forallb json_ok xs
  | JObj ps => forallb (fun kv => json_ok kv.2) ps
  end.

(** A bound on the fuel the parser spends on a value. *)
Fixpoint jsize (v : jsval) : nat :=
  match v with
  | JArr xs => S (sum_list_with (fun x => S (jsize x)) xs)
  | JObj ps => S (sum_list_with (fun kv => S (jsize kv.2)) ps)
  | _ => 1%nat
  end.

(** ** Lemmas: digits and numbers *)

Definition digit_head (s : string) : bool :=
  match s with
  | String c _ => match digit c with Some _ => true | None => false end
  | EmptyString => false
  end.

Lemma skip_ws_String c t : is_ws c = false -> skip_ws (String c t) = String c t.
Proof. simpl. by intros ->. Qed.

Lemma scan_digits_print u r :
  digit_head r = false -> scan_digits (NilEmpty.string_of_uint u ++ r) = (u, r).
Proof.
  intros Hr. induction u; simpl; rewrite ?IHu; try done.
  destruct r as [|c r]; [done|]. simpl in *. by destruct (digit c).
Qed.

Lemma to_uint_unorm n : N.to_uint n = unorm (N.to_uint n).
Proof. by rewrite <-DecimalN.Unsigned.to_of, DecimalN.Unsigned.of_to. Qed.

(** [N.to_uint] writes at least one digit and no leading zero. *)
Lemma int_part_ok_to_uint n : int_part_ok (N.to_uint n) = true.
Proof.
  rewrite to_uint_unorm. unfold unorm.
  destruct (nzhead (N.to_uint n)) eqn:E; try done.
  by destruct (DecimalFacts.nzhead_nonzero (N.to_uint n) u).
Qed.

Lemma to_uint_not_nil n : N.to_uint n <> Nil.
Proof. pose proof (int_part_ok_to_uint n). by intros E; rewrite E in H. Qed.

Lemma print_N_digits n r :
  digit_head r = false -> scan_digits (print_N n ++ r) = (N.to_uint n, r).
Proof. apply scan_digits_print. Qed.

Lemma dec_scale_pos q : (1 <= dec_scale q)%nat.
Proof. unfold dec_scale. destruct (Qden q); simpl; lia. Qed.

(** The mantissa over [10^k] is the number. *)
Lemma dec_mantissa_value q :
  dec_q q = true ->
  Qred (Qmake (dec_mantissa q) (Z.to_pos (10 ^ Z.of_nat (dec_scale q)))) = q.
Proof.
  unfold dec_q, dec_mantissa. destruct q as [num den].
  intros H. apply andb_prop in H as [H H3]. apply andb_prop in H as [H1 H2].
  apply Z.eqb_eq in H1, H3. apply Pos.eqb_eq in H2. simpl in *. set (k := dec_scale _) in *.
  assert (Hp : (0 < 10 ^ Z.of_nat k)%Z) by (apply Z.pow_pos_nonneg; lia).
  assert (Hq : Qred (num # den) = num # den).
  { destruct (Qred (num # den)) eqn:E. simpl in *. by subst. }
  rewrite <-Hq. apply Qred_complete. unfold Qeq. simpl.
  rewrite Z2Pos.id by done.
  apply Z.div_exact in H3; [|lia]. rewrite H3 at 2. lia.
Qed.

Definition digit_chars : list ascii := ["0"; "1"; "2"; "3"; "4"; "5"; "6"; "7"; "8"; "9"]%char.

Lemma print_N_first a : exists c s, print_N a = String c s /\ c ∈ digit_chars.
Proof.
  unfold print_N. pose proof (to_uint_not_nil a).
  destruct (N.to_uint a); [done|..]; do 2 eexists; (split; [reflexivity|]); unfold digit_chars;
    repeat (apply list_elem_of_here || apply elem_of_cons; right).
Qed.

(** Split a membership in [digit_chars] into its ten cases. *)
Ltac digit_cases H :=
  unfold digit_chars in H;
  repeat (apply elem_of_cons in H as [->|H]; [|]); [..|by apply elem_of_nil in H].

Lemma sign_print_N a t :
  match print_N a ++ t with
  | String "-" t0 => (true, t0)
  | _ => (false, print_N a ++ t)
  end = (false, print_N a ++ t).
Proof.
  destruct (print_N_first a) as (c & s & E & Hc). rewrite E. digit_cases Hc; reflexivity.
Qed.

Lemma parse_number_exp (neg : bool) a k r :
  digit_head r = false -> (1 <= k)%nat ->
  parse_number ((if neg then "-" else "") ++ print_N a ++ "e-" ++ print_N (N.of_nat k) ++ r) =
    Some (Qred (Qmake (if neg then Z.opp (Z.of_N a) else Z.of_N a) (Z.to_pos (10 ^ Z.of_nat k))), r).
Proof.
  intros Hr Hk.
  assert (Hexp : parse_exp (String "e" (String "-" (print_N (N.of_nat k) ++ r))) =
                   Some (Z.opp (Z.of_nat k), r)).
  { unfold parse_exp. simpl. rewrite print_N_digits by done.
    destruct (N.to_uint (N.of_nat k)) eqn:E; [by destruct (to_uint_not_nil _ E)|..];
      rewrite <-E, DecimalN.Unsigned.of_to, nat_N_Z; done. }
  unfold parse_number. destruct neg; simpl; [|rewrite sign_print_N];
    rewrite (print_N_digits a (String "e" (String "-" (print_N (N.of_nat k) ++ r)))) by done;
    rewrite int_part_ok_to_uint; cbn -[parse_exp print_N]; rewrite Hexp;
    unfold dec_value; rewrite DecimalFacts.app_nil_r, DecimalN.Unsigned.of_to; simpl;
    rewrite Z.sub_0_r; (destruct (Z.leb_spec 0 (- Z.of_nat k)); [lia|]);
    by rewrite Z.opp_involutive.
Qed.

Lemma parse_number_print q r :
  dec_q q = true -> digit_head r = false -> parse_number (print_num q ++ r) = Some (q, r).
Proof.
  intros Hq Hr. unfold print_num. rewrite !string_app_assoc.
  assert (Hm : (if Z.ltb (dec_mantissa q) 0 then Z.opp (Z.of_N (Z.to_N (Z.abs (dec_mantissa q))))
                else Z.of_N (Z.to_N (Z.abs (dec_mantissa q)))) = dec_mantissa q).
  { rewrite Z2N.id by lia. destruct (Z.ltb_spec (dec_mantissa q) 0); lia. }
  pose proof (parse_number_exp (Z.ltb (dec_mantissa q) 0) (Z.to_N (Z.abs (dec_mantissa q)))
                (dec_scale q) r Hr (dec_scale_pos q)) as Hp.
  rewrite Hm, dec_mantissa_value in Hp by done.
  destruct (Z.ltb (dec_mantissa q) 0); exact Hp.
Qed.

(** ** Lemmas: strings *)

Lemma ascii_of_N_nat c : ascii_of_N (N.of_nat (nat_of_ascii c)) = c.
Proof. unfold nat_of_ascii. by rewrite N2Nat.id, ascii_N_embedding. Qed.

Lemma hex4_byte n :
  (n < 256)%nat -> hex4 "0" "0" (hex_digit (n / 16)) (hex_digit (n mod 16)) = Some (N.of_nat n).
Proof.
  intros Hn. unfold hex4.
  rewrite !hex_value_digit by (apply Nat.Div0.div_lt_upper_bound || apply Nat.mod_upper_bound; lia).
  change (hex_value "0") with (Some 0%nat). cbv beta iota. do 2 f_equal.
  pose proof (Nat.div_mod_eq n 16). lia.
Qed.

(** The escape [\u00XY] of a control character. *)
Lemma parse_string_u c t :
  (nat_of_ascii c < 32)%nat ->
  parse_string (String "092" (String "u" (String "0" (String "0"
    (String (hex_digit (nat_of_ascii c / 16)) (String (hex_digit (nat_of_ascii c mod 16)) t)))))) =
  prepend (utf8 (N.of_nat (nat_of_ascii c))) (parse_string t).
Proof.
  intros Hc. pose proof (nat_ascii_bounded c).
  set (h1 := hex_digit _). set (h2 := hex_digit _). simpl.
  subst h1 h2. rewrite hex4_byte by lia.
  replace (high_surrogate (N.of_nat (nat_of_ascii c))) with false; [done|].
  unfold high_surrogate. symmetry. apply andb_false_iff. left. apply N.leb_gt. lia.
Qed.

Lemma parse_string_escape s r : parse_string (escape s ++ String "034" r) = Some (s, r).
Proof.
  induction s as [|c s IH]; [reflexivity|].
  cbn [escape]. rewrite string_app_assoc. unfold escape_char.
  destruct (Ascii.eqb_spec c "034") as [->|H1]; [cbn; by rewrite IH|].
  destruct (Ascii.eqb_spec c "092") as [->|H2]; [cbn; by rewrite IH|].
  pose proof (nat_ascii_bounded c) as Hb.
  destruct (Nat.ltb_spec (nat_of_ascii c) 32) as [H3|H3].
  - unfold hex2. cbn [String.append]. rewrite parse_string_u by done.
    unfold prepend. rewrite IH. simpl. unfold utf8.
    replace (N.of_nat (nat_of_ascii c) <? 128)%N with true by (symmetry; apply N.ltb_lt; lia).
    by rewrite ascii_of_N_nat.
  - cbn [String.append parse_string].
    destruct (Ascii.eqb_spec c "034"); [done|]. destruct (Ascii.eqb_spec c "092"); [done|].
    replace (nat_of_ascii c <? 32)%nat with false by (symmetry; apply Nat.ltb_ge; lia).
    unfold prepend. by rewrite IH.
Qed.

(** ** Lemmas: values *)

(** Induction on values, through the elements of arrays and objects. *)
Section JsvalInd.
Variable P : jsval -> Prop.
Hypothesis HU : P JUndefined.
Hypothesis HN : P JNull.
Hypothesis HB : forall b, P (JBool b).
Hypothesis HNum : forall n, P (JNum n).
Hypothesis HS : forall s, P (JStr s).
Hypothesis HA : forall xs, Forall P xs -> P (JArr xs).
Hypothesis HO : forall ps, Forall (fun kv => P kv.2) ps -> P (JObj ps).
Hypothesis HH : forall r, P (JHost r).

Fixpoint jsval_ind' (v : jsval) : P v :=
  match v with
  | JUndefined => HU
  | JNull => HN
  | JBool b => HB b
  | JNum n => HNum n
  | JStr s => HS s
  | JArr xs =>
      HA xs ((fix go (xs : list jsval) : Forall P xs :=
                match xs with
                | [] => @List.Forall_nil _ P
                | x :: xs' => @List.Forall_cons _ P x xs' (jsval_ind' x) (go xs')
                end) xs)
  | JObj ps =>
      HO ps ((fix go (ps : list (string * jsval)) : Forall (fun kv => P kv.2) ps :=
                match ps with
                | [] => @List.Forall_nil _ (fun kv => P kv.2)
                | kv :: ps' => @List.Forall_cons _ (fun kv => P kv.2) kv ps' (jsval_ind' kv.2) (go ps')
                end) ps)
  | JHost r => HH r
  end.

End JsvalInd.

Lemma parse_value_number f t :
  (exists c s, t = String c s /\ c ∈ "-"%char :: digit_chars) ->
  parse_value (S f) t = option_map (fun '(q, r) => (JNum (Fin q), r)) (parse_number t).
Proof.
  intros (c & s & -> & Hc). apply elem_of_cons in Hc as [->|Hc]; [reflexivity|].
  digit_cases Hc; reflexivity.
Qed.

Lemma print_num_first q t : exists c s, print_num q ++ t = String c s /\ c ∈ "-"%char :: digit_chars.
Proof.
  unfold print_num. destruct (Z.ltb _ 0).
  - do 2 eexists. split; [reflexivity|]. apply list_elem_of_here.
  - destruct (print_N_first (Z.to_N (Z.abs (dec_mantissa q)))) as (c & s & E & Hc).
    simpl. rewrite E. do 2 eexists. split; [reflexivity|]. by apply elem_of_cons; right.
Qed.

(** A printed value starts with a character that is no white space and
    closes no container. *)
Lemma print_json_first v t :
  json_ok v = true ->
  exists c s, print_json v ++ t = String c s /\
    is_ws c = false /\ Ascii.eqb c "]" = false /\ Ascii.eqb c "}" = false.
Proof.
  intros Hv. destruct v as [| |[]|[| |q]|s|xs|ps|r]; try discriminate;
    try (do 2 eexists; split_and!; reflexivity).
  destruct (print_num_first q t) as (c & s & E & Hc). simpl. rewrite E.
  do 2 eexists. split; [reflexivity|].
  apply elem_of_cons in Hc as [->|Hc]; [done|]. digit_cases Hc; done.
Qed.

(** What is shown of each value by induction. *)
Definition parses_back (v : jsval) : Prop :=
  json_ok v = true ->
  forall f r, (jsize v <= f)%nat -> digit_head r = false ->
  parse_value f (print_json v ++ r) = Some (v, r).

Lemma parse_elems_print xs f r :
  xs <> [] -> Forall parses_back xs -> forallb json_ok xs = true ->
  (sum_list_with (fun x => S (jsize x)) xs <= f)%nat ->
  parse_elems f (String.concat "," (map print_json xs) ++ String "]" r) = Some (xs, r).
Proof.
  revert f. induction xs as [|x xs IH]; intros f Hne Hall Hok Hf; [done|].
  apply Forall_cons in Hall as [Hx Hall]. apply andb_prop in Hok as [Hxo Hok].
  simpl in Hf. destruct f as [|f]; [lia|]. cbn [parse_elems].
  destruct xs as [|y ys].
  - cbn [map String.concat]. rewrite Hx by (done || lia). reflexivity.
  - change (String.concat "," (map print_json (x :: y :: ys)))
      with (print_json x ++ "," ++ String.concat "," (map print_json (y :: ys))).
    rewrite string_app_assoc, Hx by (done || lia). simpl skip_ws. cbv iota.
    rewrite IH by (done || lia). reflexivity.
Qed.

Lemma parse_members_print ps f r :
  ps <> [] -> Forall (fun kv => parses_back kv.2) ps -> forallb (fun kv => json_ok kv.2) ps = true ->
  (sum_list_with (fun kv => S (jsize kv.2)) ps <= f)%nat ->
  parse_members f (String.concat "," (map (fun '(k, x) => quote k ++ ":" ++ print_json x) ps) ++
                   String "}" r) = Some (ps, r).
Proof.
  revert f. induction ps as [|[k x] ps IH]; intros f Hne Hall Hok Hf; [done|].
  apply Forall_cons in Hall as [Hx Hall]. apply andb_prop in Hok as [Hxo Hok].
  simpl in Hf, Hx, Hxo. destruct f as [|f]; [lia|]. cbn [parse_members].
  destruct ps as [|[k' y] ps'].
  - cbn [map String.concat]. unfold quote. rewrite !string_app_assoc. simpl.
    rewrite !string_app_assoc. simpl. rewrite parse_string_escape. simpl. rewrite Hx by (done || lia). reflexivity.
  - change (String.concat "," (map (fun '(k, x) => quote k ++ ":" ++ print_json x) ((k, x) :: (k', y) :: ps')))
      with ((quote k ++ ":" ++ print_json x) ++ "," ++
            String.concat "," (map (fun '(k, x) => quote k ++ ":" ++ print_json x) ((k', y) :: ps'))).
    set (rest := String.concat "," (map _ ((k', y) :: ps'))).
    unfold quote at 1. rewrite !string_app_assoc. simpl.
    rewrite !string_app_assoc. simpl. rewrite parse_string_escape. simpl.
    rewrite Hx by (done || lia). simpl skip_ws. cbv iota.
    subst rest. rewrite IH by (done || lia). reflexivity.
Qed.

Lemma parse_value_open_bracket f t :
  parse_value (S f) (String "[" t) =
    match skip_ws t with
    | String c r =>
        if Ascii.eqb c "]" then Some (JArr [], r)
        else option_map (fun '(xs, r) => (JArr xs, r)) (parse_elems f t)
    | EmptyString => None
    end.
Proof. reflexivity. Qed.

Lemma parse_value_open_brace f t :
  parse_value (S f) (String "{" t) =
    match skip_ws t with
    | String c r =>
        if Ascii.eqb c "}" then Some (JObj [], r)
        else option_map (fun '(ps, r) => (JObj ps, r)) (parse_members f t)
    | EmptyString => None
    end.
Proof. reflexivity. Qed.

Lemma concat_cons_app {A} (p : A -> string) x xs t :
  exists t', String.concat "," (map p (x :: xs)) ++ t = p x ++ t'.
Proof. destruct xs; simpl; [by eexists|]. rewrite string_app_assoc. by eexists. Qed.

(** A non-empty container: its first entry decides the branch. *)
Lemma skip_first_entry {A} (p : A -> string) x xs t c :
  (forall t', exists c' s, p x ++ t' = String c' s /\ is_ws c' = false /\ Ascii.eqb c' c = false) ->
  exists c' s, String.concat "," (map p (x :: xs)) ++ t = String c' s /\
               skip_ws (String c' s) = String c' s /\ Ascii.eqb c' c = false.
Proof.
  intros Hp. destruct (concat_cons_app p x xs t) as [t' ->].
  destruct (Hp t') as (c' & s & E & Hws & Hc). rewrite E.
  exists c', s. split_and!; [done|by apply skip_ws_String|done].
Qed.

Lemma print_json_parses v : parses_back v.
Proof.
  induction v as [| |b|n|s|xs IH|ps IH|h] using jsval_ind'; intros Hok f r Hf Hr;
    try discriminate; (destruct f as [|f]; [simpl in Hf; lia|]).
  - reflexivity.
  - by destruct b.
  - destruct n as [| |q]; try discriminate. simpl in Hok. cbn [print_json].
    rewrite parse_value_number by apply print_num_first.
    by rewrite parse_number_print.
  - cbn [print_json]. unfold quote. simpl. rewrite !string_app_assoc. simpl.
    by rewrite parse_string_escape.
  - simpl in Hf. cbn [print_json json_ok] in *. rewrite !string_app_assoc.
    change ("[" ++ ?T) with (String "[" T). rewrite parse_value_open_bracket.
    destruct xs as [|x xs']; [reflexivity|].
    destruct (skip_first_entry print_json x xs' ("]" ++ r) "]") as (c & s & E & Hws & Hb).
    { intros t'. apply andb_prop in Hok as [Hx _].
      destruct (print_json_first x t' Hx) as (c & s & ? & ? & ? & _). eauto. }
    rewrite E, Hws, Hb, <-E. change ("]" ++ r) with (String "]" r).
    rewrite parse_elems_print by (done || lia). reflexivity.
  - simpl in Hf. cbn [print_json json_ok] in *. rewrite !string_app_assoc.
    change ("{" ++ ?T) with (String "{" T). rewrite parse_value_open_brace.
    destruct ps as [|[k x] ps']; [reflexivity|].
    destruct (skip_first_entry (fun '(k, x) => quote k ++ ":" ++ print_json x) (k, x) ps'
                ("}" ++ r) "}") as (c & s & E & Hws & Hb).
    { intros t'. by do 2 eexists. }
    rewrite E, Hws, Hb, <-E. change ("}" ++ r) with (String "}" r).
    rewrite parse_members_print by (done || lia). reflexivity.
Qed.

(** ** The fuel of [json_parse] is enough *)

Lemma sum_le_concat {A} (sz : A -> nat) (p : A -> string) xs :
  Forall (fun x => sz x <= String.length (p x))%nat xs ->
  (sum_list_with (fun x => S (sz x)) xs <= String.length (String.concat "," (map p xs)) + 1)%nat.
Proof.
  induction xs as [|x xs IH]; intros Hall; simpl; [lia|].
  apply Forall_cons in Hall as [Hx Hall]. specialize (IH Hall).
  destruct xs as [|y ys]; simpl in *; rewrite ?string_app_length; simpl; lia.
Qed.

Lemma jsize_print v : (jsize v <= String.length (print_json v))%nat.
Proof.
  induction v as [| |[]|[| |q]|s|xs IH|ps IH|h] using jsval_ind'; cbn [jsize print_json];
    rewrite ?string_app_length; cbn [String.length]; try lia.
  - unfold print_num. rewrite !string_app_length. simpl. lia.
  - unfold quote. simpl. lia.
  - pose proof (sum_le_concat jsize print_json xs IH). lia.
  - assert (Hps : Forall (fun kv => jsize kv.2 <=
                    String.length ((fun '(k, x) => quote k ++ ":" ++ print_json x) kv))%nat ps).
    { eapply Forall_impl; [exact IH|]. intros [k x] Hx. simpl in *.
      rewrite !string_app_length. simpl. lia. }
    pose proof (sum_le_concat (fun kv => jsize kv.2) _ ps Hps). lia.
Qed.

(** [JSON.parse] reads back what [print_json] writes. *)
Lemma json_parse_print v : json_ok v = true -> json_parse (print_json v) = Ok v.
Proof.
  intros Hv. unfold json_parse.
  pose proof (print_json_parses v Hv (S (String.length (print_json v))) ""
                ltac:(pose proof (jsize_print v); lia) eq_refl) as Hp.
  rewrite string_app_nil_r in Hp. by rewrite Hp.
Qed.

(** [await response.json()] fulfils with the value the server
    printed: every value made of [null], booleans, strings (any bytes,
    control characters, quotes and backslashes included), finite numbers
    with a decimal expansion (every double has one), arrays and objects,
    written as JSON text by [print_json], is parsed back to itself by
    [JSON.parse], with the fuel [json_parse] gives. *)
Theorem response_json_print v : json_ok v = true -> response_json (print_json v) = Fulfilled v.
Proof. intros Hv. unfold response_json. by rewrite json_parse_print. Qed.

(** ** Witness *)

Definition sample_body : jsval :=
  JObj [("weather", JArr [JObj [("icon", JStr "01d")]]);
        ("main", JObj [("humidity", JNum (Fin 60)); ("temp", JNum (Fin (157 # 10)))]);
        ("name", JStr (String "034" "S\o Paulo"))].

Lemma response_json_print_witness :
  json_ok sample_body = true /\ response_json (print_json sample_body) = Fulfilled sample_body.
Proof.
  assert (H : json_ok sample_body = true) by reflexivity.
  split; [exact H|]. exact (response_json_print _ H).
Defined.
