(* ===== verification/JsonSound.v ===== *)
(** * What [JSON.parse] returns

    The converse of [Json.json_parse_print]: every value [JSON.parse]
    returns is in the domain of the printer ([json_ok]): finite numbers
    in lowest terms whose denominator divides a power of ten, strings,
    literals, arrays and objects of such values.  Together with the
    round trip this characterises the values a body can deliver
    ([json_parse_image]) and shows that printing a parsed value and
    parsing it again gives it back.  The number theory is the fact that
    a divisor [d] of some [10^k] divides [10^(bit size of d)]. *)

From S2P Require Import Prelude JsValue Url Async Json.
From Stdlib Require Import QArith Qround Decimal DecimalN DecimalString Znumtheory Wf_nat.

Local Open Scope string_scope.

(** The values [await response.json()] fulfils with, for some body text. *)
Definition text_body (data : jsval) : Prop := exists body, response_json body = Fulfilled data.

(** ** Divisors of powers of ten *)

Lemma pow10_divide a b : (0 <= a <= b)%Z -> (10 ^ a | 10 ^ b)%Z.
Proof.
  intros Hab. exists (10 ^ (b - a))%Z. rewrite <-Z.pow_add_r by lia. f_equal. lia.
Qed.

Lemma coprime_10 d : ~ (2 | d)%Z -> ~ (5 | d)%Z -> Z.coprime d 10.
Proof.
  intros H2 H5. apply Z.coprime_mod_l_iff.
  pose proof (Z.mod_pos_bound d 10 ltac:(lia)) as Hb. pose proof (Z.div_mod d 10 ltac:(lia)) as Hq.
  remember (d mod 10)%Z as r eqn:Hr.
  assert (Hd : (r = 0 \/ r = 1 \/ r = 2 \/ r = 3 \/ r = 4 \/ r = 5 \/ r = 6 \/ r = 7 \/ r = 8 \/ r = 9)%Z) by lia.
  destruct Hd as [->|[->|[->|[->|[->|[->|[->|[->|[->| ->]]]]]]]]]; try reflexivity; exfalso;
    [apply H2|apply H2|apply H2|apply H5|apply H2|apply H2]; rewrite Hq;
    apply Z.divide_add_r; (apply Z.divide_mul_l + idtac); apply Z.mod_divide; done.
Qed.

Lemma size_nat_xO p : Pos.size_nat (xO p) = S (Pos.size_nat p).
Proof. reflexivity. Qed.

Lemma size_nat_lt p q : (2 * Zpos p <= Zpos q)%Z -> (Pos.size_nat p < Pos.size_nat q)%nat.
Proof.
  intros Hpq.
  assert (Hle : (Pos.size_nat (xO p) <= Pos.size_nat q)%nat).
  { destruct (Z.eq_dec (2 * Zpos p) (Zpos q)) as [E|E].
    - assert (xO p = q) as <- by lia. lia.
    - apply Pos.size_nat_monotone. lia. }
  rewrite size_nat_xO in Hle. lia.
Qed.

(** A divisor of a power of ten divides ten to the number of its bits. *)
Lemma divide_pow10_size (d : positive) (k : Z) :
  (0 <= k)%Z -> (Zpos d | 10 ^ k)%Z -> (Zpos d | 10 ^ Z.of_nat (Pos.size_nat d))%Z.
Proof.
  intros Hk. induction d as [d IH] using (well_founded_induction (well_founded_ltof _ Pos.to_nat)). intros Hd.
  destruct (Z.eq_dec (Zpos d mod 2) 0) as [E2|E2]; [|destruct (Z.eq_dec (Zpos d mod 5) 0) as [E5|E5]].
  - (* d = 2 e *)
    destruct d as [e|e|]; [exfalso| |by apply Z.divide_1_l].
    { rewrite Pos2Z.inj_xI, Z.add_comm, Z.mul_comm, Z_mod_plus_full in E2. discriminate. }
    assert (He : (Zpos e | 10 ^ Z.of_nat (Pos.size_nat e))%Z).
    { apply IH; [red; lia|]. eapply Z.divide_trans; [|exact Hd]. exists 2%Z. lia. }
    destruct He as [c Hc]. rewrite size_nat_xO, Nat2Z.inj_succ, Z.pow_succ_r by lia.
    exists (5 * c)%Z. rewrite Hc. lia.
  - (* d = 5 e *)
    pose proof (Z_div_exact_full_2 (Zpos d) 5 ltac:(lia) E5) as Hde.
    remember (Zpos d / 5)%Z as e eqn:Heq. destruct e as [|e|e]; [lia| |lia].
    assert (He : (Zpos e | 10 ^ Z.of_nat (Pos.size_nat e))%Z).
    { apply IH; [red; lia|]. eapply Z.divide_trans; [|exact Hd]. exists 5%Z. lia. }
    assert (Hs : (Pos.size_nat e < Pos.size_nat d)%nat) by (apply size_nat_lt; lia).
    eapply Z.divide_trans; [|apply (pow10_divide (Z.of_nat (S (Pos.size_nat e)))); lia].
    destruct He as [c Hc]. rewrite Nat2Z.inj_succ, Z.pow_succ_r by lia.
    exists (2 * c)%Z. rewrite Hc, Hde. lia.
  - (* coprime to 10: d = 1 *)
    assert (Hc : Z.coprime (Zpos d) (10 ^ k)) by (apply Z.coprime_pow_r; [lia|apply coprime_10; rewrite <-Z.mod_divide by lia; done]).
    assert (H1 : (Zpos d | 1)%Z).
    { unfold Z.coprime in Hc. rewrite <-Hc. apply Z.gcd_greatest; [reflexivity|exact Hd]. }
    apply Z.divide_1_r_nonneg in H1; [|lia]. rewrite H1. apply Z.divide_1_l.
Qed.

(** ** Parsed numbers are printable *)

Lemma Qred_idem q : Qred (Qred q) = Qred q.
Proof. apply Qred_complete, Qred_correct. Qed.

Lemma Qred_den_divide m p : (Zpos (Qden (Qred (m # p))) | Zpos p)%Z.
Proof.
  unfold Qred. pose proof (Z.ggcd_correct_divisors m (Zpos p)) as Hg.
  pose proof (Z.ggcd_gcd m (Zpos p)) as Hgcd.
  destruct (Z.ggcd m (Zpos p)) as [g [aa bb]]. simpl in *. destruct Hg as [_ Hp].
  assert (0 <= g)%Z by (subst g; apply Z.gcd_nonneg).
  assert (0 < bb)%Z by nia. rewrite Z2Pos.id by done. exists g. lia.
Qed.

(** A number in lowest terms whose denominator divides a power of ten
    satisfies [dec_q]. *)
Lemma dec_q_Qred q k : (0 <= k)%Z -> (Zpos (Qden (Qred q)) | 10 ^ k)%Z -> dec_q (Qred q) = true.
Proof.
  intros Hk Hd. unfold dec_q. rewrite Qred_idem, Z.eqb_refl, Pos.eqb_refl. simpl.
  apply Z.eqb_eq, Z.mod_divide; [lia|]. exact (divide_pow10_size _ k Hk Hd).
Qed.

Lemma dec_value_ok neg ip fp e : dec_q (dec_value neg ip fp e) = true.
Proof.
  unfold dec_value. set (m := if neg then _ else _). set (scale := (e - _)%Z).
  destruct (Z.leb_spec 0 scale) as [Hs|Hs].
  - apply (dec_q_Qred _ 0); [lia|]. exact (Qred_den_divide _ 1).
  - apply (dec_q_Qred _ (- scale)); [lia|].
    eapply Z.divide_trans; [apply Qred_den_divide|]. rewrite Z2Pos.id; [reflexivity|].
    apply Z.pow_pos_nonneg; lia.
Qed.

(** Case analysis on what a parser returned: split every match and
    [option_map] the hypothesis [H] depends on, dropping failures. *)
Ltac inv_parse H :=
  repeat (cbv beta iota delta [option_map] in H;
          match type of H with
          | context [match ?x with _ => _ end] => destruct x eqn:?
          end; try discriminate H).

Lemma parse_number_dec s q r : parse_number s = Some (q, r) -> dec_q q = true.
Proof.
  unfold parse_number. intros H. inv_parse H. injection H as <- <-. apply dec_value_ok.
Qed.

(** ** Parsed values are printable *)

Lemma parse_sound f :
  (forall s v r, parse_value f s = Some (v, r) -> json_ok v = true) /\
  (forall s vs r, parse_elems f s = Some (vs, r) -> forallb json_ok vs = true) /\
  (forall s ps r, parse_members f s = Some (ps, r) -> forallb (fun kv => json_ok kv.2) ps = true).
Proof.
  induction f as [|f (IHv & IHe & IHm)]; [split_and!; discriminate|].
  split_and!.
  - intros s v r H. cbn [parse_value] in H. inv_parse H.
    all: injection H as <- <-; simpl; eauto using parse_number_dec.
  - intros s vs r H. cbn [parse_elems] in H. inv_parse H.
    all: injection H as <- <-; simpl; rewrite ?andb_true_r, ?andb_true_iff; eauto.
  - intros s ps r H. cbn [parse_members] in H. inv_parse H.
    all: injection H as <- <-; simpl; rewrite ?andb_true_r, ?andb_true_iff; eauto.
Qed.

Lemma json_parse_ok text v : json_parse text = Ok v -> json_ok v = true.
Proof.
  unfold json_parse. destruct (parse_value _ text) as [[v' r]|] eqn:E; [|discriminate].
  destruct (String.eqb _ _); [|discriminate]. intros [= <-].
  exact (proj1 (parse_sound _) _ _ _ E).
Qed.

Lemma response_json_ok body v : response_json body = Fulfilled v -> json_ok v = true.
Proof.
  unfold response_json. destruct (json_parse body) as [v'|] eqn:E; [|discriminate].
  intros [= <-]. exact (json_parse_ok _ _ E).
Qed.

(** Printing what [JSON.parse] returned and parsing it again gives it back. *)
Lemma response_json_reprint text v :
  response_json text = Fulfilled v -> response_json (print_json v) = Fulfilled v.
Proof.
  intros Hv. unfold response_json. by rewrite (json_parse_print _ (response_json_ok _ _ Hv)).
Qed.

(** The values a response body can deliver through
    [await response.json()] are exactly the printable JSON values: a value
    is the result of [JSON.parse] on some text if and only if it is made
    of [null], booleans, strings, arrays, objects and finite numbers in
    lowest terms whose denominator divides a power of ten; never
    [undefined], a built-in, [NaN] or an infinity. *)
Theorem response_json_image v : text_body v <-> json_ok v = true.
Proof.
  split.
  - intros [body Hb]. exact (response_json_ok _ _ Hb).
  - intros Hv. exists (print_json v). unfold response_json. by rewrite json_parse_print.
Qed.
