(* ===== verification/Weather.v ===== *)
(** * The [Weather] component

    Models [src/src/components/Weather.jsx]:
    - the two React states [weatherData] ([useState(null)], line 15) and
      [error] ([useState("")], line 16) as [ui_state], and the calls of
      their setters as the updates [wupdate] that React applies
      ([apply_update]);
    - [weather_of_json]: the object built at lines 47-55 from the parsed
      response, every property read of which may throw;
    - [search] (lines 35-62), an [async] tree of [Async]: the early
      [return] on a falsy city, [await fetch(url)], the [throw] on
      [!response.ok], [await response.json()], the two setters on success,
      and the [catch] block with its two setters;
    - [clearSearch_updates] (lines 72-73), the two setters of [clearSearch];
      the DOM write of line 71 is part of the [Controller] world;
    - [render] (lines 103-144): the error paragraph, the result block and
      the prompt, with the text React produces for each child
      ([child_text]; [renderable] says the children do not throw).
    The [console.log]/[console.error] calls only write to the console and
    are not modelled. *)

From S2P Require Import Prelude JsValue Icons Url Async.
From Stdlib Require Import QArith Qround.

Local Open Scope string_scope.

(** The object passed to [setWeatherData] at lines 49-55. *)
Record weather_data : Type := {
  humidity : jsval;
  windSpeed : jsval;
  temperature : jsnum;
  location : jsval;
  icon : jsval
}.

(** The values [weatherData] holds: [null] (initial, cleared), [false]
    (after an error), or the object above. *)
Inductive wdata : Type :=
| WNull
| WFalse
| WData (d : weather_data).

Inductive wupdate : Type :=
| SetWeatherData (w : wdata)
| SetError (msg : string).

Record ui_state : Type := {
  weatherData : wdata;
  error : string
}.

Definition initial_state : ui_state := {| weatherData := WNull; error := "" |}.

Definition apply_update (st : ui_state) (u : wupdate) : ui_state :=
  match u with
  | SetWeatherData w => {| weatherData := w; error := error st |}
  | SetError m => {| weatherData := weatherData st; error := m |}
  end.

(** React applies the queued updates of one batch in call order. *)
Definition apply_updates (st : ui_state) (us : list wupdate) : ui_state :=
  fold_left apply_update us st.

Definition city_not_found : string := "City not found".

(** The updates of the success path (lines 49-56) and of the [catch]
    block (lines 58-59). *)
Definition success_updates (d : weather_data) : list wupdate :=
  [SetWeatherData (WData d); SetError ""].

Definition failure_updates : list wupdate :=
  [SetWeatherData WFalse; SetError city_not_found].

(** [clearSearch], lines 72-73. *)
Definition clearSearch_updates : list wupdate :=
  [SetWeatherData WNull; SetError ""].

Section Component.
Context `{JsEngine}.
(** The value of [import.meta.env.VITE_APP_ID] fixed by the build. *)
Context (app_id : option string).

(** Lines 47-55, in evaluation order: [data.weather[0].icon], the icon
    lookup, then the fields of the object literal. *)
Definition weather_of_json (data : jsval) : res exn weather_data :=
  (w <-? get_prop data "weather" ;;
   w0 <-? get_prop w "0" ;;
   code <-? get_prop w0 "icon" ;;
   ic <-? icon_for code ;;
   main <-? get_prop data "main" ;;
   hum <-? get_prop main "humidity" ;;
   wind <-? get_prop data "wind" ;;
   speed <-? get_prop wind "speed" ;;
   main' <-? get_prop data "main" ;;
   temp <-? get_prop main' "temp" ;;
   t <-? js_math_floor temp ;;
   name <-? get_prop data "name" ;;
   Ok {| humidity := hum; windSpeed := speed; temperature := t;
         location := name; icon := ic |})%wx.

(** The [catch] block, lines 57-61. *)
Definition search_catch (_ : exn) : async wupdate unit :=
  (emit (SetWeatherData WFalse) ;; emit (SetError city_not_found))%async.

(** Lines 45-56, after [await response.json()]. *)
Definition after_json (data : jsval) : async wupdate unit :=
  (d <- lift (weather_of_json data) ;;
   emit (SetWeatherData (WData d)) ;;
   emit (SetError ""))%async.

(** Lines 41-44, after [await fetch(url)]. *)
Definition after_fetch (response : response) : async wupdate unit :=
  if negb (resp_ok response) then Raise (Error city_not_found)
  else (data <- await_json response ;; after_json data)%async.

(** [search(city)], lines 35-62. *)
Definition search (city : string) : async wupdate unit :=
  try_catch
    (if negb (truthy (JStr city)) then Ret tt
     else (response <- await_fetch (weather_url city app_id) ;; after_fetch response)%async)
    search_catch.

(** [search] resumed at [await fetch(url)] (line 40) and at
    [await response.json()] (line 44) with the promise's settlement,
    inside its [try]. *)
Definition fetch_stage (s : settled response) : async wupdate unit :=
  try_catch (bind (of_settled s) after_fetch) search_catch.

Definition json_stage (s : settled jsval) : async wupdate unit :=
  try_catch (bind (of_settled s) after_json) search_catch.

(** ** Rendering *)

(** The text React renders for a child expression: nothing for
    [undefined], [null] and booleans, the string of a number, the
    elements of an array in turn; a plain object is not a valid child
    and throws.  Functions render nothing. *)
Fixpoint child_text (v : jsval) : res exn string :=
  match v with
  | JUndefined | JNull | JBool _ => Ok ""
  | JNum n => Ok (number_to_string n)
  | JStr s => Ok s
  | JArr xs =>
      (fix go (xs : list jsval) : res exn string :=
         match xs with
         | [] => Ok ""
         | x :: xs' => (a <-? child_text x ;; b <-? go xs' ;; Ok (a ++ b))%wx
         end) xs
  | JObj _ => Err (Error "Objects are not valid as a React child")
  | JHost _ => Ok ""
  end.

End Component.

Definition wd_truthy (w : wdata) : bool :=
  match w with
  | WData _ => true
  | WNull | WFalse => false
  end.

(** The conditions of lines 103, 105 and 143. *)
Definition shows_error (st : ui_state) : bool := negb (String.eqb (error st) "").
Definition shows_result (st : ui_state) : bool := wd_truthy (weatherData st).
Definition shows_prompt (st : ui_state) : bool :=
  negb (shows_result st) && negb (shows_error st).

Inductive element : Type :=
| ErrorText (msg : string)
| WeatherIcon (src : jsval)
| TemperatureText (text : string)
| LocationText (text : string)
| HumidityText (text : string)
| WindSpeedText (text : string)
| PromptText (text : string).

Definition prompt_text : string := "Enter a city to get weather info".

Section Render.
Context `{JsEngine}.

(** The dynamic part of the JSX of lines 103-144. *)
Definition render (st : ui_state) : res exn (list element) :=
  let err := if shows_error st then [ErrorText (error st)] else [] in
  match weatherData st with
  | WData d =>
      (t <-? child_text (JNum (temperature d)) ;;
       l <-? child_text (location d) ;;
       h <-? child_text (humidity d) ;;
       w <-? child_text (windSpeed d) ;;
       Ok (err ++ [WeatherIcon (icon d); TemperatureText (t ++ "°c");
                   LocationText l; HumidityText (h ++ " %");
                   WindSpeedText (w ++ " Km/h")])%list)%wx
  | WNull | WFalse =>
      Ok (err ++ if shows_error st then [] else [PromptText prompt_text])%list
  end.

End Render.

(** ** Lemmas *)

Lemma truthy_JStr s : truthy (JStr s) = negb (String.eqb s "").
Proof. reflexivity. Qed.

Lemma apply_updates_app st us vs :
  apply_updates st (us ++ vs) = apply_updates (apply_updates st us) vs.
Proof. apply fold_left_app. Qed.

Lemma apply_updates_success st d :
  apply_updates st (success_updates d) = {| weatherData := WData d; error := "" |}.
Proof. reflexivity. Qed.

Lemma apply_updates_failure st :
  apply_updates st failure_updates = {| weatherData := WFalse; error := city_not_found |}.
Proof. reflexivity. Qed.

Lemma apply_updates_clear st : apply_updates st clearSearch_updates = initial_state.
Proof. reflexivity. Qed.

#[export] Hint Rewrite apply_updates_success apply_updates_failure apply_updates_clear
  apply_updates_app : wx_rw.

(** The three states the specification names: idle, success, failure. *)
Definition ui_inv (st : ui_state) : Prop :=
  st = initial_state \/
  (exists d, st = {| weatherData := WData d; error := "" |}) \/
  st = {| weatherData := WFalse; error := city_not_found |}.

Lemma ui_inv_exactly_one st :
  ui_inv st -> exactly_one (shows_error st) (shows_result st) (shows_prompt st) = true.
Proof. by intros [->|[[d ->]| ->]]. Qed.

Section SearchTheorems.
Context `{JsEngine} (app_id : option string).

(** [search] written in direct style: the updates it queues when the
    network answers as [o]. *)
Definition search_spec (o : oracle) (city : string) : list wupdate :=
  match on_fetch o (weather_url city app_id) with
  | Fulfilled r =>
      if resp_ok r then
        match on_json o r with
        | Fulfilled data =>
            match weather_of_json data with
            | Ok d => success_updates d
            | Err _ => failure_updates
            end
        | Rejected _ => failure_updates
        end
      else failure_updates
  | Rejected _ => failure_updates
  end.

Lemma search_spec_cases o city :
  (exists d, search_spec o city = success_updates d) \/ search_spec o city = failure_updates.
Proof.
  unfold search_spec. repeat case_match; eauto.
Qed.

(** [search("")] returns at once: it issues no request and queues
    no state update. *)
Theorem search_empty_noop : search app_id "" = Ret tt.
Proof. reflexivity. Qed.

(** [search] runs as [search_spec] says. *)
Lemma run_search_spec o city :
  city <> "" -> run o (search app_id city) = (search_spec o city, Ok tt).
Proof.
  intros Hc. unfold search, search_spec, after_fetch, after_json, search_catch.
  rewrite truthy_JStr.
  destruct (String.eqb_spec city ""); [done|]. simpl.
  destruct (on_fetch o _) as [r|e]; simpl; [|done].
  destruct (resp_ok r); simpl; [|done].
  destruct (on_json o r) as [data|e]; simpl; [|done].
  by destruct (weather_of_json data).
Qed.

(** C3: For a non-empty city, running [search] to its end queues
    exactly the updates of [search_spec]: the success pair when the
    fetch is fulfilled with an ok response whose JSON body is fulfilled
    and yields the weather data, the [catch] pair on every other
    branch; and [search] itself returns normally. *)
Theorem search_run o city :
  city <> "" -> run o (search app_id city) = (search_spec o city, Ok tt).
Proof. exact (run_search_spec o city). Qed.

(** C4: Whatever the network answers and whatever the state before,
    once a search for a non-empty city has completed exactly one of
    "a result is shown" and "an error is shown" holds, and the state is
    the success or the failure state. *)
Theorem search_exactly_one o city st :
  city <> "" ->
  let st' := apply_updates st (run o (search app_id city)).1 in
  xorb (shows_result st') (shows_error st') = true /\ ui_inv st'.
Proof.
  intros Hc. simpl. rewrite run_search_spec by done. simpl.
  destruct (search_spec_cases o city) as [[d ->]| ->];
    autorewrite with wx_rw; unfold ui_inv; split; eauto.
Qed.

(** [search] awaits at most twice: once on [fetch], once on [json()]. *)
Lemma search_awaits_at_most_2 city : awaits_at_most 2 (search app_id city).
Proof.
  unfold search. apply (awaits_at_most_try_catch 2 0).
  - destruct (negb _); [constructor|].
    apply (awaits_at_most_bind 1 1).
    + constructor. intros [r|e]; constructor.
    + intros r. unfold after_fetch. destruct (negb (resp_ok r)); [constructor|].
      apply (awaits_at_most_bind 1 0).
      * constructor. intros [v|e]; constructor.
      * intros v. unfold after_json. destruct (weather_of_json v); repeat constructor.
  - intros e. repeat constructor.
Qed.

(** C5: [search] raises no exception out of its [catch], and it awaits
    at most twice before it ends: once on [fetch], once on [json()]. *)
Theorem search_total city :
  never_raises (search app_id city) /\ awaits_at_most 2 (search app_id city).
Proof.
  split; [|apply search_awaits_at_most_2].
  apply never_raises_try_catch. intros e. repeat constructor.
Qed.

End SearchTheorems.

(** ** Responses of the specification's scenarios *)

(** A network that answers every [fetch] with [status] and every
    [json()] with [body]. *)
Definition respond (st : N) (body : settled jsval) : oracle :=
  {| on_fetch _ := Fulfilled {| status := st |}; on_json _ := body |}.

Definition london_json : jsval :=
  JObj [("weather", JArr [JObj [("icon", JStr "01d")]]);
        ("main", JObj [("humidity", JNum (Fin 60)); ("temp", JNum (Fin (157 # 10)))]);
        ("wind", JObj [("speed", JNum (Fin (41 # 10)))]);
        ("name", JStr "London")].

Definition london_data : weather_data :=
  {| humidity := JNum (Fin 60); windSpeed := JNum (Fin (41 # 10));
     temperature := Fin 15; location := JStr "London"; icon := clearIcon |}.

Definition paris_json : jsval :=
  JObj [("weather", JArr [JObj [("icon", JStr "10d")]]);
        ("main", JObj [("humidity", JNum (Fin 80)); ("temp", JNum (Fin (91 # 10)))]);
        ("wind", JObj [("speed", JNum (Fin 2))]);
        ("name", JStr "Paris")].

Definition paris_data : weather_data :=
  {| humidity := JNum (Fin 80); windSpeed := JNum (Fin 2);
     temperature := Fin 9; location := JStr "Paris"; icon := rainIcon |}.

(** A body with the [weather] and [wind] objects but no field inside
    [main], no [name] and no icon code. *)
Definition sparse_json : jsval :=
  JObj [("weather", JArr [JObj []]); ("main", JObj []); ("wind", JObj [])].

Section ScenarioTheorems.
Context `{JsEngine} (app_id : option string).

(** The London scenario of the specification: a successful
    response with icon ["01d"], humidity 60, temperature 15.7, wind 4.1
    and name ["London"] queues the result {60, 4.1, 15, "London",
    clearIcon} and clears the error. *)
Theorem search_london :
  run (respond 200 (Fulfilled london_json)) (search app_id "London") =
    (success_updates london_data, Ok tt).
Proof. vm_compute. reflexivity. Qed.

(** A response that is not ok (here 404) ends in the failure state
    "City not found", without reading the body. *)
Theorem search_not_found body :
  run (respond 404 body) (search app_id "Nowhereistan") = (failure_updates, Ok tt).
Proof. reflexivity. Qed.

(** C10: The displayed temperature is the floor of [main.temp], not its
    rounding: an integer [z] with [z <= temp < z + 1]. *)
Theorem temperature_is_floor data d main q :
  weather_of_json data = Ok d ->
  get_prop data "main" = Ok main -> get_prop main "temp" = Ok (JNum (Fin q)) ->
  exists z : Z, temperature d = Fin (inject_Z z) /\
                (inject_Z z <= q /\ q < inject_Z z + 1)%Q.
Proof.
  intros Hd Hmain Htemp. unfold weather_of_json in Hd. res_inv.
  injection Hd as <-. simpl.
  rewrite Hmain in Hm7. injection Hm7 as <-. rewrite Htemp in Hm8. injection Hm8 as <-.
  rewrite js_math_floor_Fin in Hm9. injection Hm9 as <-.
  exists (Qfloor q). split; [done|]. apply Qfloor_bounds.
Qed.

(** A body missing [main.humidity], [main.temp], [name] and the
    icon code is not a failure: the search succeeds and shows humidity
    and location [undefined], temperature [NaN] and the clear icon. *)
Theorem search_accepts_missing_fields :
  run (respond 200 (Fulfilled sparse_json)) (search app_id "Paris") =
    (success_updates {| humidity := JUndefined; windSpeed := JUndefined;
                        temperature := NaN; location := JUndefined;
                        icon := clearIcon |}, Ok tt).
Proof. vm_compute. reflexivity. Qed.

(** A response whose [main.humidity] is an object is accepted by
    [search], and the next render throws: React refuses an object as a
    child, so the error escapes the component. *)
Theorem render_throws_on_object_humidity st :
  let body := JObj [("weather", JArr [JObj [("icon", JStr "01d")]]);
                    ("main", JObj [("humidity", JObj []); ("temp", JNum (Fin 20))]);
                    ("wind", JObj [("speed", JNum (Fin 3))]);
                    ("name", JStr "Oslo")] in
  let us := (run (respond 200 (Fulfilled body)) (search app_id "Oslo")).1 in
  (exists d, us = success_updates d) /\
  render (apply_updates st us) = Err (Error "Objects are not valid as a React child").
Proof. simpl. split; [eexists; reflexivity|reflexivity]. Qed.

End ScenarioTheorems.

(** ** What a render shows *)

(** The dynamic children of the result block render without throwing. *)
Definition renderable `{JsEngine} (d : weather_data) : Prop :=
  (exists t, child_text (location d) = Ok t) /\
  (exists t, child_text (humidity d) = Ok t) /\
  (exists t, child_text (windSpeed d) = Ok t).

Section RenderTheorems.
Context `{JsEngine}.

(** In the three states of the specification, and when the fields of
    a result render as children, [render] succeeds and produces the error
    paragraph exactly when an error is shown, the temperature exactly when
    a result is shown, and the prompt exactly when neither is. *)
Theorem render_shows_one_block st :
  ui_inv st ->
  (forall d, weatherData st = WData d -> renderable d) ->
  exists els, render st = Ok els /\
    (shows_error st = true <-> exists m, ErrorText m ∈ els) /\
    (shows_result st = true <-> exists t, TemperatureText t ∈ els) /\
    (shows_prompt st = true <-> PromptText prompt_text ∈ els).
Proof.
  intros [->|[[d ->]| ->]] Hd.
  - eexists. split; [reflexivity|]. simpl. split_and!; split; intros;
      destruct_and?; try destruct select (exists _, _); set_solver.
  - destruct (Hd d eq_refl) as ([l Hl] & [h Hh] & [wv Hw]).
    eexists. split.
    + unfold render. simpl. rewrite Hl, Hh, Hw. reflexivity.
    + simpl. split_and!; split; intros; destruct_and?;
        try destruct select (exists _, _); try set_solver; eauto with set_solver.
  - eexists. split; [reflexivity|]. simpl. split_and!; split; intros;
      destruct_and?; try destruct select (exists _, _); set_solver.
Qed.

End RenderTheorems.

(** ** Witnesses *)

Lemma search_run_witness :
  "London" <> "" /\
  run (respond 200 (Fulfilled london_json)) (@search decimal_engine None "London") =
    (@search_spec decimal_engine None (respond 200 (Fulfilled london_json)) "London", Ok tt).
Proof.
  assert (Hc : "London" <> "") by discriminate.
  split; [exact Hc|]. exact (@search_run decimal_engine None _ "London" Hc).
Defined.

Lemma search_exactly_one_witness :
  "London" <> "" /\
  (let st' := apply_updates {| weatherData := WFalse; error := city_not_found |}
                (run (respond 200 (Fulfilled london_json)) (@search decimal_engine None "London")).1 in
   xorb (shows_result st') (shows_error st') = true /\ ui_inv st').
Proof.
  assert (Hc : "London" <> "") by discriminate.
  split; [exact Hc|]. exact (@search_exactly_one decimal_engine None _ "London" _ Hc).
Defined.

Lemma temperature_is_floor_witness :
  let main := JObj [("humidity", JNum (Fin 60)); ("temp", JNum (Fin (157 # 10)))] in
  @weather_of_json decimal_engine london_json = Ok london_data /\
  get_prop london_json "main" = Ok main /\ get_prop main "temp" = Ok (JNum (Fin (157 # 10))) /\
  exists z : Z, temperature london_data = Fin (inject_Z z) /\
                (inject_Z z <= 157 # 10 /\ 157 # 10 < inject_Z z + 1)%Q.
Proof.
  intros main.
  assert (H1 : @weather_of_json decimal_engine london_json = Ok london_data) by (vm_compute; reflexivity).
  assert (H2 : get_prop london_json "main" = Ok main) by reflexivity.
  assert (H3 : get_prop main "temp" = Ok (JNum (Fin (157 # 10)))) by reflexivity.
  split_and!; try assumption.
  exact (@temperature_is_floor decimal_engine london_json london_data main (157 # 10) H1 H2 H3).
Defined.

Lemma render_shows_one_block_witness :
  ui_inv {| weatherData := WData london_data; error := "" |} /\
  (forall d, weatherData {| weatherData := WData london_data; error := "" |} = WData d ->
             @renderable decimal_engine d) /\
  exists els, @render decimal_engine {| weatherData := WData london_data; error := "" |} = Ok els /\
    (shows_error {| weatherData := WData london_data; error := "" |} = true <->
       exists m, ErrorText m ∈ els) /\
    (shows_result {| weatherData := WData london_data; error := "" |} = true <->
       exists t, TemperatureText t ∈ els) /\
    (shows_prompt {| weatherData := WData london_data; error := "" |} = true <->
       PromptText prompt_text ∈ els).
Proof.
  assert (Hinv : ui_inv {| weatherData := WData london_data; error := "" |})
    by (right; left; eexists; reflexivity).
  assert (Hr : forall d, weatherData {| weatherData := WData london_data; error := "" |} = WData d ->
                         @renderable decimal_engine d).
  { intros d [= <-]. split_and!; eexists; reflexivity. }
  split; [exact Hinv|]. split; [exact Hr|].
  exact (@render_shows_one_block decimal_engine _ Hinv Hr).
Defined.
