(* ===== verification/Response.v ===== *)
(** * The response contract of the specification

    spec.md, "External Interfaces", describes the body the component
    consumes: [weather: [ {icon: string, ...}, ... ]],
    [main: {humidity: number, temp: number}], [wind: {speed: number}],
    [name: string].  "Data Model" says what is made of it: humidity, wind
    speed and location as given, the temperature floored, and the icon
    looked up in the IconMap with the clear icon as fallback.
    [meets_contract] is that contract over the values [JSON.parse]
    produces, with the WeatherResult it determines; [spec_icon] is the
    IconMap lookup.  [search_meets_contract] shows [search] implements it:
    every ok response whose body meets the contract ends in the success
    state with exactly that result, provided the icon code is not the
    name of a property of [Object.prototype]
    ([Icons.icon_for_inherited]).  The converse fails:
    [weather_of_json_accepts_missing] shows the code accepts every body
    whose containers exist, whatever its leaves. *)

From S2P Require Import Prelude JsValue Icons Url Async Json Weather.
From Stdlib Require Import QArith Qround.

Local Open Scope string_scope.

(** The IconMap of the specification: the table's own entries, and the
    clear icon for every other code. *)
Definition spec_icon (code : string) : jsval := default clearIcon (own_prop allIcons_props code).

(** A body meeting the contract, its icon code, and the result the
    specification derives from it.  JSON numbers are finite. *)
Inductive meets_contract : jsval -> string -> weather_data -> Prop :=
| meets_contract_intro ps ws rest ms wd code h t sp n :
    own_prop ps "weather" = Some (JArr (JObj ws :: rest)) ->
    own_prop ws "icon" = Some (JStr code) ->
    own_prop ps "main" = Some (JObj ms) ->
    own_prop ms "humidity" = Some (JNum (Fin h)) ->
    own_prop ms "temp" = Some (JNum (Fin t)) ->
    own_prop ps "wind" = Some (JObj wd) ->
    own_prop wd "speed" = Some (JNum (Fin sp)) ->
    own_prop ps "name" = Some (JStr n) ->
    meets_contract (JObj ps) code
      {| humidity := JNum (Fin h); windSpeed := JNum (Fin sp);
         temperature := Fin (inject_Z (Qfloor t)); location := JStr n;
         icon := spec_icon code |}.

Lemma array_own_0 x xs : array_own (x :: xs) "0" = Some x.
Proof. reflexivity. Qed.

Section Contract.
Context `{JsEngine} (app_id : option string).

Lemma icon_for_spec code :
  code ∉ proto_keys ObjectProto -> icon_for (JStr code) = Ok (spec_icon code).
Proof.
  intros Hc. rewrite icon_for_string. unfold spec_icon.
  destruct (own_prop allIcons_props code); [done|].
  rewrite proto_get_ObjectProto. by case_decide.
Qed.

Lemma weather_of_json_contract data code d :
  meets_contract data code d -> code ∉ proto_keys ObjectProto -> weather_of_json data = Ok d.
Proof.
  destruct 1 as [ps ws rest ms wd code h t sp n Hw Hi Hm Hh Ht Hwd Hs Hn]. intros Hc.
  unfold weather_of_json.
  do 10 (cbn [get_prop res_bind]; rewrite ?Hw, ?array_own_0, ?Hi, ?(icon_for_spec _ Hc),
           ?Hm, ?Hh, ?Hwd, ?Hs, ?Ht, ?js_math_floor_Fin, ?Hn).
  reflexivity.
Qed.

(** C24: [search] implements the contract: for a non-empty city, when
    the request is answered with an ok response whose body meets the
    contract (and the icon code does not name a property of
    [Object.prototype]), the search ends in the success state with
    exactly the result the specification derives from the body. *)
Theorem search_meets_contract o city r data code d :
  city <> "" ->
  on_fetch o (weather_url city app_id) = Fulfilled r -> resp_ok r = true ->
  on_json o r = Fulfilled data ->
  meets_contract data code d -> code ∉ proto_keys ObjectProto ->
  run o (search app_id city) = (success_updates d, Ok tt).
Proof.
  intros Hcity Hf Hok Hj Hd Hc. rewrite run_search_spec by done.
  unfold search_spec. rewrite Hf, Hok, Hj. by rewrite (weather_of_json_contract _ _ _ Hd Hc).
Qed.

End Contract.

(** ** What the code accepts *)

(** A value [to_string] and [to_number] convert without calling a
    user-visible method: anything but an array or an object. *)
Definition primitive (v : jsval) : bool :=
  match v with
  | JArr _ | JObj _ => false
  | _ => true
  end.

(** The value [o.k] reads on a JSON object for a key that is not a
    property of [Object.prototype]. *)
Definition field (ps : list (string * jsval)) (k : string) : jsval :=
  default JUndefined (own_prop ps k).

Section Accepts.
Context `{JsEngine}.

Lemma get_prop_field ps k :
  k ∉ proto_keys ObjectProto -> get_prop (JObj ps) k = Ok (field ps k).
Proof.
  intros Hk. unfold field. cbn [get_prop]. destruct (own_prop ps k); [done|].
  rewrite proto_get_ObjectProto. by case_decide.
Qed.

Lemma icon_for_primitive v : primitive v = true -> exists ic, icon_for v = Ok ic.
Proof. destruct v; try discriminate; intros _; unfold icon_for; cbn [to_string res_bind]; eauto. Qed.

Lemma js_math_floor_primitive v : primitive v = true -> exists n, js_math_floor v = Ok n.
Proof. destruct v; try discriminate; intros _; eexists; reflexivity. Qed.

(** C25: Missing fields are not failures: for every body whose
    [weather] is an array starting with an object, whose [main] and
    [wind] are objects, and whose icon code and [main.temp] are each
    missing or a primitive value (not an array or object), [weather_of_json]
    succeeds, whatever [main.humidity], [wind.speed] and [name] are:
    present with any value, or missing; these three are stored as the
    body has them, [undefined] when missing.  The specification asks
    every deviation from the contract, a missing field included, to be a
    failure. *)
Theorem weather_of_json_accepts_missing ps ws rest ms wd :
  own_prop ps "weather" = Some (JArr (JObj ws :: rest)) ->
  own_prop ps "main" = Some (JObj ms) ->
  own_prop ps "wind" = Some (JObj wd) ->
  primitive (field ws "icon") = true -> primitive (field ms "temp") = true ->
  exists d, weather_of_json (JObj ps) = Ok d /\
    humidity d = field ms "humidity" /\ windSpeed d = field wd "speed" /\
    location d = field ps "name".
Proof.
  intros Hw Hm Hwd Hi Ht.
  destruct (icon_for_primitive _ Hi) as [ic Hic].
  destruct (js_math_floor_primitive _ Ht) as [n Hn].
  assert (Fw : field ps "weather" = JArr (JObj ws :: rest)) by (unfold field; by rewrite Hw).
  assert (Fm : field ps "main" = JObj ms) by (unfold field; by rewrite Hm).
  assert (Fwd : field ps "wind" = JObj wd) by (unfold field; by rewrite Hwd).
  unfold weather_of_json.
  do 12 (cbn [res_bind]; rewrite ?get_prop_field by decide_closed;
         rewrite ?Fw, ?Fm, ?Fwd, ?Hic, ?Hn; cbn [get_prop]; rewrite ?array_own_0).
  eexists. split_and!; reflexivity.
Qed.

End Accepts.

(** ** Bodies as text *)

(** The scenario's London response as the API sends it. *)
Definition london_text : string :=
  let q := String "034" EmptyString in
  "{" ++ q ++ "weather" ++ q ++ ":[{" ++ q ++ "icon" ++ q ++ ":" ++ q ++ "01d" ++ q ++ "}]," ++
  q ++ "main" ++ q ++ ":{" ++ q ++ "humidity" ++ q ++ ":60," ++ q ++ "temp" ++ q ++ ":15.7}," ++
  q ++ "wind" ++ q ++ ":{" ++ q ++ "speed" ++ q ++ ":4.1}," ++ q ++ "name" ++ q ++ ":" ++
  q ++ "London" ++ q ++ "}".

Section TextBodies.
Context `{JsEngine} (app_id : option string).

(** A body [JSON.parse] rejects (an HTML error page, an empty or cut
    body) is a lookup failure: the rejection of [response.json()] is
    caught like every other error. *)
Lemma search_unparsable_body o city r body e :
  city <> "" ->
  on_fetch o (weather_url city app_id) = Fulfilled r -> resp_ok r = true ->
  on_json o r = response_json body -> json_parse body = Err e ->
  run o (search app_id city) = (failure_updates, Ok tt).
Proof.
  intros Hc Hf Hok Hj He. rewrite run_search_spec by done.
  unfold search_spec. rewrite Hf, Hok, Hj. unfold response_json. by rewrite He.
Qed.

(** The London scenario from the text of the response. *)
Lemma search_london_text :
  run (respond 200 (response_json london_text)) (search app_id "London") =
    (success_updates london_data, Ok tt).
Proof. vm_compute. reflexivity. Qed.

End TextBodies.

(** ** Witnesses *)

Lemma search_meets_contract_witness :
  let o := respond 200 (Fulfilled london_json) in
  "London" <> "" /\
  on_fetch o (weather_url "London" None) = Fulfilled {| status := 200 |} /\
  resp_ok {| status := 200 |} = true /\
  on_json o {| status := 200 |} = Fulfilled london_json /\
  meets_contract london_json "01d" london_data /\ "01d" ∉ proto_keys ObjectProto /\
  run o (@search decimal_engine None "London") = (success_updates london_data, Ok tt).
Proof.
  intros o.
  assert (H1 : "London" <> "") by discriminate.
  assert (H2 : on_fetch o (weather_url "London" None) = Fulfilled {| status := 200 |}) by reflexivity.
  assert (H3 : resp_ok {| status := 200 |} = true) by reflexivity.
  assert (H4 : on_json o {| status := 200 |} = Fulfilled london_json) by reflexivity.
  assert (H5 : meets_contract london_json "01d" london_data).
  { change london_data with
      {| humidity := JNum (Fin 60); windSpeed := JNum (Fin (41 # 10));
         temperature := Fin (inject_Z (Qfloor (157 # 10))); location := JStr "London";
         icon := spec_icon "01d" |}.
    unfold london_json. econstructor; reflexivity. }
  assert (H6 : "01d" ∉ proto_keys ObjectProto) by decide_closed.
  split_and!; try assumption.
  exact (@search_meets_contract decimal_engine None o "London" _ _ _ _ H1 H2 H3 H4 H5 H6).
Defined.

Lemma weather_of_json_accepts_missing_witness :
  own_prop [("weather", JArr [JObj []]); ("main", JObj []); ("wind", JObj [])] "weather" =
    Some (JArr [JObj []]) /\
  exists d, @weather_of_json decimal_engine sparse_json = Ok d /\
    humidity d = JUndefined /\ windSpeed d = JUndefined /\ location d = JUndefined.
Proof.
  assert (H1 : own_prop [("weather", JArr [JObj []]); ("main", JObj []); ("wind", JObj [])]
                 "weather" = Some (JArr [JObj []])) by reflexivity.
  split; [exact H1|].
  exact (@weather_of_json_accepts_missing decimal_engine _ [] [] [] [] H1
           eq_refl eq_refl eq_refl eq_refl).
Defined.
