(* ===== verification/Controller.v ===== *)
(** * Clicks, typing and network completions, interleaved

    The component runs on one JavaScript thread.  Its inputs are the
    user's edits of the input field, the two click handlers of lines 93
    and 99 of [src/src/components/Weather.jsx]
    ([onClick={() => search(inputRef.current.value)}] and
    [onClick={clearSearch}]), and the settlement of the promises a
    running [search] awaits.  Several searches may be in flight at once:
    nothing cancels or orders them.

    A [world] holds the React state, the DOM value of the input, and the
    suspended searches by request number ([pending], a [gmap]).  [step]
    handles one [event]: a handler or a resumption runs synchronously up
    to its next [await] or its end, and React applies the updates it
    queued as one batch (React 18 batches the setters called in one task
    or microtask).  [reachable] is the set of worlds some sequence of
    events produces from the first render.  [drive] settles the promises
    of one request in turn; [intermediate_states] lists what per-call
    rendering would show within one segment. *)

From S2P Require Import Prelude JsValue Icons Url Async Weather.
From stdpp Require Import gmap.

Local Open Scope string_scope.

Record world : Type := {
  ui : ui_state;
  input : string;
  pending : gmap nat (async wupdate unit);
  next_id : nat
}.

Definition initial_world : world :=
  {| ui := initial_state; input := ""; pending := ∅; next_id := 0 |}.

Inductive event : Type :=
| EditInput (s : string)
| ClickSearch
| ClickClear
| FetchSettles (id : nat) (s : settled response)
| JsonSettles (id : nat) (s : settled jsval).

(** A tree stopped at an [await].  Request numbers are a device of the
    model: each click of the search button takes the next one. *)
Definition suspended {U A} (m : async U A) : bool :=
  match m with
  | AwaitFetch _ _ | AwaitJson _ _ => true
  | Ret _ | Raise _ | Emit _ _ => false
  end.

(** Run [m] as request [id] up to its next [await]: apply the queued
    updates, and keep [m] pending if it suspends.  A rejection that
    escapes is dropped (an unhandled rejection changes no state). *)
Definition run_segment (w : world) (id : nat) (m : async wupdate unit) : world :=
  let '(us, m') := advance m in
  {| ui := apply_updates (ui w) us;
     input := input w;
     pending := if suspended m' then <[id := m']> (delete id (pending w))
                else delete id (pending w);
     next_id := next_id w |}.

(** [clearSearch], lines 70-74: the DOM write of line 71 empties the
    input, then the two setters are applied as one batch. *)
Definition clearSearch (w : world) : world :=
  {| ui := apply_updates (ui w) clearSearch_updates; input := "";
     pending := pending w; next_id := next_id w |}.

Section Step.
Context `{JsEngine} (app_id : option string).

Definition step (w : world) (e : event) : option world :=
  match e with
  | EditInput s =>
      Some {| ui := ui w; input := s; pending := pending w; next_id := next_id w |}
  | ClickSearch =>
      let n := next_id w in
      Some (run_segment {| ui := ui w; input := input w; pending := pending w;
                           next_id := S n |} n (search app_id (input w)))
  | ClickClear => Some (clearSearch w)
  | FetchSettles id s =>
      match pending w !! id with
      | Some (AwaitFetch _ k) => Some (run_segment w id (k s))
      | _ => None
      end
  | JsonSettles id s =>
      match pending w !! id with
      | Some (AwaitJson _ k) => Some (run_segment w id (k s))
      | _ => None
      end
  end.

Fixpoint run_events (w : world) (es : list event) : option world :=
  match es with
  | [] => Some w
  | e :: es' => match step w e with Some w' => run_events w' es' | None => None end
  end.

Inductive reachable : world -> Prop :=
| reach_init : reachable initial_world
| reach_step w e w' : reachable w -> step w e = Some w' -> reachable w'.

Lemma run_events_reachable w es w' :
  reachable w -> run_events w es = Some w' -> reachable w'.
Proof.
  revert w. induction es as [|e es IH]; intros w Hw Hrun; simpl in Hrun.
  - by injection Hrun as <-.
  - destruct (step w e) as [w1|] eqn:He; [|discriminate].
    apply (IH w1); [|done]. by apply (reach_step w e w1).
Qed.

End Step.

(** ** The control states of a request *)

Section Stages.
Context `{JsEngine} (app_id : option string).

(** A pending request waits for its response or for its body. *)
Definition stage_ok (m : async wupdate unit) : Prop :=
  (exists url, m = AwaitFetch url fetch_stage) \/ (exists r, m = AwaitJson r json_stage).

Lemma search_stage city :
  search app_id city =
    if String.eqb city "" then Ret tt else AwaitFetch (weather_url city app_id) fetch_stage.
Proof. unfold search. rewrite truthy_JStr. by destruct (String.eqb city ""). Qed.

Lemma advance_fetch_stage s :
  advance (fetch_stage s) =
    match s with
    | Fulfilled r => if resp_ok r then ([], AwaitJson r json_stage) else (failure_updates, Ret tt)
    | Rejected _ => (failure_updates, Ret tt)
    end.
Proof.
  destruct s as [r|e]; [|done]. unfold fetch_stage. simpl. unfold after_fetch.
  by destruct (resp_ok r).
Qed.

Lemma advance_json_stage s :
  advance (json_stage s) =
    match s with
    | Fulfilled data =>
        match weather_of_json data with
        | Ok d => (success_updates d, Ret tt)
        | Err _ => (failure_updates, Ret tt)
        end
    | Rejected _ => (failure_updates, Ret tt)
    end.
Proof.
  destruct s as [data|e]; [|done]. unfold json_stage. simpl. unfold after_json.
  by destruct (weather_of_json data).
Qed.

(** Every segment of a search applies nothing, the success pair or the
    failure pair, and leaves the request finished or at a stage. *)
Definition segment_ok (m : async wupdate unit) : Prop :=
  let '(us, m') := advance m in
  (us = [] \/ (exists d, us = success_updates d) \/ us = failure_updates) /\
  (m' = Ret tt \/ stage_ok m').

Lemma segment_ok_search city : segment_ok (search app_id city).
Proof.
  unfold segment_ok. rewrite search_stage. destruct (String.eqb city ""); simpl;
    split; eauto; right; left; eauto.
Qed.

Lemma segment_ok_fetch s : segment_ok (fetch_stage s).
Proof.
  unfold segment_ok. rewrite advance_fetch_stage.
  destruct s as [r|e]; [destruct (resp_ok r)|]; split; eauto; right; right; eauto.
Qed.

Lemma segment_ok_json s : segment_ok (json_stage s).
Proof.
  unfold segment_ok. rewrite advance_json_stage.
  destruct s as [data|e]; [destruct (weather_of_json data)|]; split; eauto.
Qed.

Definition world_inv (w : world) : Prop :=
  ui_inv (ui w) /\
  map_Forall (fun _ m => stage_ok m) (pending w) /\
  (forall i, i ∈ dom (pending w) -> i < next_id w).

Lemma ui_inv_apply_batch st us :
  ui_inv st -> (us = [] \/ (exists d, us = success_updates d) \/ us = failure_updates) ->
  ui_inv (apply_updates st us).
Proof.
  intros Hst [->|[[d ->]| ->]]; [done| |]; autorewrite with wx_rw; unfold ui_inv; eauto.
Qed.

Lemma run_segment_world_inv w i m :
  world_inv w -> segment_ok m -> i < next_id w -> world_inv (run_segment w i m).
Proof.
  intros (Hui & Hp & Hids) Hm Hi. unfold segment_ok, run_segment in *.
  destruct (advance m) as [us m'] eqn:Ha. destruct Hm as [Hus Hm'].
  split_and!; simpl.
  - by apply ui_inv_apply_batch.
  - destruct (suspended m') eqn:Hs.
    + apply map_Forall_insert_2; [|by apply map_Forall_delete].
      destruct Hm' as [->|Hm']; [discriminate|done].
    + by apply map_Forall_delete.
  - intros j Hj. destruct (suspended m');
      [rewrite dom_insert_L in Hj|]; rewrite ?dom_delete_L in Hj;
      apply elem_of_union in Hj as [->%elem_of_singleton|Hj] || idtac;
      set_solver.
Qed.

Lemma step_world_inv w e w' :
  world_inv w -> step app_id w e = Some w' -> world_inv w'.
Proof.
  intros Hw Hstep. pose proof Hw as (Hui & Hp & Hids).
  destruct e as [s| | |i s|i s]; simpl in Hstep.
  - injection Hstep as <-. done.
  - injection Hstep as <-. apply run_segment_world_inv; [|apply segment_ok_search|simpl; lia].
    split_and!; [done|done|]. simpl. intros i Hi%Hids. lia.
  - injection Hstep as <-. split_and!; [by left|done|done].
  - destruct (pending w !! i) as [m|] eqn:Hi; [|discriminate].
    destruct (Hp i m Hi) as [[url ->]|[r ->]]; simpl in Hstep; [|discriminate].
    injection Hstep as <-. apply run_segment_world_inv; [done|apply segment_ok_fetch|].
    apply Hids. by apply elem_of_dom_2 in Hi.
  - destruct (pending w !! i) as [m|] eqn:Hi; [|discriminate].
    destruct (Hp i m Hi) as [[url ->]|[r ->]]; simpl in Hstep; [discriminate|].
    injection Hstep as <-. apply run_segment_world_inv; [done|apply segment_ok_json|].
    apply Hids. by apply elem_of_dom_2 in Hi.
Qed.

Lemma reachable_world_inv w : reachable app_id w -> world_inv w.
Proof.
  induction 1 as [|w e w' _ IH Hstep].
  - split_and!; [by left|apply map_Forall_empty|set_solver].
  - by eapply step_world_inv.
Qed.

(** C1: In every world reachable by typing, clicking and network
    completions in any interleaving, the display is in exactly one of
    the three modes of the specification (error paragraph, result
    block, prompt), and the state is idle, success or failure. *)
Theorem reachable_exactly_one_mode w :
  reachable app_id w ->
  ui_inv (ui w) /\
  exactly_one (shows_error (ui w)) (shows_result (ui w)) (shows_prompt (ui w)) = true.
Proof.
  intros Hw. destruct (reachable_world_inv w Hw) as [Hui _].
  split; [done|]. by apply ui_inv_exactly_one.
Qed.

End Stages.

(** ** Driving one request to its end *)

(** The event that settles the promise request [i] awaits, as [o]
    answers it. *)
Definition settle_event (o : oracle) (i : nat) (m : async wupdate unit) : option event :=
  match m with
  | AwaitFetch url _ => Some (FetchSettles i (on_fetch o url))
  | AwaitJson r _ => Some (JsonSettles i (on_json o r))
  | _ => None
  end.

Section Drive.
Context `{JsEngine} (app_id : option string).

(** Settle the promises of request [i], at most [fuel] times. *)
Fixpoint drive (fuel : nat) (o : oracle) (i : nat) (w : world) : world :=
  match fuel with
  | O => w
  | S fuel' =>
      match pending w !! i with
      | Some m =>
          match settle_event o i m with
          | Some e =>
              match step app_id w e with
              | Some w' => drive fuel' o i w'
              | None => w
              end
          | None => w
          end
      | None => w
      end
  end.

Lemma drive_done n o i w : pending w !! i = None -> drive n o i w = w.
Proof. destruct n; simpl; [done|]. by intros ->. Qed.

(** A segment run as request [i] and then driven with enough fuel
    applies exactly the updates [run] computes, and leaves nothing
    pending under [i]. *)
Lemma drive_run n o i w m :
  awaits_at_most n m ->
  ui (drive n o i (run_segment w i m)) = apply_updates (ui w) (run o m).1 /\
  pending (drive n o i (run_segment w i m)) !! i = None.
Proof.
  revert w m. induction n as [|n IH]; intros w m Hm;
    pose proof (awaits_at_most_advance _ _ Hm) as Hm';
    pose proof (advance_not_emit m) as Hne;
    rewrite (run_advance o m); unfold run_segment at 1 2;
    destruct (advance m) as [us m'] eqn:Ha; simpl in *.
  - inversion Hm'; subst; [| |by destruct (Hne u k)];
      simpl; rewrite ?lookup_delete_eq, ?app_nil_r; by split.
  - destruct m' as [a|e|u k|url k|r k]; simpl.
    + rewrite ?lookup_delete_eq. simpl. rewrite ?lookup_delete_eq, ?app_nil_r. by split.
    + rewrite ?lookup_delete_eq. simpl. rewrite ?lookup_delete_eq, ?app_nil_r. by split.
    + by destruct (Hne u k).
    + rewrite lookup_insert_eq. simpl. rewrite lookup_insert_eq.
      inversion Hm' as [| | |? ? ? Hk| ]; subst.
      match goal with
      | |- context [drive n o i (run_segment ?W1 i _)] =>
          destruct (IH W1 (k (on_fetch o url)) (Hk _)) as [IHui IHp]
      end.
      split; [|done]. rewrite IHui. simpl.
      destruct (run o (k (on_fetch o url))). simpl. by rewrite apply_updates_app.
    + rewrite lookup_insert_eq. simpl. rewrite lookup_insert_eq.
      inversion Hm' as [| | | |? ? ? Hk]; subst.
      match goal with
      | |- context [drive n o i (run_segment ?W1 i _)] =>
          destruct (IH W1 (k (on_json o r)) (Hk _)) as [IHui IHp]
      end.
      split; [|done]. rewrite IHui. simpl.
      destruct (run o (k (on_json o r))). simpl. by rewrite apply_updates_app.
Qed.

End Drive.

Definition ok_response : settled response := Fulfilled {| status := 200 |}.

Lemma run_segment_other w i m j :
  j <> i -> pending (run_segment w i m) !! j = pending w !! j.
Proof.
  intros Hj. unfold run_segment. destruct (advance m) as [us m'].
  simpl. destruct (suspended m'); rewrite ?lookup_insert_ne, lookup_delete_ne; congruence.
Qed.

Lemma run_segment_self w i m :
  pending (run_segment w i m) !! i =
    if suspended (advance m).2 then Some (advance m).2 else None.
Proof.
  unfold run_segment. destruct (advance m) as [us m']. simpl.
  destruct (suspended m'); [apply lookup_insert_eq|apply lookup_delete_eq].
Qed.

Lemma run_segment_ui w i m : ui (run_segment w i m) = apply_updates (ui w) (advance m).1.
Proof. unfold run_segment. by destruct (advance m). Qed.

Lemma run_segment_input w i m : input (run_segment w i m) = input w.
Proof. unfold run_segment. by destruct (advance m). Qed.

Section ControllerTheorems.
Context `{JsEngine} (app_id : option string).

(** Settling the body of a request waiting for it runs its last segment:
    the result replaces whatever is displayed. *)
Lemma json_settles_success w i r data d :
  pending w !! i = Some (AwaitJson r json_stage) -> weather_of_json data = Ok d ->
  exists w', step app_id w (JsonSettles i (Fulfilled data)) = Some w' /\
    ui w' = {| weatherData := WData d; error := "" |} /\ input w' = input w /\
    (forall j, j <> i -> pending w' !! j = pending w !! j).
Proof.
  intros Hi Hd. eexists. split; [simpl; by rewrite Hi|].
  rewrite run_segment_ui, run_segment_input, advance_json_stage, Hd. split_and!; [done|done|].
  intros j Hj. by apply run_segment_other.
Qed.

(** C6: A click on the search button starts a request that completes
    once the network has settled its (at most two) promises: driving it
    with any answers [o] leaves it no longer pending, and the state it
    leaves is the state before the click with the updates of the
    sequential run of [search] applied. *)
Theorem click_search_completes o w w1 :
  step app_id w ClickSearch = Some w1 ->
  let w2 := drive app_id 2 o (next_id w) w1 in
  pending w2 !! next_id w = None /\
  ui w2 = apply_updates (ui w) (run o (search app_id (input w))).1.
Proof.
  intros Hstep. injection Hstep as <-. simpl.
  destruct (drive_run app_id 2 o (next_id w)
    {| ui := ui w; input := input w; pending := pending w; next_id := S (next_id w) |}
    (search app_id (input w)) (search_awaits_at_most_2 app_id (input w))) as [Hui Hp].
  by split.
Qed.

(** C8: In a reachable world, a click on the search button with an
    empty input field changes neither the displayed state, nor the
    input, nor the requests in flight. *)
Theorem click_search_empty_noop w w1 :
  reachable app_id w -> input w = "" -> step app_id w ClickSearch = Some w1 ->
  ui w1 = ui w /\ input w1 = input w /\ pending w1 = pending w.
Proof.
  intros Hw Hin Hstep. destruct (reachable_world_inv app_id w Hw) as (_ & _ & Hids).
  injection Hstep as <-. rewrite Hin. simpl. split_and!; [done|done|].
  apply delete_id, not_elem_of_dom. intros Hd%Hids. lia.
Qed.

(** C9: [clearSearch] always leaves the idle state and an empty input
    field, whatever the state before; the requests in flight stay
    pending (nothing cancels them). *)
Theorem click_clear_resets w :
  step app_id w ClickClear =
    Some {| ui := initial_state; input := ""; pending := pending w; next_id := next_id w |}.
Proof. reflexivity. Qed.

(** C14: Nothing orders overlapping searches: in every world where two
    requests [i] and [j] both await their bodies, whatever the input and
    the display, the body that settles last decides what is shown.  When
    [i] was started before [j] ([i < j], the later search typed over the
    earlier one) and [i]'s body arrives last, the page shows the result
    of the earlier search [i], the newer one is gone, and the input still
    reads the later city: the latest search does not win. *)
Theorem stale_response_wins w i j ri rj data_i data_j di dj :
  i < j ->
  pending w !! i = Some (AwaitJson ri json_stage) -> pending w !! j = Some (AwaitJson rj json_stage) ->
  weather_of_json data_i = Ok di -> weather_of_json data_j = Ok dj ->
  exists w', run_events app_id w [JsonSettles j (Fulfilled data_j); JsonSettles i (Fulfilled data_i)] = Some w' /\
    ui w' = {| weatherData := WData di; error := "" |} /\ input w' = input w.
Proof.
  intros Hij Hi Hj Hdi Hdj.
  destruct (json_settles_success w j rj data_j dj Hj Hdj) as (w1 & Hs1 & _ & Hin1 & Hp1).
  destruct (json_settles_success w1 i ri data_i di) as (w2 & Hs2 & Hui2 & Hin2 & _);
    [rewrite Hp1 by lia; exact Hi|exact Hdi|].
  exists w2. cbn [run_events]. rewrite Hs1, Hs2. split_and!; [done|done|congruence].
Qed.

(** C15: [clearSearch] does not cancel a search in flight: in every
    world where a request is waiting for its response, whatever the
    display, after a click on the clear control an ok response and a body
    [weather_of_json] accepts bring that result back onto the page while
    the input field stays empty. *)
Theorem late_response_after_clear w i url r data d :
  pending w !! i = Some (AwaitFetch url fetch_stage) -> resp_ok r = true ->
  weather_of_json data = Ok d ->
  exists w', run_events app_id w [ClickClear; FetchSettles i (Fulfilled r); JsonSettles i (Fulfilled data)] = Some w' /\
    input w' = "" /\ ui w' = {| weatherData := WData d; error := "" |}.
Proof.
  intros Hi Hok Hd.
  set (w0 := clearSearch w).
  assert (Hi0 : pending w0 !! i = Some (AwaitFetch url fetch_stage)) by exact Hi.
  set (w1 := run_segment w0 i (fetch_stage (Fulfilled r))).
  assert (Hi1 : pending w1 !! i = Some (AwaitJson r json_stage)).
  { unfold w1. rewrite run_segment_self, advance_fetch_stage, Hok. reflexivity. }
  destruct (json_settles_success w1 i r data d Hi1 Hd) as (w2 & Hs2 & Hui2 & Hin2 & _).
  assert (Hs1 : step app_id w0 (FetchSettles i (Fulfilled r)) = Some w1) by (cbn [step]; rewrite Hi0; reflexivity).
  exists w2. cbn [run_events]. change (step app_id w ClickClear) with (Some w0).
  cbv iota beta. rewrite Hs1, Hs2. split_and!; [done| |done].
  rewrite Hin2. unfold w1. by rewrite run_segment_input.
Qed.

End ControllerTheorems.

(** ** Rendering without batching *)

(** The states rendered when each setter call renders on its own, as
    React 17 does for updates outside its event handlers (after an
    [await]): one state per update of the segment. *)
Fixpoint intermediate_states (st : ui_state) (us : list wupdate) : list ui_state :=
  match us with
  | [] => []
  | u :: us' => let st' := apply_update st u in st' :: intermediate_states st' us'
  end.

Section Unbatched.
Context `{JsEngine} (app_id : option string).

(** The success path calls [setWeatherData] before [setError("")].
    After a failed search for "Nowhereistan", a successful search for
    "London" would render, between the two calls, the new result next to
    the stale "City not found" if each call rendered on its own: the
    invariant of C1 rests on React applying the two updates as one batch. *)
Theorem unbatched_render_shows_both :
  match run_events app_id initial_world
          [EditInput "Nowhereistan"; ClickSearch;
           FetchSettles 0 (Fulfilled {| status := 404 |});
           EditInput "London"; ClickSearch; FetchSettles 1 ok_response] with
  | Some w =>
      match pending w !! 1 with
      | Some (AwaitJson _ k) =>
          existsb (fun st => shows_result st && shows_error st)
            (intermediate_states (ui w) (advance (k (Fulfilled london_json))).1)
      | _ => false
      end
  | None => false
  end = true.
Proof. vm_compute. reflexivity. Qed.

End Unbatched.

(** ** Witnesses *)

Lemma reachable_exactly_one_mode_witness :
  @reachable decimal_engine None initial_world /\
  ui_inv (ui initial_world) /\
  exactly_one (shows_error (ui initial_world)) (shows_result (ui initial_world))
              (shows_prompt (ui initial_world)) = true.
Proof.
  assert (Hr : @reachable decimal_engine None initial_world) by constructor.
  split; [exact Hr|]. exact (@reachable_exactly_one_mode decimal_engine None initial_world Hr).
Defined.

Lemma click_search_completes_witness :
  let w := {| ui := initial_state; input := "London"; pending := ∅; next_id := 0 |} in
  let o := respond 200 (Fulfilled london_json) in
  exists w1,
    @step decimal_engine None w ClickSearch = Some w1 /\
    (let w2 := @drive decimal_engine None 2 o (next_id w) w1 in
     pending w2 !! next_id w = None /\
     ui w2 = apply_updates (ui w) (run o (@search decimal_engine None (input w))).1).
Proof.
  intros w o. eexists. split; [reflexivity|].
  apply (@click_search_completes decimal_engine None o w). reflexivity.
Defined.

Lemma click_search_empty_noop_witness :
  exists w1,
    @reachable decimal_engine None initial_world /\ input initial_world = "" /\
    @step decimal_engine None initial_world ClickSearch = Some w1 /\
    (ui w1 = ui initial_world /\ input w1 = input initial_world /\
     pending w1 = pending initial_world).
Proof.
  eexists.
  assert (Hr : @reachable decimal_engine None initial_world) by constructor.
  assert (Hi : input initial_world = "") by reflexivity.
  split; [exact Hr|]. split; [exact Hi|]. split; [reflexivity|].
  apply (@click_search_empty_noop decimal_engine None initial_world _ Hr Hi). reflexivity.
Defined.

(** Two searches in flight, London (request 0) then Paris (request 1),
    both waiting for their bodies. *)
Definition two_in_flight : world :=
  {| ui := initial_state; input := "Paris";
     pending := <[0 := AwaitJson {| status := 200 |} (@json_stage decimal_engine)]>
                  (<[1 := AwaitJson {| status := 200 |} (@json_stage decimal_engine)]> ∅);
     next_id := 2 |}.

Lemma stale_response_wins_witness :
  exists w',
    @run_events decimal_engine None two_in_flight
      [JsonSettles 1 (Fulfilled paris_json); JsonSettles 0 (Fulfilled london_json)] = Some w' /\
    ui w' = {| weatherData := WData london_data; error := "" |} /\ input w' = "Paris".
Proof.
  apply (@stale_response_wins decimal_engine None two_in_flight 0 1 {| status := 200 |} {| status := 200 |}
           london_json paris_json london_data paris_data);
    [lia|reflexivity|reflexivity|vm_compute; reflexivity|vm_compute; reflexivity].
Defined.

(** One search for Paris waiting for its response. *)
Definition paris_in_flight : world :=
  {| ui := initial_state; input := "Paris";
     pending := <[0 := AwaitFetch (weather_url "Paris" None) (@fetch_stage decimal_engine)]> ∅;
     next_id := 1 |}.

Lemma late_response_after_clear_witness :
  exists w',
    @run_events decimal_engine None paris_in_flight
      [ClickClear; FetchSettles 0 (Fulfilled {| status := 200 |}); JsonSettles 0 (Fulfilled paris_json)] =
      Some w' /\
    input w' = "" /\ ui w' = {| weatherData := WData paris_data; error := "" |}.
Proof.
  apply (@late_response_after_clear decimal_engine None paris_in_flight 0 (weather_url "Paris" None) {| status := 200 |}
           paris_json paris_data); [reflexivity|reflexivity|vm_compute; reflexivity].
Defined.
