(* ===== verification/Progress.v ===== *)
(** * No request is left hanging

    The specification allows any number of searches in flight (spec.md,
    "Concurrency & Resource Model"); a hung request leaves the display
    as it was until it resolves.  This file shows the converse is never a
    trap of the code: from every reachable world, settling the promises
    each request in flight awaits, as a network [o] answers them, finishes
    every request.  [settle_all] drives the pending requests one after
    the other, in the order of their numbers, with [Controller.drive] and
    a fuel of 2 (a pending request awaits its response or its body, so at
    most two settlements remain); the typing and the invariants of
    [Controller] carry over since every settlement is a step. *)

From S2P Require Import Prelude JsValue Icons Url Async Weather Controller.
From stdpp Require Import gmap.

Local Open Scope string_scope.

Section Settle.
Context `{JsEngine} (app_id : option string).

(** Settle, request by request, every request in flight in [w]. *)
Definition settle_all (o : oracle) (w : world) : world :=
  foldl (fun w i => drive app_id 2 o i w) w (elements (dom (pending w))).

(** ** Lemmas *)

(** A settlement of request [i] is a [run_segment] of request [i]. *)
Lemma step_settle o i m w w' e :
  pending w !! i = Some m -> settle_event o i m = Some e -> step app_id w e = Some w' ->
  exists m', w' = run_segment w i m'.
Proof.
  intros Hi He Hs. destruct m as [| | |url k|r k]; simpl in He; try discriminate;
    injection He as <-; simpl in Hs; rewrite Hi in Hs; injection Hs as <-; eauto.
Qed.

Lemma drive_other n o i w j :
  j <> i -> pending (drive app_id n o i w) !! j = pending w !! j.
Proof.
  intros Hj. revert w. induction n as [|n IH]; intros w; [done|]. simpl.
  destruct (pending w !! i) as [m|] eqn:Hi; [|done].
  destruct (settle_event o i m) as [e|] eqn:He; [|done].
  destruct (step app_id w e) as [w'|] eqn:Hs; [|done].
  destruct (step_settle o i m w w' e Hi He Hs) as [m' ->].
  rewrite IH. by apply run_segment_other.
Qed.

Lemma drive_input n o i w : input (drive app_id n o i w) = input w.
Proof.
  revert w. induction n as [|n IH]; intros w; [done|]. simpl.
  destruct (pending w !! i) as [m|] eqn:Hi; [|done].
  destruct (settle_event o i m) as [e|] eqn:He; [|done].
  destruct (step app_id w e) as [w'|] eqn:Hs; [|done].
  destruct (step_settle o i m w w' e Hi He Hs) as [m' ->]. rewrite IH.
  unfold run_segment. by destruct (advance m').
Qed.

Lemma drive_reachable n o i w : reachable app_id w -> reachable app_id (drive app_id n o i w).
Proof.
  revert w. induction n as [|n IH]; intros w Hw; [done|]. simpl.
  destruct (pending w !! i) as [m|]; [|done].
  destruct (settle_event o i m) as [e|]; [|done].
  destruct (step app_id w e) as [w'|] eqn:Hs; [|done].
  apply IH. by apply (reach_step app_id w e w').
Qed.

Lemma drive_step n o i w m e w' :
  pending w !! i = Some m -> settle_event o i m = Some e -> step app_id w e = Some w' ->
  drive app_id (S n) o i w = drive app_id n o i w'.
Proof. intros Hi He Hs. simpl. by rewrite Hi, He, Hs. Qed.

Lemma json_stage_done w i s : pending (run_segment w i (json_stage s)) !! i = None.
Proof.
  rewrite run_segment_self, advance_json_stage.
  destruct s as [data|ex]; [destruct (weather_of_json data)|]; simpl; reflexivity.
Qed.

(** A request at a stage finishes within two settlements. *)
Lemma drive_stage o i w :
  world_inv w -> i ∈ dom (pending w) -> pending (drive app_id 2 o i w) !! i = None.
Proof.
  intros (_ & Hp & _) [m Hi]%elem_of_dom.
  destruct (Hp i m Hi) as [[url ->]|[r ->]].
  - rewrite (drive_step 1 o i w _ _ _ Hi eq_refl) by (simpl; by rewrite Hi).
    set (w1 := run_segment w i (fetch_stage (on_fetch o url))).
    assert (H1 : pending w1 !! i = None \/ exists resp, pending w1 !! i = Some (AwaitJson resp json_stage)).
    { unfold w1. rewrite run_segment_self, advance_fetch_stage.
      destruct (on_fetch o url) as [resp|ex]; [destruct (resp_ok resp)|]; simpl; eauto. }
    destruct H1 as [H1|[resp H1]]; [by rewrite drive_done|].
    rewrite (drive_step 0 o i w1 _ _ _ H1 eq_refl) by (simpl; by rewrite H1).
    apply json_stage_done.
  - rewrite (drive_step 1 o i w _ _ _ Hi eq_refl) by (simpl; by rewrite Hi).
    by rewrite drive_done; apply json_stage_done.
Qed.

Lemma settle_list o w ids :
  reachable app_id w -> NoDup ids -> (forall i, i ∈ ids -> i ∈ dom (pending w)) ->
  let w' := foldl (fun w i => drive app_id 2 o i w) w ids in
  reachable app_id w' /\ input w' = input w /\
  forall j, pending w' !! j = if decide (j ∈ ids) then None else pending w !! j.
Proof.
  revert w. induction ids as [|i ids IH]; intros w Hw Hnd Hdom; cbn [foldl].
  - split_and!; [done|done|]. intros j. by case_decide; [set_solver|].
  - apply NoDup_cons in Hnd as [Hi Hnd].
    set (w1 := drive app_id 2 o i w).
    assert (Hw1 : reachable app_id w1) by by apply drive_reachable.
    assert (Hdom1 : forall j, j ∈ ids -> j ∈ dom (pending w1)).
    { intros j Hj. apply elem_of_dom. unfold w1. rewrite drive_other by set_solver.
      apply elem_of_dom, Hdom. set_solver. }
    destruct (IH w1 Hw1 Hnd Hdom1) as (Hr & Hin & Hp).
    split_and!; [done|by rewrite Hin; apply drive_input|]. intros j. rewrite Hp.
    destruct (decide (j = i)) as [->|Hji].
    + rewrite decide_False by done. rewrite decide_True by set_solver.
      apply drive_stage; [by apply (reachable_world_inv app_id)|]. apply Hdom. set_solver.
    + unfold w1. rewrite drive_other by done.
      destruct (decide (j ∈ ids)), (decide (j ∈ i :: ids)); set_solver.
Qed.

(** C26: From every reachable world, settling the awaited promises of the
    requests in flight, as any network [o] answers them, finishes them
    all: the world reached is reachable, has no request pending, and the
    input field is as it was. *)
Theorem settle_all_completes o w :
  reachable app_id w ->
  reachable app_id (settle_all o w) /\ pending (settle_all o w) = ∅ /\
  input (settle_all o w) = input w.
Proof.
  intros Hw. unfold settle_all.
  destruct (settle_list o w (elements (dom (pending w))) Hw (NoDup_elements _))
    as (Hr & Hin & Hp); [by intros i Hi%elem_of_elements|].
  split_and!; [done| |done]. apply map_eq. intros j. rewrite Hp, lookup_empty.
  case_decide as Hj; [done|]. apply not_elem_of_dom. by rewrite <-elem_of_elements.
Qed.

End Settle.

(** ** Witness *)

(** The world after typing Paris and clicking the search control, with
    its request waiting for the response. *)
Definition paris_world : world :=
  default initial_world (@run_events decimal_engine None initial_world [EditInput "Paris"; ClickSearch]).

Lemma paris_world_reachable : @reachable decimal_engine None paris_world.
Proof.
  unfold paris_world.
  destruct (@run_events decimal_engine None initial_world [EditInput "Paris"; ClickSearch])
    as [w|] eqn:E; [|constructor].
  exact (run_events_reachable None initial_world _ w (reach_init None) E).
Qed.

Lemma settle_all_completes_witness :
  let o := respond 200 (Fulfilled paris_json) in
  let w' := @settle_all decimal_engine None o paris_world in
  @reachable decimal_engine None paris_world /\ is_Some (pending paris_world !! 0) /\
  (@reachable decimal_engine None w' /\ pending w' = ∅ /\ input w' = input paris_world).
Proof.
  intros o w'. split; [exact paris_world_reachable|]. split.
  - apply (bool_decide_unpack (is_Some (pending paris_world !! 0))). vm_compute. exact I.
  - exact (@settle_all_completes decimal_engine None o paris_world paris_world_reachable).
Defined.
