(* ===== verification/Stored.v ===== *)
(** * What a reachable world can store

    [weatherData] only ever receives the result [weather_of_json] built
    from a body (line 49 of [src/src/components/Weather.jsx]), or
    [null]/[false].  So a property [P] of results holds of every stored
    result as soon as [weather_of_json] only builds results satisfying
    [P] from the bodies the network delivers.  [reachable_under Q] is
    [Controller.reachable] restricted to the events whose parsed body
    satisfies [Q] (fetch settlements, rejections and the user's events
    are unrestricted); [reachable_under_stored] is the induction over it,
    shared by [Typing] (any body), [RenderSafety] (bodies meeting the
    contract) and the bodies [JSON.parse] can return. *)

From S2P Require Import Prelude JsValue Icons Url Async Weather Controller.
From stdpp Require Import gmap.

Local Open Scope string_scope.

(** The events the network may deliver when every parsed body satisfies [Q]. *)
Definition body_allowed (Q : jsval -> Prop) (e : event) : Prop :=
  match e with
  | JsonSettles _ (Fulfilled data) => Q data
  | _ => True
  end.

(** Every result stored in [st], or queued in [us], satisfies [P]. *)
Definition stored_ok (P : weather_data -> Prop) (st : ui_state) : Prop :=
  forall d, weatherData st = WData d -> P d.

Definition batch_ok (P : weather_data -> Prop) (us : list wupdate) : Prop :=
  forall d, SetWeatherData (WData d) ∈ us -> P d.

Section Stored.
Context `{JsEngine} (app_id : option string) (Q : jsval -> Prop) (P : weather_data -> Prop).

Inductive reachable_under : world -> Prop :=
| ru_init : reachable_under initial_world
| ru_step w e w' :
    reachable_under w -> body_allowed Q e -> step app_id w e = Some w' -> reachable_under w'.

Lemma reachable_under_reachable w : reachable_under w -> reachable app_id w.
Proof. induction 1; [constructor|by eapply reach_step]. Qed.

Lemma run_events_under w es w' :
  reachable_under w -> Forall (body_allowed Q) es -> run_events app_id w es = Some w' ->
  reachable_under w'.
Proof.
  revert w. induction es as [|e es IH]; intros w Hw Hes Hrun; simpl in Hrun.
  - by injection Hrun as <-.
  - apply Forall_cons in Hes as [He Hes].
    destruct (step app_id w e) as [w1|] eqn:Hs; [|discriminate].
    apply (IH w1); [|done|done]. by apply (ru_step w e w1).
Qed.

(** ** Batches *)

Lemma batch_ok_nil : batch_ok P [].
Proof. intros d Hd. set_solver. Qed.

Lemma batch_ok_failure : batch_ok P failure_updates.
Proof. intros d Hd. unfold failure_updates in Hd. set_solver. Qed.

Lemma batch_ok_success d : P d -> batch_ok P (success_updates d).
Proof. intros Hd d' Hd'. unfold success_updates in Hd'. set_solver. Qed.

#[local] Hint Resolve batch_ok_nil batch_ok_failure batch_ok_success : wx.

Lemma apply_updates_ok st us : stored_ok P st -> batch_ok P us -> stored_ok P (apply_updates st us).
Proof.
  revert st. induction us as [|u us IH]; intros st Hst Hus; [done|].
  unfold apply_updates. simpl. apply IH; [|intros d Hd; apply Hus; set_solver].
  destruct u as [w|m]; unfold stored_ok; simpl; [|exact Hst]. intros d ->. apply Hus. set_solver.
Qed.

Lemma run_segment_ok w i m :
  stored_ok P (ui w) -> batch_ok P (advance m).1 -> stored_ok P (ui (run_segment w i m)).
Proof. unfold run_segment. destruct (advance m). simpl. apply apply_updates_ok. Qed.

Lemma batch_ok_search city : batch_ok P (advance (search app_id city)).1.
Proof. rewrite search_stage. destruct (String.eqb city ""); simpl; auto with wx. Qed.

Lemma batch_ok_fetch s : batch_ok P (advance (fetch_stage s)).1.
Proof. rewrite advance_fetch_stage. destruct s as [r|e]; [destruct (resp_ok r)|]; simpl; auto with wx. Qed.

(** ** The induction *)

Section Bodies.
Hypothesis HP : forall data d, Q data -> weather_of_json data = Ok d -> P d.

Lemma batch_ok_json s : body_allowed Q (JsonSettles 0 s) -> batch_ok P (advance (json_stage s)).1.
Proof using HP.
  rewrite advance_json_stage. destruct s as [data|e]; simpl; [|auto with wx].
  intros Hq. destruct (weather_of_json data) as [d|] eqn:E; simpl; eauto with wx.
Qed.

Lemma step_stored w e w' :
  world_inv w -> body_allowed Q e -> stored_ok P (ui w) ->
  step app_id w e = Some w' -> stored_ok P (ui w').
Proof using HP.
  intros (_ & Hp & _) He Hw Hstep. destruct e as [s| | |i s|i s]; simpl in Hstep.
  - by injection Hstep as <-.
  - injection Hstep as <-. apply run_segment_ok; [done|apply batch_ok_search].
  - injection Hstep as <-. by intros d [=].
  - destruct (pending w !! i) as [m|] eqn:Hi; [|discriminate].
    destruct (Hp i m Hi) as [[url ->]|[r ->]]; simpl in Hstep; [|discriminate].
    injection Hstep as <-. apply run_segment_ok; [done|apply batch_ok_fetch].
  - destruct (pending w !! i) as [m|] eqn:Hi; [|discriminate].
    destruct (Hp i m Hi) as [[url ->]|[r ->]]; simpl in Hstep; [discriminate|].
    injection Hstep as <-. apply run_segment_ok; [done|by apply batch_ok_json].
Qed.

(** Every result a world reachable under [Q] stores satisfies [P]. *)
Lemma reachable_under_stored w : reachable_under w -> stored_ok P (ui w).
Proof using HP.
  induction 1 as [|w e w' Hw IH He Hstep]; [by intros d [=]|].
  eapply step_stored; [|exact He|exact IH|exact Hstep].
  by apply (reachable_world_inv app_id), reachable_under_reachable.
Qed.

End Bodies.
End Stored.

Arguments reachable_under {_} _ _ _.

(** With no restriction on the bodies, [reachable_under] is [reachable]. *)
Lemma reachable_under_True `{JsEngine} app_id w :
  reachable app_id w -> reachable_under app_id (fun _ => True) w.
Proof.
  induction 1 as [|w e w' Hw IH Hs]; [constructor|].
  apply (ru_step _ _ w e w'); [done| |done]. by destruct e as [| | | |? []].
Qed.
