(* ===== verification/Typing.v ===== *)
(** * What the stored result is made of

    [weatherData] holds whatever [search] built from the response
    (lines 47-55 of [src/src/components/Weather.jsx]).  The component
    checks none of the fields: [humidity], [windSpeed] and [location] are
    any JSON values.  Two fields are nevertheless constrained by the code
    that computes them: [temperature] comes out of [Math.floor] (line 53),
    so it is an integer, [NaN] or an infinity, and [icon] comes out of
    [allIcons[...] || clearIcon] (line 47), so it is one of the image URLs
    of the table or an inherited built-in of [Object.prototype].
    [wd_typed] is this typing of a result, in the style of a
    well-formedness predicate on JSON values; [reachable_weather_typed]
    shows every reachable world stores only well-typed results.

    [readings] says where the fields come from: humidity, wind speed and
    location are the body's own properties [main.humidity], [wind.speed]
    and [name] ([undefined] when missing), the temperature is
    [Math.floor] of [main.temp] and the icon the lookup of
    [weather[0].icon].  [stored_readings] shows that every result a
    world stores is the reading of one of the bodies the network
    delivered, in every interleaving. *)

From S2P Require Import Prelude JsValue Icons Url Async Weather Controller Stored.
From stdpp Require Import gmap.
From Stdlib Require Import QArith Qround.

Local Open Scope string_scope.

(** The numbers [Math.floor] returns. *)
Inductive integral_num : jsnum -> Prop :=
| integral_fin (z : Z) : integral_num (Fin (inject_Z z))
| integral_nan : integral_num NaN
| integral_inf (b : bool) : integral_num (Infinity b).

(** The values [allIcons[code] || clearIcon] returns. *)
Inductive icon_value : jsval -> Prop :=
| icon_table (k : string) (v : jsval) : (k, v) ∈ allIcons_props -> icon_value v
| icon_builtin (h : string) : icon_value (JHost h).

#[export] Hint Constructors integral_num icon_value : wx.

Record wd_typed (d : weather_data) : Prop := {
  typed_temperature : integral_num (temperature d);
  typed_icon : icon_value (icon d)
}.

Definition ui_typed (st : ui_state) : Prop := stored_ok wd_typed st.

(** The value of an own property: of an object, an array (its indices
    and [length]) or a string (its characters and [length]);
    [undefined] when there is none. *)
Definition own_get (v : jsval) (k : string) : jsval :=
  match v with
  | JObj ps => default JUndefined (own_prop ps k)
  | JArr xs => default JUndefined (array_own xs k)
  | JStr str => default JUndefined (string_own str k)
  | _ => JUndefined
  end.

(** The value at a path of own properties. *)
Fixpoint field_at (v : jsval) (path : list string) : jsval :=
  match path with
  | [] => v
  | k :: path' => field_at (own_get v k) path'
  end.

(** The result the specification reads off a body: the three fields as
    the body has them, the floored temperature and the looked-up icon. *)
Definition readings `{JsEngine} (data : jsval) (d : weather_data) : Prop :=
  humidity d = field_at data ["main"; "humidity"] /\
  windSpeed d = field_at data ["wind"; "speed"] /\
  location d = field_at data ["name"] /\
  js_math_floor (field_at data ["main"; "temp"]) = Ok (temperature d) /\
  icon_for (field_at data ["weather"; "0"; "icon"]) = Ok (icon d).

(** The London scenario driven from the first render. *)
Definition london_events : list event :=
  [EditInput "London"; ClickSearch; FetchSettles 0 ok_response; JsonSettles 0 (Fulfilled london_json)].

Definition london_world : world :=
  default initial_world (@run_events decimal_engine None initial_world london_events).

(** ** The two computed fields *)

Lemma math_floor_integral n : integral_num (math_floor n).
Proof. destruct n; simpl; auto with wx. Qed.

Section Fields.
Context `{JsEngine}.

Lemma js_math_floor_integral v n : js_math_floor v = Ok n -> integral_num n.
Proof. unfold js_math_floor. intros Hn. res_inv. injection Hn as <-. apply math_floor_integral. Qed.

Lemma icon_for_to_string code key :
  to_string code = Ok key -> icon_for code = icon_for (JStr key).
Proof. intros Hk. unfold icon_for. by rewrite Hk. Qed.

Lemma icon_for_value code v : icon_for code = Ok v -> icon_value v.
Proof.
  destruct (to_string code) as [key|e] eqn:Hk.
  2:{ unfold icon_for. by rewrite Hk. }
  rewrite (icon_for_to_string _ _ Hk), icon_for_string.
  destruct (own_prop allIcons_props key) as [v'|] eqn:E; intros Hv; injection Hv as <-.
  - apply own_prop_elem in E. eauto with wx.
  - rewrite proto_get_ObjectProto. unfold js_or. case_decide.
    + destruct (proto_member_host ObjectProto ObjectProto key) as [h ->]. simpl. auto with wx.
    + apply (icon_table "01d"). apply list_elem_of_here.
Qed.

Lemma weather_of_json_typed data d : weather_of_json data = Ok d -> wd_typed d.
Proof.
  unfold weather_of_json. intros Hd. res_inv. injection Hd as <-.
  split; simpl; [by eapply js_math_floor_integral|by eapply icon_for_value].
Qed.

(** A key no prototype has: reading it finds only own properties. *)
Lemma proto_get_absent r k : (forall p, k ∉ proto_keys p) -> proto_get r k = JUndefined.
Proof.
  intros Hk. unfold proto_get, proto_get_own. rewrite decide_False by apply Hk.
  destruct r; [done|..]; rewrite decide_False by apply Hk; done.
Qed.

Lemma get_prop_own_get v k x :
  (forall p, k ∉ proto_keys p) -> get_prop v k = Ok x -> x = own_get v k.
Proof.
  intros Hk Hx. pose proof (fun r => proto_get_absent r k Hk) as Hp.
  destruct v; cbn [get_prop] in Hx; try discriminate; injection Hx as <-; simpl; rewrite ?Hp;
    try done; by case_match.
Qed.

Lemma weather_of_json_readings data d : weather_of_json data = Ok d -> readings data d.
Proof.
  unfold weather_of_json. intros Hd. res_inv. injection Hd as <-.
  repeat match goal with
  | Hg : get_prop ?v ?k = Ok ?x |- _ =>
      apply get_prop_own_get in Hg; [subst x|intros []; set_solver]
  end.
  unfold readings. simpl. split_and!; done.
Qed.

End Fields.

Section Reach.
Context `{JsEngine} (app_id : option string).

Lemma reachable_ui_typed w : reachable app_id w -> ui_typed (ui w).
Proof.
  intros Hw. apply (reachable_under_stored app_id (fun _ => True));
    [intros data d _; apply weather_of_json_typed|by apply reachable_under_True].
Qed.

(** C21: In every reachable world, a stored result has an integer
    temperature (or [NaN] or an infinity: [Math.floor] of what the
    response gave) and an icon that is one of the images of [allIcons]
    or an inherited built-in of [Object.prototype], never an arbitrary
    value of the response. *)
Theorem reachable_weather_typed w d :
  reachable app_id w -> weatherData (ui w) = WData d -> wd_typed d.
Proof. intros Hw. revert d. exact (reachable_ui_typed w Hw). Qed.

(** C7: Every result a world stores is read off one of the bodies the
    network delivered, in every interleaving of events: for any set [Q]
    of bodies, when every body [response.json()] delivers is in [Q], a
    stored result has as humidity, wind speed and location the body's own
    [main.humidity], [wind.speed] and [name] ([undefined] when missing),
    as temperature [Math.floor] of its [main.temp], and as icon the
    lookup of its [weather[0].icon], for one body of [Q]. *)
Theorem stored_readings Q w d :
  reachable_under app_id Q w -> weatherData (ui w) = WData d -> exists data, Q data /\ readings data d.
Proof.
  intros Hw. revert d.
  apply (reachable_under_stored app_id Q (fun d => exists data, Q data /\ readings data d)); [|exact Hw].
  intros data d Hq Hd. exists data. split; [done|]. by apply weather_of_json_readings.
Qed.

End Reach.

(** ** Witness *)

Lemma reachable_weather_typed_witness :
  let w := {| ui := {| weatherData := WData london_data; error := "" |}; input := "London";
              pending := ∅; next_id := 1 |} in
  @reachable decimal_engine None w /\ weatherData (ui w) = WData london_data /\
  wd_typed london_data.
Proof.
  intros w.
  assert (Hw : @reachable decimal_engine None w).
  { apply (run_events_reachable None initial_world
      [EditInput "London"; ClickSearch; FetchSettles 0 ok_response;
       JsonSettles 0 (Fulfilled london_json)]); [constructor|vm_compute; reflexivity]. }
  split_and!; [exact Hw|reflexivity|].
  exact (@reachable_weather_typed decimal_engine None w london_data Hw eq_refl).
Defined.

Lemma london_world_london : @reachable_under decimal_engine None (fun data => data = london_json) london_world.
Proof.
  unfold london_world.
  destruct (@run_events decimal_engine None initial_world london_events) as [w|] eqn:E; [|constructor].
  apply (run_events_under None _ initial_world london_events w); [constructor| |exact E].
  repeat constructor.
Qed.

Lemma stored_readings_witness :
  @reachable_under decimal_engine None (fun data => data = london_json) london_world /\
  weatherData (ui london_world) = WData london_data /\
  exists data, data = london_json /\ @readings decimal_engine data london_data.
Proof.
  assert (Hd : weatherData (ui london_world) = WData london_data) by (vm_compute; reflexivity).
  split_and!; [exact london_world_london|exact Hd|].
  exact (@stored_readings decimal_engine None (fun data => data = london_json) london_world london_data
           london_world_london Hd).
Defined.
