(* ===== verification/RenderSafety.v ===== *)
(** * When rendering cannot throw

    [render] throws when a stored field is a JSON object
    ([Weather.render_throws_on_object_humidity]): React refuses a plain
    object as a child (lines 118-139 of [src/src/components/Weather.jsx]).
    This file gives the exact condition ([render_ok_iff]: the location,
    humidity and wind speed of the stored result are valid children) and
    shows that the specification's response contract is enough for it:
    in every world reached while every body the network delivers meets
    the contract of [Response.meets_contract], whatever the order of
    events, the stale and late responses included, rendering succeeds.
    It is an instance of [Stored.reachable_under_stored]. *)

From S2P Require Import Prelude JsValue Icons Url Async Weather Response Controller Stored Typing.
From stdpp Require Import gmap.
From Stdlib Require Import QArith Qround.

Local Open Scope string_scope.

(** The bodies meeting the specification's contract. *)
Definition contract_body (data : jsval) : Prop := exists code d, meets_contract data code d.

Section Safety.
Context `{JsEngine} (app_id : option string).

(** A value React renders without throwing. *)
Definition renders (v : jsval) : bool :=
  match child_text v with Ok _ => true | Err _ => false end.

Definition wd_renders (d : weather_data) : bool :=
  renders (location d) && renders (humidity d) && renders (windSpeed d).

Definition ui_renders (st : ui_state) : bool :=
  match weatherData st with WData d => wd_renders d | WNull | WFalse => true end.

(** ** Lemmas *)

Lemma renders_Ok v : renders v = true <-> exists s, child_text v = Ok s.
Proof. unfold renders. destruct (child_text v); split; intros; naive_solver. Qed.

(** The exact condition under which [render] succeeds. *)
Lemma render_ok_iff st : (exists els, render st = Ok els) <-> ui_renders st = true.
Proof.
  unfold render, ui_renders, wd_renders.
  destruct (weatherData st) as [| |d]; [naive_solver|naive_solver|].
  cbn [child_text res_bind]. rewrite !andb_true_iff, !renders_Ok.
  destruct (child_text (location d)) as [l|], (child_text (humidity d)) as [h|],
    (child_text (windSpeed d)) as [w|]; cbn [res_bind]; naive_solver.
Qed.

Lemma get_prop_own ps k x : own_prop ps k = Some x -> get_prop (JObj ps) k = Ok x.
Proof. intros Hk. cbn [get_prop]. by rewrite Hk. Qed.

(** A body meeting the contract gives numbers and a string to the three
    rendered fields, whatever the icon lookup returns. *)
Lemma contract_renders data code d' d :
  meets_contract data code d' -> weather_of_json data = Ok d -> wd_renders d = true.
Proof.
  destruct 1 as [ps ws rest ms wd code h t sp n Hw Hi Hm Hh Ht Hwd Hs Hn].
  unfold weather_of_json. intros Hd. res_inv. injection Hd as <-.
  repeat match goal with
  | Hg : get_prop (JObj ?ps) ?k = Ok _, Ho : own_prop ?ps ?k = Some _ |- _ =>
      rewrite (get_prop_own _ _ _ Ho) in Hg; injection Hg as <-
  end.
  reflexivity.
Qed.

Lemma ui_renders_stored st : stored_ok (fun d => wd_renders d = true) st -> ui_renders st = true.
Proof. unfold ui_renders. intros Hs. destruct (weatherData st) as [| |d] eqn:E; [done|done|]. by apply Hs. Qed.

(** C16: Under the specification's response contract the page never
    crashes: in every world reached by any sequence of typing, clicks and
    network completions, in any order, where every body [response.json()]
    delivers meets the contract (responses that are not ok, rejected
    requests and rejected bodies are allowed), [render] succeeds. *)
Theorem contract_render_safe w :
  reachable_under app_id contract_body w -> exists els, render (ui w) = Ok els.
Proof.
  intros Hw. apply render_ok_iff, ui_renders_stored.
  apply (reachable_under_stored app_id contract_body); [|exact Hw].
  intros data d (code & d' & Hc). exact (contract_renders _ _ _ _ Hc).
Qed.

End Safety.

(** ** Witness *)

Lemma london_contract_body : contract_body london_json.
Proof.
  exists "01d", {| humidity := JNum (Fin 60); windSpeed := JNum (Fin (41 # 10));
                 temperature := Fin (inject_Z (Qfloor (157 # 10))); location := JStr "London";
                 icon := spec_icon "01d" |}.
  unfold london_json. econstructor; reflexivity.
Qed.

Lemma london_world_under : @reachable_under decimal_engine None contract_body london_world.
Proof.
  unfold london_world.
  destruct (@run_events decimal_engine None initial_world london_events) as [w|] eqn:E;
    [|constructor].
  apply (run_events_under None contract_body initial_world london_events w); [constructor| |exact E].
  repeat constructor. exact london_contract_body.
Qed.

Lemma contract_render_safe_witness :
  @reachable_under decimal_engine None contract_body london_world /\
  weatherData (ui london_world) = WData london_data /\
  exists els, @render decimal_engine (ui london_world) = Ok els.
Proof.
  split_and!; [exact london_world_under|vm_compute; reflexivity|].
  exact (@contract_render_safe decimal_engine None london_world london_world_under).
Defined.
