(* ===== verification/View.v ===== *)
(** * The markup: the JSX tree of [Weather] and the [App] shell

    [weather_view] translates the [return] of [Weather] (lines 76-146 of
    [src/src/components/Weather.jsx]) into the element tree React
    renders: the search bar with its input and two clickable images
    ([search_bar], lines 81-101), the error paragraph of line 103, and
    either the result block of lines 105-141 ([result_nodes]) or the
    prompt of line 143.  [App] ([src/src/App.jsx], lines 8-14) wraps it
    in one [div].  The effect of lines 65-68 has an empty body
    ([mount_effect]): mounting starts no request.

    Attributes keep what the component's behaviour depends on: [src],
    [alt], [type], [placeholder], the [ref] of the input and the
    [onClick] handlers ([handler]); [className] only styles the page and
    is left out.  A child expression renders as a text node unless its
    text is empty ([child_nodes]); a conditional [a && b] whose [a] is
    falsy renders nothing.  [weather_view] throws exactly when the flat
    [render] of [Weather] does ([weather_view_render_agree]), so the
    theorems on [render] hold of the tree.  [handlers], [inputs], [srcs]
    and [texts] read a tree; [london_page] follows the specification's
    London scenario from the click on the rendered control to the text
    of the page. *)

From S2P Require Import Prelude JsValue Icons Async Weather Controller Typing.
From stdpp Require Import gmap.

Local Open Scope string_scope.
Set Warnings "-register-all".

(** The two [onClick] handlers, lines 93 and 99. *)
Inductive handler : Type :=
| OnSearch
| OnClear.

#[export] Instance handler_eq_dec : EqDecision handler.
Proof. solve_decision. Defined.

Inductive attr : Type :=
| AText (name value : string)
| ASrc (src : jsval)
| ARef
| AOnClick (h : handler).

Inductive vnode : Type :=
| VText (s : string)
| VElem (tag : string) (attrs : list attr) (children : list vnode).

(** The event of the [Controller] a click on a handler's element
    raises: [search(inputRef.current.value)] or [clearSearch]. *)
Definition click (h : handler) : event :=
  match h with
  | OnSearch => ClickSearch
  | OnClear => ClickClear
  end.

(** Lines 81-101. *)
Definition search_bar : vnode :=
  VElem "div" []
    [VElem "input" [ARef; AText "type" "text"; AText "placeholder" "Search city..."] [];
     VElem "img" [ASrc searchIcon; AText "alt" "search"; AOnClick OnSearch] [];
     VElem "img" [ASrc clearIcon; AText "alt" "clear"; AOnClick OnClear] []].

(** Line 103: [{error && <p>{error}</p>}]. *)
Definition error_nodes (st : ui_state) : list vnode :=
  if shows_error st then [VElem "p" [] [VText (error st)]] else [].

(** Line 143: [!error && <p>Enter a city to get weather info</p>]. *)
Definition prompt_nodes (st : ui_state) : list vnode :=
  if shows_error st then [] else [VElem "p" [] [VText prompt_text]].

Section Tree.
Context `{JsEngine}.

Definition child_nodes (v : jsval) : res exn (list vnode) :=
  (t <-? child_text v ;; Ok (if String.eqb t "" then [] else [VText t]))%wx.

(** The fragment of lines 106-141. *)
Definition result_nodes (d : weather_data) : res exn (list vnode) :=
  (t <-? child_nodes (JNum (temperature d)) ;;
   l <-? child_nodes (location d) ;;
   h <-? child_nodes (humidity d) ;;
   w <-? child_nodes (windSpeed d) ;;
   Ok [VElem "img" [ASrc (icon d); AText "alt" "weather icon"] [];
       VElem "p" [] (t ++ [VText "°c"]);
       VElem "p" [] l;
       VElem "div" []
         [VElem "div" []
            [VElem "img" [ASrc humidityIcon; AText "alt" "humidityIcon"] [];
             VElem "div" [] [VElem "p" [] (h ++ [VText " %"]);
                             VElem "span" [] [VText "Humidity"]]];
          VElem "div" []
            [VElem "img" [ASrc windIcon; AText "alt" "windIcon"] [];
             VElem "div" [] [VElem "p" [] (w ++ [VText " Km/h"]);
                             VElem "span" [] [VText "Wind Speed"]]]]])%list%wx.

(** The [return] of [Weather], lines 76-146. *)
Definition weather_view (st : ui_state) : res exn vnode :=
  (body <-? match weatherData st with
            | WData d => result_nodes d
            | WNull | WFalse => Ok (prompt_nodes st)
            end ;;
   Ok (VElem "div" [] (search_bar :: error_nodes st ++ body)))%list%wx.

(** [App], lines 8-14 of [src/src/App.jsx]. *)
Definition App (st : ui_state) : res exn vnode :=
  (v <-? weather_view st ;; Ok (VElem "div" [] [v]))%wx.

End Tree.

(** [useEffect(() => { }, [])], lines 65-68: the body is empty. *)
Definition mount_effect : async wupdate unit := Ret tt.

(** ** Reading a tree *)

(** What [f] collects from every element, in document order. *)
Fixpoint vcollect {A} (f : string -> list attr -> list A) (v : vnode) : list A :=
  match v with
  | VText _ => []
  | VElem tag attrs cs =>
      (f tag attrs ++
       (fix go (cs : list vnode) : list A :=
          match cs with
          | [] => []
          | c :: cs' => vcollect f c ++ go cs'
          end) cs)%list
  end.

Definition attr_handler (a : attr) : option handler :=
  match a with
  | AOnClick h => Some h
  | _ => None
  end.

(** The click handlers, and the input fields, of a tree. *)
Definition handlers : vnode -> list handler := vcollect (fun _ attrs => omap attr_handler attrs).
Definition inputs : vnode -> list (list attr) :=
  vcollect (fun tag attrs => if String.eqb tag "input" then [attrs] else []).

Definition attr_src (a : attr) : option jsval :=
  match a with
  | ASrc v => Some v
  | _ => None
  end.

(** The [src] of every image of a tree. *)
Definition srcs : vnode -> list jsval := vcollect (fun _ attrs => omap attr_src attrs).

(** An image the bundle ships, or a built-in whose string is no URL of
    the network. *)
Definition image_ok (v : jsval) : Prop :=
  (exists a, v = JStr (asset_url a)) \/ (exists h, v = JHost h).

(** The text nodes of a tree, in document order. *)
Fixpoint texts (v : vnode) : list string :=
  match v with
  | VText s => [s]
  | VElem _ _ cs =>
      (fix go (cs : list vnode) : list string :=
         match cs with
         | [] => []
         | c :: cs' => (texts c ++ go cs')%list
         end) cs
  end.

(** ** Lemmas *)

Lemma vcollect_VElem {A} (f : string -> list attr -> list A) tag attrs cs :
  vcollect f (VElem tag attrs cs) = (f tag attrs ++ mjoin (vcollect f <$> cs))%list.
Proof. simpl. f_equal. induction cs as [|c cs IH]; simpl; [done|]. by rewrite IH. Qed.

#[export] Hint Rewrite @vcollect_VElem : wx_rw.

Section TreeLemmas.
Context `{JsEngine}.

Lemma child_nodes_shape v ns : child_nodes v = Ok ns -> ns = [] \/ exists s, ns = [VText s].
Proof.
  unfold child_nodes. intros Hn. res_inv. injection Hn as <-.
  case_match; eauto.
Qed.

Lemma child_nodes_Err v e : child_nodes v = Err e <-> child_text v = Err e.
Proof. unfold child_nodes. destruct (child_text v); simpl; split; congruence. Qed.

(** The result block has no handler and no input, and its images are
    the stored icon and the two bundled ones. *)
Lemma result_nodes_collect d ns :
  result_nodes d = Ok ns ->
  mjoin (handlers <$> ns) = [] /\ mjoin (inputs <$> ns) = [] /\
  mjoin (srcs <$> ns) = [icon d; humidityIcon; windIcon].
Proof.
  unfold result_nodes. intros Hn. res_inv. injection Hn as <-.
  repeat match goal with
  | Hc : child_nodes _ = Ok _ |- _ =>
      apply child_nodes_shape in Hc as [->|[? ->]]
  end; split_and!; reflexivity.
Qed.

End TreeLemmas.

Lemma image_ok_icon v : icon_value v -> image_ok v.
Proof.
  destruct 1 as [k v Hin|h]; [left|right; eauto].
  assert (Hall : Forall (fun kv => exists a, kv.2 = JStr (asset_url a)) allIcons_props)
    by (repeat constructor; eexists; reflexivity).
  rewrite Forall_forall in Hall. exact (Hall _ Hin).
Qed.

(** ** Theorems *)

Section ViewTheorems.
Context `{JsEngine} (app_id : option string).

(** C22: Whatever the state, a rendered [Weather] offers exactly the
    surface the specification lists: one text input (the one [inputRef]
    points to), and two clickable controls, search then clear, which
    raise the [ClickSearch] and [ClickClear] events of the controller. *)
Theorem weather_view_controls st v :
  weather_view st = Ok v ->
  click <$> handlers v = [ClickSearch; ClickClear] /\
  inputs v = [[ARef; AText "type" "text"; AText "placeholder" "Search city..."]].
Proof.
  unfold weather_view. intros Hv. res_inv. injection Hv as <-.
  assert (Hbody : mjoin (handlers <$> a) = [] /\ mjoin (inputs <$> a) = []).
  { destruct (weatherData st) as [| |d].
    1,2: injection Hm as <-; unfold prompt_nodes; destruct (shows_error st); by split.
    by destruct (result_nodes_collect d a Hm) as (? & ? & _). }
  destruct Hbody as [Hb1 Hb2]. unfold handlers, inputs in *.
  rewrite !vcollect_VElem, !fmap_cons, !fmap_app. cbn [mjoin list_join]. rewrite !join_app, Hb1, Hb2.
  unfold error_nodes. destruct (shows_error st); simpl; by split.
Qed.

(** The tree of lines 76-146 throws exactly when, and with the
    exception that, the flat model [render] of its dynamic children
    throws: the error paragraph, the prompt and the static markup never
    throw, and the result block throws on the first of temperature,
    location, humidity and wind speed that is not a valid child. *)
Theorem weather_view_render_agree st e : weather_view st = Err e <-> render st = Err e.
Proof.
  unfold weather_view, render. destruct (weatherData st) as [| |d]; simpl; [split; congruence..|].
  unfold result_nodes, child_nodes.
  destruct (child_text (location d)), (child_text (humidity d)), (child_text (windSpeed d));
    simpl; split; congruence.
Qed.

(** The first page [App] shows, before any event, the search bar
    and the prompt and nothing else; the effect run on mount queues no
    update and awaits nothing, so no request starts until a click. *)
Theorem first_page :
  App (ui initial_world) =
    Ok (VElem "div" [] [VElem "div" [] [search_bar; VElem "p" [] [VText prompt_text]]]) /\
  advance mount_effect = ([], Ret tt).
Proof. split; reflexivity. Qed.

(** C23: In every reachable world, every image the page shows is one the
    bundle ships, or the string of an inherited built-in: the [src] of
    the weather icon is never a value taken from the API response. *)
Theorem reachable_images_bundled w v :
  reachable app_id w -> weather_view (ui w) = Ok v -> Forall image_ok (srcs v).
Proof.
  intros Hw Hv. pose proof (reachable_ui_typed app_id w Hw) as Ht.
  unfold weather_view in Hv. res_inv. injection Hv as <-.
  assert (Hb : Forall image_ok (mjoin (srcs <$> a))).
  { destruct (weatherData (ui w)) as [| |d] eqn:Hd.
    1,2: injection Hm as <-; unfold prompt_nodes; destruct (shows_error (ui w)); constructor.
    rewrite (proj2 (proj2 (result_nodes_collect d a Hm))).
    apply Forall_cons; split; [apply image_ok_icon, (typed_icon _ (Ht d Hd))|].
    repeat (apply Forall_cons; split; [left; eauto|]). constructor. }
  unfold srcs in *. rewrite vcollect_VElem, !fmap_cons, !fmap_app. cbn [mjoin list_join].
  rewrite join_app. unfold error_nodes. destruct (shows_error (ui w)); simpl;
    repeat (apply Forall_cons; split; [left; eauto|]); done.
Qed.

End ViewTheorems.

(** The London scenario of the specification, end to end: typing
    "London", clicking the search control of the rendered page, and the
    network answering the scenario's response, the page [App] shows the
    texts "15", "°c", "London", "60 %" and "4.1 Km/h" with their labels,
    the clear-sky icon, and no error, with nothing left in flight. *)
Theorem london_page :
  exists w v,
    @run_events decimal_engine None initial_world
      [EditInput "London"; click OnSearch; FetchSettles 0 ok_response;
       JsonSettles 0 (Fulfilled london_json)] = Some w /\
    pending w = ∅ /\
    @App decimal_engine (ui w) = Ok v /\
    texts v = ["15"; "°c"; "London"; "60"; " %"; "Humidity"; "4.1"; " Km/h"; "Wind Speed"] /\
    srcs v = [searchIcon; clearIcon; clearIcon; humidityIcon; windIcon].
Proof. do 2 eexists. split_and!; [vm_compute; reflexivity|reflexivity|vm_compute; reflexivity..]. Qed.

(** ** Witnesses *)

Definition london_world : world :=
  {| ui := {| weatherData := WData london_data; error := "" |}; input := "London";
     pending := ∅; next_id := 1 |}.

Lemma weather_view_controls_witness :
  exists v, @weather_view decimal_engine (ui london_world) = Ok v /\
    click <$> handlers v = [ClickSearch; ClickClear] /\
    inputs v = [[ARef; AText "type" "text"; AText "placeholder" "Search city..."]].
Proof.
  destruct (@weather_view decimal_engine (ui london_world)) as [v|e] eqn:Hv;
    [|vm_compute in Hv; discriminate Hv].
  exists v. split; [reflexivity|].
  exact (@weather_view_controls decimal_engine (ui london_world) v Hv).
Defined.

Lemma reachable_images_bundled_witness :
  @reachable decimal_engine None london_world /\
  exists v, @weather_view decimal_engine (ui london_world) = Ok v /\ Forall image_ok (srcs v).
Proof.
  assert (Hw : @reachable decimal_engine None london_world).
  { apply (run_events_reachable None initial_world
      [EditInput "London"; ClickSearch; FetchSettles 0 ok_response;
       JsonSettles 0 (Fulfilled london_json)]); [constructor|vm_compute; reflexivity]. }
  split; [exact Hw|].
  destruct (@weather_view decimal_engine (ui london_world)) as [v|e] eqn:Hv;
    [|vm_compute in Hv; discriminate Hv].
  exists v. split; [reflexivity|].
  exact (@reachable_images_bundled decimal_engine None london_world v Hw Hv).
Defined.
