(* ===== verification/Refinement.v ===== *)
(** * The specification's state machine, and the component refines it

    The specification describes the component as a machine with states
    Idle, Success(result) and Failure(message), where [search] with a
    valid city moves to Success or Failure "per outcome", [search("")] is
    a no-op and [clear()] moves to Idle ([spec_step]).  [abs_ui] reads
    the implementation's pair ([weatherData], [error]) as one of these
    states, exactly: Idle is [null] with no error, Success a result with
    no error, Failure [false] with a message; every other pair (a result
    next to an error, say) is no state of the specification and has no
    image.  [step_refines] shows that each event of the implementation
    ([Controller.step]) is a step of the machine with the label the event
    determines, or leaves the abstract state unchanged: typing, starting
    a request, a fetch that succeeds (the body is still awaited).  The
    transition to Success or Failure happens when the request's last
    promise settles, with the result computed from that response. *)

From S2P Require Import Prelude JsValue Icons Url Async Weather Controller.
From stdpp Require Import gmap.

Local Open Scope string_scope.

Inductive spec_state : Type :=
| Idle
| Success (r : weather_data)
| Failure (msg : string).

Inductive spec_label : Type :=
| SearchEmpty
| LookupOk (r : weather_data)
| LookupFailed
| Clear.

Inductive spec_step : spec_state -> spec_label -> spec_state -> Prop :=
| sp_empty s : spec_step s SearchEmpty s
| sp_ok s r : spec_step s (LookupOk r) (Success r)
| sp_fail s : spec_step s LookupFailed (Failure city_not_found)
| sp_clear s : spec_step s Clear Idle.

#[export] Hint Constructors spec_step : wx.

Definition abs_ui (st : ui_state) : option spec_state :=
  match weatherData st, error st with
  | WNull, EmptyString => Some Idle
  | WData d, EmptyString => Some (Success d)
  | WFalse, String c m => Some (Failure (String c m))
  | _, _ => None
  end.

(** The abstract step an event performs, when it performs one. *)
Section Labels.
Context `{JsEngine}.

Definition json_label (s : settled jsval) : spec_label :=
  match s with
  | Fulfilled data =>
      match weather_of_json data with
      | Ok r => LookupOk r
      | Err _ => LookupFailed
      end
  | Rejected _ => LookupFailed
  end.

Definition fetch_label (s : settled response) : option spec_label :=
  match s with
  | Fulfilled r => if resp_ok r then None else Some LookupFailed
  | Rejected _ => Some LookupFailed
  end.

Definition event_label (e : event) : option spec_label :=
  match e with
  | EditInput _ | ClickSearch => None
  | ClickClear => Some Clear
  | FetchSettles _ s => fetch_label s
  | JsonSettles _ s => Some (json_label s)
  end.

End Labels.

(** ** Lemmas *)

Section Refines.
Context `{JsEngine} (app_id : option string).

Lemma advance_search_nil city : (advance (search app_id city)).1 = [].
Proof. rewrite search_stage. by destruct (String.eqb city ""). Qed.

Lemma abs_ui_inv st : ui_inv st -> exists a, abs_ui st = Some a.
Proof. intros [->|[[d ->]| ->]]; eauto. Qed.

(** C2: Every event of the implementation, from a reachable world, is
    either a step of the specification's machine with the label the
    event determines (clear: Clear; a failed fetch: LookupFailed; a
    settled body: LookupOk with the result computed from that body, or
    LookupFailed), or leaves the abstract state unchanged (typing,
    clicking search, a successful fetch); before and after, the displayed
    pair is exactly one of the specification's states, so a result is
    never shown next to an error. *)
Theorem step_refines w e w' :
  reachable app_id w -> step app_id w e = Some w' ->
  exists a, abs_ui (ui w) = Some a /\
    match event_label e with
    | Some l => exists a', abs_ui (ui w') = Some a' /\ spec_step a l a'
    | None => abs_ui (ui w') = Some a
    end.
Proof.
  intros Hw Hstep. destruct (reachable_world_inv app_id w Hw) as (Hinv & Hp & _).
  destruct (abs_ui_inv _ Hinv) as [a Ha]. exists a. split; [done|].
  destruct e as [s| | |i s|i s]; simpl in Hstep |- *.
  - by injection Hstep as <-.
  - injection Hstep as <-. rewrite run_segment_ui, advance_search_nil. done.
  - injection Hstep as <-. simpl. eauto with wx.
  - destruct (pending w !! i) as [m|] eqn:Hi; [|discriminate].
    destruct (Hp i m Hi) as [[url ->]|[r ->]]; simpl in Hstep; [|discriminate].
    injection Hstep as <-. rewrite run_segment_ui, advance_fetch_stage.
    destruct s as [r|ex]; simpl; [destruct (resp_ok r)|]; simpl; eauto with wx.
  - destruct (pending w !! i) as [m|] eqn:Hi; [|discriminate].
    destruct (Hp i m Hi) as [[url ->]|[r ->]]; simpl in Hstep; [discriminate|].
    injection Hstep as <-. rewrite run_segment_ui, advance_json_stage.
    destruct s as [data|ex]; simpl; [destruct (weather_of_json data)|]; simpl; eauto with wx.
Qed.

End Refines.

(** ** Witnesses *)

Lemma step_refines_witness :
  let w := {| ui := {| weatherData := WFalse; error := city_not_found |};
              input := "Nowhereistan"; pending := ∅; next_id := 1 |} in
  exists w',
    @step decimal_engine None w ClickClear = Some w' /\
    exists a, abs_ui (ui w) = Some a /\
      (exists a', abs_ui (ui w') = Some a' /\ spec_step a Clear a').
Proof.
  intros w. eexists. split; [reflexivity|].
  assert (Hw : @reachable decimal_engine None w).
  { apply (run_events_reachable None initial_world
      [EditInput "Nowhereistan"; ClickSearch; FetchSettles 0 ok_response;
       JsonSettles 0 (Rejected (SyntaxError "Unexpected end of JSON input"))]);
      [constructor|vm_compute; reflexivity]. }
  exact (@step_refines decimal_engine None w ClickClear _ Hw eq_refl).
Defined.
