(* ===== verification/SeqGuard.v ===== *)
(** * The sequence-number guard of the design notes

    spec.md (Design Notes) calls the last-resolve-wins race between
    overlapping searches a latent gap, and suggests tagging each request
    with an increasing sequence number and discarding responses older
    than the one currently applied.  This file models that guard over the
    controller of [Controller] (not code of the repository: the
    component has no such guard, see [Controller.stale_response_wins]).
    Request numbers already increase with each click ([next_id]);
    [applied] remembers the newest request whose updates reached the
    state, and [guarded_segment] drops the updates of an older one while
    still letting its search run to its end.  [clearSearch] is left as it
    is: the note does not ask it to cancel anything. *)

From S2P Require Import Prelude JsValue Icons Url Async Weather Controller.
From stdpp Require Import gmap.

Local Open Scope string_scope.

Record gworld : Type := {
  gw : world;
  applied : option nat
}.

Definition initial_gworld : gworld := {| gw := initial_world; applied := None |}.

(** Whether request [id] is not older than the newest applied one. *)
Definition fresh (g : gworld) (id : nat) : bool :=
  match applied g with
  | Some j => (j <=? id)%nat
  | None => true
  end.

Definition with_ui (w : world) (st : ui_state) : world :=
  {| ui := st; input := input w; pending := pending w; next_id := next_id w |}.

(** [run_segment], with the updates of a stale request discarded. *)
Definition guarded_segment (g : gworld) (id : nat) (m : async wupdate unit) : gworld :=
  let w' := run_segment (gw g) id m in
  if fresh g id then
    {| gw := w'; applied := if bool_decide ((advance m).1 = []) then applied g else Some id |}
  else {| gw := with_ui w' (ui (gw g)); applied := applied g |}.

Section Guarded.
Context `{JsEngine} (app_id : option string).

Definition guarded_step (g : gworld) (e : event) : option gworld :=
  let w := gw g in
  match e with
  | EditInput s =>
      Some {| gw := {| ui := ui w; input := s; pending := pending w; next_id := next_id w |};
              applied := applied g |}
  | ClickSearch =>
      let n := next_id w in
      Some (guarded_segment {| gw := {| ui := ui w; input := input w; pending := pending w;
                                        next_id := S n |};
                               applied := applied g |} n (search app_id (input w)))
  | ClickClear => Some {| gw := clearSearch w; applied := applied g |}
  | FetchSettles id s =>
      match pending w !! id with
      | Some (AwaitFetch _ k) => Some (guarded_segment g id (k s))
      | _ => None
      end
  | JsonSettles id s =>
      match pending w !! id with
      | Some (AwaitJson _ k) => Some (guarded_segment g id (k s))
      | _ => None
      end
  end.

Fixpoint guarded_run (g : gworld) (es : list event) : option gworld :=
  match es with
  | [] => Some g
  | e :: es' => match guarded_step g e with Some g' => guarded_run g' es' | None => None end
  end.

Inductive greachable : gworld -> Prop :=
| greach_init : greachable initial_gworld
| greach_step g e g' : greachable g -> guarded_step g e = Some g' -> greachable g'.

End Guarded.

(** All the orders in which two sequences of events can interleave. *)
Fixpoint interleavings {A} (l1 l2 : list A) : list (list A) :=
  match l1 with
  | [] => [l2]
  | x :: l1' =>
      (fix go (l2 : list A) : list (list A) :=
         match l2 with
         | [] => [l1]
         | y :: l2' => ((cons x <$> interleavings l1' l2) ++ (cons y <$> go l2'))%list
         end) l2
  end.

(** ** The guarded controller refines the code's up to the display *)

Section GuardLemmas.
Context `{JsEngine} (app_id : option string).

(** A guarded step is a step of the code's controller, whose display
    update is kept or discarded. *)
Lemma guarded_step_step g e g' :
  guarded_step app_id g e = Some g' ->
  exists w', step app_id (gw g) e = Some w' /\
             (gw g' = w' \/ gw g' = with_ui w' (ui (gw g))).
Proof.
  destruct e as [s| | |i s|i s]; simpl; intros Hg.
  - injection Hg as <-. eexists. split; [reflexivity|]. by left.
  - injection Hg as <-. eexists. split; [reflexivity|].
    unfold guarded_segment. destruct (fresh _ _); simpl; auto.
  - injection Hg as <-. eexists. split; [reflexivity|]. by left.
  - destruct (pending (gw g) !! i) as [[]|]; try discriminate.
    injection Hg as <-. eexists. split; [reflexivity|].
    unfold guarded_segment. destruct (fresh _ _); simpl; auto.
  - destruct (pending (gw g) !! i) as [[]|]; try discriminate.
    injection Hg as <-. eexists. split; [reflexivity|].
    unfold guarded_segment. destruct (fresh _ _); simpl; auto.
Qed.

Lemma greachable_world_inv g : greachable app_id g -> world_inv (gw g).
Proof.
  induction 1 as [|g e g' _ IH Hg].
  - apply (reachable_world_inv app_id), reach_init.
  - destruct (guarded_step_step g e g' Hg) as (w' & Hs & [-> | ->]).
    + by eapply step_world_inv.
    + destruct (step_world_inv app_id _ _ _ IH Hs) as (_ & Hp & Hids).
      split_and!; [apply IH|done|done].
Qed.

Lemma guarded_run_greachable g es g' :
  greachable app_id g -> guarded_run app_id g es = Some g' -> greachable app_id g'.
Proof.
  revert g. induction es as [|e es IH]; intros g Hg Hrun; simpl in Hrun.
  - by injection Hrun as <-.
  - destruct (guarded_step app_id g e) as [g1|] eqn:He; [|discriminate].
    apply (IH g1); [|done]. by apply (greach_step app_id g e g1).
Qed.

End GuardLemmas.

(** Two searches, "London" then "Paris", in flight together. *)
Definition overlapping_searches : list event :=
  [EditInput "London"; ClickSearch; EditInput "Paris"; ClickSearch].

Section GuardTheorems.
Context `{JsEngine} (app_id : option string).

(** With the guard, the later search wins in every order: whichever
    of the six interleavings of the two requests' settlements occurs,
    both requests finish and the display ends on the result for "Paris",
    with no error.  Without it the code can end on "London"
    ([Controller.stale_response_wins]). *)
Theorem guarded_latest_search_wins :
  Forall (fun es => exists g d,
            guarded_run app_id initial_gworld (overlapping_searches ++ es) = Some g /\
            pending (gw g) = ∅ /\
            ui (gw g) = {| weatherData := WData d; error := "" |} /\ location d = JStr "Paris")
    (interleavings [FetchSettles 0 ok_response; JsonSettles 0 (Fulfilled london_json)]
                   [FetchSettles 1 ok_response; JsonSettles 1 (Fulfilled paris_json)]).
Proof.
  simpl. repeat (apply Forall_cons; split;
    [do 2 eexists; split; [vm_compute; reflexivity|split_and!; reflexivity]|]).
  constructor.
Qed.

(** The guard keeps the invariant of the code's controller: in every
    world reachable with it, the state is idle, success or failure and
    exactly one display mode is shown. *)
Theorem guarded_exactly_one_mode g :
  greachable app_id g ->
  ui_inv (ui (gw g)) /\
  exactly_one (shows_error (ui (gw g))) (shows_result (ui (gw g))) (shows_prompt (ui (gw g))) = true.
Proof.
  intros Hg. destruct (greachable_world_inv app_id g Hg) as [Hui _].
  split; [done|]. by apply ui_inv_exactly_one.
Qed.

End GuardTheorems.

(** ** Witness *)

Lemma guarded_exactly_one_mode_witness :
  let g := {| gw := {| ui := {| weatherData := WData london_data; error := "" |};
                       input := "London"; pending := ∅; next_id := 1 |};
              applied := Some 0 |} in
  @greachable decimal_engine None g /\
  ui_inv (ui (gw g)) /\
  exactly_one (shows_error (ui (gw g))) (shows_result (ui (gw g))) (shows_prompt (ui (gw g))) = true.
Proof.
  intros g.
  assert (Hg : @greachable decimal_engine None g).
  { apply (guarded_run_greachable None initial_gworld
      [EditInput "London"; ClickSearch; FetchSettles 0 ok_response;
       JsonSettles 0 (Fulfilled london_json)]); [constructor|vm_compute; reflexivity]. }
  split; [exact Hg|]. exact (@guarded_exactly_one_mode decimal_engine None g Hg).
Defined.
